(* ===== verification/_CoqProject ===== *)
-Q . S2P
Prelude.v
Series.v
Frame.v
Plotly.v
Streamlit.v
Filter.v
Aggregate.v
Charts.v
Loader.v
Dashboard.v
Session.v
Runner.v
Server.v
