(* ===== verification/Prelude.v ===== *)
(** * Employee Analytics Dashboard: a verification development

    The program is [src/main.py], a Streamlit script of 172 lines.  Streamlit
    runs the script from its first line to its last once when a browser
    session starts and once more after every interaction with a widget.  A
    run

    - configures the page and injects a style sheet (lines 6-26);
    - loads the table [employee_data.csv] with [pd.read_csv] under
      [@st.cache_data], so that the file is read once per process
      (lines 29-33);
    - builds the sidebar: two multiselects whose options are the distinct
      present values of the columns DepartmentType and EmployeeStatus, a
      range slider between the least and the greatest Current Employee
      Rating, and a button "Reset Filters" that calls
      [st.experimental_rerun] (lines 36-61);
    - filters the table by the three controls (lines 64-68);
    - shows three metrics, four Plotly charts and a drill-down table of the
      filtered view (lines 71-172).

    ** Files

    - [Prelude] (this file): cells of a numeric column, the generic list
      functions behind the pandas calls ([count], [unique] with its
      specification [first_seen], the stable insertion sort [sort_by],
      [Qsum]), the order on strings, the type [result] of values and
      exceptions, hint databases and tactics.
    - [Series]: the pandas calls on one column, as functions on lists of
      cells: [dropna], [isin], [between], [==], [&], [df[mask]], [min],
      [max], [mean], [round(x, 2)], [value_counts], [groupby(..).mean()].
    - [Frame]: the table [df]: [Row], [DataFrame], the exceptions [Exn],
      column access [getitem_text] and [getitem_num] with [KeyError] of
      the name, [df[mask]], [df[[names]]] with [KeyError] of all the
      missing names, [len], well-formedness [wf_frame].
    - [Plotly]: chart tables, [px_bar], [px_pie] with [ValueError] for a
      name that is no column, [update_layout], and the data series
      [traces] that Plotly Express builds from a call.
    - [Streamlit]: the monad [Script] of a run (the widget values and the
      disk are read; the page and the cache are written; a run ends with a
      value, an exception or a rerun request), one definition per
      Streamlit call of the script, the interface [CacheStable], the
      big-step relation [runs], and pages as values ([View], [shows]).
    - [Filter]: lines 38-58 and 64-68: [department_options],
      [status_options], [rating_min], [rating_max], [filtered_df], and the
      row predicate [selected] that the mask pipeline implements.
    - [Aggregate]: lines 77-79, 90-151, 158-166: [total_emp],
      [active_emp], [avg_rating], [dept_count], [perf_count],
      [type_count], [dept_perf], [fig1] .. [fig4], [details].
    - [Charts]: the four charts taken together ([chart_table],
      [chart_figure]) and the series of their figures.
    - [Loader]: lines 29-33: [load_data].
    - [Dashboard]: the script: [page_setup] (6-26), [sidebar] (36-61),
      [heading] (71-72), [kpi_row] (75-85), [chart1] .. [chart4] (88-152),
      [detail_table] (155-168), [footer] (171-172), composed as [report],
      [dashboard] and [main] in the order of the source; and the
      specification they are proved against: [filters], [sidebar_view],
      [report_view] and [view], the page as a function of the table and
      the widget values.
    - [Session]: the execution model of Streamlit around the script:
      [Event], [apply_event], the rerun loop [run_loop], [handle], the
      step relation [step] and the reachable states of a session.
    - [Runner]: the same runtime as a transition system whose step is one
      run of the script ([Client], [run_client], [run_step]), and the
      interface [Rerunnable] between the runtime and the script it runs,
      of which [main] is an instance.
    - [Server]: a process with several sessions over the one cache:
      [Process], the actions [Connect], [Interact], [Run], [Disconnect]
      of a session lifted to the process by [act], sequences of actions
      [exec], and the order of the runs [schedule].

    The files depend on each other in this order.  [Runner] and [Server]
    are clients of [Dashboard] through [Rerunnable]: their lemmas on
    termination and independence hold for every script of the interface,
    and [Dashboard.main_run_cases] discharges it for [main].

    ** Theorems

    - Filter: the mask pipeline is the row filter by [selected]
      (refinement); membership in the view (sound and complete); vacuous
      filters return the empty view and are no errors; monotonicity;
      idempotence; the options of a control are the values of its column
      in the order of first occurrence ([first_seen], which determines
      them: [first_seen_unique]); the bounds of the range; the default
      filter returns the whole table exactly when no record has a missing
      value in a filtered column.
    - Aggregate: each metric and each chart table as a function of the
      records of the view: counts per value sorted by descending count with
      ties in first-seen order, counts adding up to the total, group means
      in the order of the names, each a number within the selected range;
      the average is the value with two decimals nearest to the exact
      mean, the even one at a tie (which determines it:
      [Series.rint_unique]), and the weighted mean of the group means
      before rounding; NaN exactly on the empty view; figures that never
      raise.
    - Charts: each bar chart has one series per row of its table in the
      order of the table; the points of the series read back give the
      table (round trip); the colours of the series are distinct exactly
      up to ten rows.  For any table ([Plotly.bar_traces_points]): the
      series of a bar chart coloured by label draw every row once, label
      by label in first-seen order.
    - Loader: the result on every branch; the table is loaded once.
    - Dashboard: a run writes exactly [view] (refinement of the stateful
      script by a pure function); a run raises exactly when a column of
      the schema is missing, and then [KeyError] of the first missing
      column in reading order; the run of a click stops at the button.
    - Session: every interaction is handled within two runs
      (termination); in every reachable state the screen is [view] of the
      stored widget values (invariant, by induction on [reachable]); a
      click on the reset button changes nothing; every interaction is
      answered by the page of the value chosen ([page_of] of [update],
      round trip); the first visit shows the records without a missing
      value in a filtered column; three offered interactions lead back
      to the page of the first visit.
    - Runner: every sequence of runs of a session is finite (strong
      normalisation of [run_step], by the measure [runs_left]) and ends
      in a settled state (liveness); a sequence has at most two steps;
      [run_loop] returns exactly the state in which the steps come to
      rest (equivalence of the loop with the transition system).
    - Server: after any interleaving a session is where its own actions
      alone put it (projection); actions of different sessions commute;
      the runs of a process always end, and every order of the runs ends
      in the same process (strong normalisation and local confluence of
      [schedule], hence confluence by Newman's lemma); every session at
      rest is settled (invariant of [exec]); a session of the process
      ends where [Session.handle] and [Session.first_visit] put the
      session alone (refinement).

    ** Modelling choices

    - A cell of a text column is [option string], a cell of the numeric
      column is [option Q]: [None] is a missing value (NaN).  Arithmetic on
      ratings is exact; the rounding of binary64 sums and quotients is
      abstracted, so statements about [mean] hold up to that rounding.
      [round(x, 2)] rounds the exact value to the nearest hundredth,
      halves to even.
    - [value_counts] sorts by descending count with a stable sort, so
      values with equal counts stay in first-seen order.  This is what
      pandas does in practice and what the specification of the dashboard
      asks for; the documentation of pandas leaves the order of equal
      counts open, and the statements on the order of the bars of charts
      1 to 3 hold under this reading.
    - A table has the five columns the script reads when its header says
      so; other columns are not represented.  The dtypes are those of the
      schema: a file whose rating column holds text is outside the model.
    - pandas, Plotly and Streamlit are libraries: their calls are modelled
      from their documented behaviour, at the call sites of the script.
    - The identity of a widget is its label.  A control returns the value
      stored for its label in the session, or its default.  The slider is
      taken to accept the bounds and the value the script gives it,
      whatever they are: the statements on the runs that succeed hold
      under this assumption.  A stored selection is returned without a
      check against the options of the run.  What the front end lets the
      user choose ([offered]: a selection among the options, a range
      within the bounds with its ends in order) is a premise of the
      steps of a session, not a theorem.
    - [rerun_bound] is 2: a run asks for another run only in the run that
      a click on the button starts, and the button is released before the
      next run, so the second run always ends the interaction
      ([run_loop_terminates] proves it for every table and every state,
      and that more fuel gives the same state).  [Runner] needs no fuel:
      its relation [run_step] is proved strongly normalising.
    - In [Server] a run of the script is one step.  Streamlit runs the
      scripts of different sessions in threads of their own; the only
      object they share is the cache of [load_data], which a run reads
      and fills in one call, so every interleaving of the threads gives
      the result of the runs made one after the other in some order.
      The disk is fixed while the process runs.
    - Colours are positions in the discrete colour sequence, which has
      ten colours in the default template of Plotly and in the theme of
      Streamlit; the colour values are not modelled.

    ** Not modelled

    - the bytes of the CSV file and their parsing by [pd.read_csv];
    - what the browser draws: the effect of the style sheet, of
      [layout="wide"] and [use_container_width], the axes, legends,
      colour values and animations of the charts;
    - the behaviour of the slider widget when its bounds are equal or NaN;
    - a file that changes while the process runs, and the restart of the
      process.

    ** Open ends

    - binary64 arithmetic for [mean] in place of exact rationals;
    - a reader of CSV text in front of [read_csv], for a dialect without
      quoting, with its round trip.

    ** This file

    - floating point cells: [float] is [option Q], [NaN] is [None];
    - the setoid of rationals as an stdpp [Equiv];
    - [count], [unique], the groups of a list by a key, [sort_by], [Qsum]
      and their lemmas, the order [string_le], the type [result] with its
      monad, the relation [same_set]. *)

From Stdlib Require Export QArith Qround Qminmax Lqa.
From stdpp Require Export list gmap gmultiset strings sorting.

#[global] Close Scope Q_scope.
#[global] Set Warnings "-clear-no-such-hyp,-notation-for-abbreviation".

(** ** Rationals as a setoid *)

#[export] Instance Q_equiv : Equiv Q := Qeq.
#[export] Instance Q_equivalence : Equivalence (≡@{Q}).
Proof. exact Q_Setoid. Qed.
#[export] Instance Q_eq_dec : EqDecision Q.
Proof. solve_decision. Defined.
#[export] Instance Qle_preorder : PreOrder Qle.
Proof. split; [exact Qle_refl|exact Qle_trans]. Qed.

(** ** Floating point cells *)

Declare Scope float_scope.
Delimit Scope float_scope with float.

Notation float := (option Q) (only parsing).
Notation NaN := (@None Q) (only parsing).

(** IEEE comparison [x <= y]: false as soon as one side is NaN. *)
Definition fle (x y : float) : bool :=
  match x, y with
  | Some a, Some b => Qle_bool a b
  | _, _ => false
  end.

Infix "<=?" := fle : float_scope.

Lemma fle_Some (a b : Q) : fle (Some a) (Some b) = true ↔ (a <= b)%Q.
Proof. apply Qle_bool_iff. Qed.

Lemma fle_true (x y : float) :
  fle x y = true ↔ ∃ a b, x = Some a ∧ y = Some b ∧ (a <= b)%Q.
Proof.
  destruct x as [a|], y as [b|]; simpl; try (split; [done|naive_solver]).
  rewrite Qle_bool_iff. naive_solver.
Qed.

(** ** Tactics and hint databases *)

(** [frame] collects the rewrite rules and the introduction lemmas of the
    table operations; [bool_to_Prop] turns the boolean tests of the source
    into the propositions they decide. *)
Create HintDb frame discriminated.
Create Rewrite HintDb frame_rw.

Ltac bool_to_Prop :=
  repeat match goal with
  | H : _ && _ = true |- _ => apply andb_prop in H; destruct H
  | H : bool_decide _ = true |- _ => apply bool_decide_eq_true in H
  | H : bool_decide _ = false |- _ => apply bool_decide_eq_false in H
  | |- _ && _ = true => apply andb_true_intro; split
  | |- bool_decide _ = true => apply bool_decide_eq_true
  | |- bool_decide _ = false => apply bool_decide_eq_false
  end.

(** Case analysis on every [decide] and boolean match of the goal. *)
Ltac case_all :=
  repeat (case_decide || case_bool_decide || case_match); simplify_eq/=.

(** ** Counting *)

Section count.
Context `{EqDecision A}.
Implicit Types (x y : A) (l k : list A).

(** Number of occurrences of [x] in [l]. *)
Definition count (x : A) (l : list A) : nat := length (filter (x =.) l).

Lemma count_nil x : count x [] = 0.
Proof. done. Qed.

Lemma count_cons x y l :
  count x (y :: l) = (if decide (x = y) then 1 else 0) + count x l.
Proof. unfold count. rewrite filter_cons. by case_decide. Qed.

Lemma count_app x l k : count x (l ++ k) = count x l + count x k.
Proof. unfold count. by rewrite filter_app, length_app. Qed.

Lemma count_pos x l : 0 < count x l ↔ x ∈ l.
Proof.
  induction l as [|y l IH]; [rewrite count_nil; set_solver by lia|].
  rewrite count_cons, elem_of_cons. case_decide; [naive_solver lia|].
  rewrite <-IH. naive_solver lia.
Qed.

Lemma count_0 x l : count x l = 0 ↔ x ∉ l.
Proof. rewrite <-count_pos. lia. Qed.

Lemma count_le_length x l : count x l ≤ length l.
Proof. apply length_filter. Qed.

Lemma count_filter (P : A → Prop) `{!∀ y, Decision (P y)} x l :
  count x (filter P l) = if decide (P x) then count x l else 0.
Proof.
  induction l as [|y l IH]; [by case_decide|].
  rewrite filter_cons. destruct (decide (P y)); rewrite ?count_cons, IH;
    repeat case_decide; naive_solver.
Qed.

Lemma count_perm x : Proper ((≡ₚ) ==> (=)) (count x).
Proof. intros l k Hlk. unfold count. by rewrite Hlk. Qed.

(** The abstract view of counting: multiplicity in the multiset of [l]. *)
Lemma count_multiplicity `{!Countable A} x l :
  count x l = multiplicity x (list_to_set_disj l : gmultiset A).
Proof.
  induction l as [|y l IH]; simpl.
  - by rewrite count_nil, multiplicity_empty.
  - rewrite count_cons, multiplicity_disj_union, multiplicity_singleton, IH.
    repeat case_decide; naive_solver.
Qed.
End count.

#[export] Hint Rewrite @count_nil @count_cons @count_app : frame_rw.
#[export] Existing Instance count_perm.

(** ** Filtering *)

Section filter_extra.
Context {A : Type} (P Q : A → Prop) `{!∀ x, Decision (P x), !∀ x, Decision (Q x)}.
Implicit Types (l : list A).

Lemma filter_ext_in l :
  (∀ x, x ∈ l → P x ↔ Q x) → filter P l = filter Q l.
Proof.
  induction l as [|x l IH]; intros HPQ; [done|].
  rewrite !filter_cons, IH by set_solver.
  pose proof (HPQ x). repeat case_decide; set_solver.
Qed.

Lemma filter_all l : Forall P l → filter P l = l.
Proof.
  induction 1 as [|x l ? _ IH]; [done|]. by rewrite filter_cons_True, IH.
Qed.

Lemma filter_none l : Forall (λ x, ¬ P x) l → filter P l = [].
Proof. induction 1; [done|]. by rewrite filter_cons_False. Qed.

Lemma filter_all_inv l : filter P l = l → Forall P l.
Proof.
  intros Hl. apply Forall_forall. intros x. rewrite <-Hl at 1.
  rewrite list_elem_of_filter. tauto.
Qed.

Lemma filter_nil_inv l : filter P l = [] → Forall (λ x, ¬ P x) l.
Proof.
  intros Hl. apply Forall_forall. intros x Hx HP.
  by eapply filter_nil_not_elem_of.
Qed.
End filter_extra.

Lemma zip_fmap_same {A B C} (f : A → B) (g : A → C) (l : list A) :
  zip (f <$> l) (g <$> l) = (λ x, (f x, g x)) <$> l.
Proof. by induction l; f_equal/=. Qed.

Lemma filter_fmap {A B} (f : A → B) (P : B → Prop) `{!∀ y, Decision (P y)}
    (l : list A) :
  filter P (f <$> l) = f <$> filter (P ∘ f) l.
Proof.
  induction l as [|x l IH]; [done|]. rewrite fmap_cons, !filter_cons. simpl.
  case_decide; by rewrite IH.
Qed.

(** ** De-duplication in first-occurrence order *)

Section unique.
Context `{EqDecision A}.
Implicit Types (x y : A) (l k : list A).

(** The distinct elements of [l], each at the place of its first
    occurrence (a hash table filled in one pass yields this order). *)
Fixpoint unique (l : list A) : list A :=
  match l with
  | [] => []
  | x :: l => x :: filter (.≠ x) (unique l)
  end.

(** [d] lists the elements of [l] in the order of their first occurrence:
    each once, and the elements before [x] in [d] are those that occur in
    [l] before the first [x]. *)
Definition first_seen (l d : list A) : Prop :=
  NoDup d ∧ (∀ x, x ∈ d ↔ x ∈ l)
  ∧ ∀ d1 x d2, d = d1 ++ x :: d2 →
      ∃ l1 l2, l = l1 ++ x :: l2 ∧ (x ∉ l1) ∧ ∀ y, y ∈ d1 ↔ y ∈ l1.

Lemma elem_of_unique x l : x ∈ unique l ↔ x ∈ l.
Proof.
  induction l as [|y l IH]; [done|]. simpl.
  rewrite !elem_of_cons, list_elem_of_filter, IH.
  destruct (decide (x = y)); naive_solver.
Qed.

Lemma NoDup_unique l : NoDup (unique l).
Proof.
  induction l as [|y l IH]; simpl; constructor.
  - rewrite list_elem_of_filter. naive_solver.
  - by apply NoDup_filter.
Qed.

Lemma unique_NoDup l : NoDup l → unique l = l.
Proof.
  induction 1 as [|x l Hx _ IH]; [done|]. simpl. rewrite IH. f_equal.
  apply filter_all, Forall_forall. set_solver.
Qed.

Lemma unique_idemp l : unique (unique l) = unique l.
Proof. apply unique_NoDup, NoDup_unique. Qed.

Lemma unique_sublist l : unique l `sublist_of` l.
Proof.
  induction l as [|y l IH]; [done|]. simpl. apply sublist_skip.
  etrans; [apply sublist_filter|done].
Qed.

Lemma unique_nil_inv l : unique l = [] → l = [].
Proof. by destruct l. Qed.

(** Filtering commutes with de-duplication. *)
Lemma unique_filter (P : A → Prop) `{!∀ y, Decision (P y)} l :
  unique (filter P l) = filter P (unique l).
Proof.
  induction l as [|y l IH]; [done|]. simpl.
  rewrite !filter_cons. destruct (decide (P y)) as [Hy|Hy]; simpl.
  - rewrite IH, !list_filter_filter. f_equal. apply list_filter_iff. tauto.
  - rewrite IH, list_filter_filter. apply list_filter_iff. naive_solver.
Qed.

Lemma unique_length_le l : length (unique l) ≤ length l.
Proof. apply sublist_length, unique_sublist. Qed.

(** De-duplication of a concatenation: the second part contributes what
    the first does not have. *)
Lemma unique_app l k : unique (l ++ k) = unique l ++ filter (.∉ l) (unique k).
Proof.
  induction l as [|x l IH]; simpl.
  - symmetry. apply filter_all, Forall_forall. intros x _. apply not_elem_of_nil.
  - rewrite IH, filter_app, list_filter_filter. do 2 f_equal.
    apply list_filter_iff. intros y. rewrite not_elem_of_cons. tauto.
Qed.

Lemma unique_split l1 x l2 :
  x ∉ l1 →
  unique (l1 ++ x :: l2) = unique l1 ++ x :: filter (.∉ (l1 ++ [x])) (unique l2).
Proof.
  intros Hx. rewrite unique_app. simpl. rewrite filter_cons_True by done.
  do 2 f_equal. rewrite list_filter_filter. apply list_filter_iff. intros y.
  rewrite not_elem_of_app, list_elem_of_singleton. tauto.
Qed.

(** [unique] keeps first occurrences in their order, and is the only
    function that does. *)
Lemma unique_first_seen l : first_seen l (unique l).
Proof.
  split_and!; [apply NoDup_unique|intros x; apply elem_of_unique|].
  intros d1 x d2 Hd.
  assert (x ∈ l) as (l1 & l2 & -> & Hx)%list_elem_of_split_l.
  { apply elem_of_unique. rewrite Hd. set_solver. }
  assert (x ∉ d1) as Hd1.
  { pose proof (NoDup_unique (l1 ++ x :: l2)) as Hnd.
    rewrite Hd in Hnd. apply NoDup_app in Hnd as (_ & Hnd & _).
    intros Hin. apply (Hnd x Hin). left. }
  exists l1, l2. split_and!; [done..|]. rewrite unique_split in Hd by done.
  apply not_elem_of_app_cons_inv_l in Hd as (<- & _);
    [intros y; apply elem_of_unique|done|by rewrite elem_of_unique].
Qed.

Lemma first_seen_snoc l d x :
  first_seen l (d ++ [x]) →
  ∃ l1 l2, l = l1 ++ x :: l2 ∧ (x ∉ l1) ∧ first_seen l1 d ∧ l2 ⊆ l1 ++ [x].
Proof.
  intros (Hnd & Hin & Hsp). destruct (Hsp d x [] eq_refl) as (l1 & l2 & -> & Hx & Hd).
  exists l1, l2. apply NoDup_app in Hnd as (Hnd & Hdx & _).
  split_and!; [done..| |].
  - split_and!; [done..|]. intros d1 y d2 ->.
    destruct (Hsp d1 y (d2 ++ [x])) as (m1 & m2 & Hm & Hy & Hd1).
    { by rewrite <-app_assoc. }
    assert (y ∈ l1) as (k1 & k2 & -> & Hk)%list_elem_of_split_l
      by (apply Hd; set_solver).
    rewrite <-app_assoc in Hm. simpl in Hm.
    apply not_elem_of_app_cons_inv_l in Hm as (-> & _); eauto.
  - intros y Hy. rewrite elem_of_app, <-Hd, <-elem_of_app. apply Hin.
    rewrite elem_of_app, elem_of_cons. auto.
Qed.

Lemma first_seen_unique l d : first_seen l d → d = unique l.
Proof.
  revert l. induction d as [|x d IH] using rev_ind; intros l Hd.
  - destruct Hd as (_ & Hin & _). destruct l as [|y l]; [done|].
    by destruct (not_elem_of_nil y); apply Hin; left.
  - apply first_seen_snoc in Hd as (l1 & l2 & -> & Hx & Hd & Hl2).
    rewrite unique_split, <-(IH _ Hd) by done. do 2 f_equal. symmetry.
    apply filter_none, Forall_forall. intros y Hy Hn.
    rewrite elem_of_unique in Hy. by apply Hn, Hl2.
Qed.
End unique.

#[export] Hint Resolve NoDup_unique unique_sublist : frame.
#[export] Hint Rewrite @elem_of_unique @unique_idemp : frame_rw.

(** ** Grouping by a key

    The groups of a list by the keys [ks], one after the other, are a
    rearrangement of the elements whose key is among [ks]; with the keys
    in first-occurrence order, of the whole list. *)

Section groups.
Context {A K : Type} `{EqDecision K} (key : A → K).
Implicit Types (l : list A) (ks : list K).

Lemma filter_key_cons_perm a ks l :
  a ∉ ks →
  filter (λ x, key x = a) l ++ filter (λ x, key x ∈ ks) l
  ≡ₚ filter (λ x, key x ∈ a :: ks) l.
Proof.
  intros Ha. induction l as [|x l IH]; [done|]. rewrite !filter_cons.
  destruct (decide (key x = a)) as [Hx|Hx].
  - rewrite decide_False, decide_True by set_solver. simpl. by rewrite IH.
  - destruct (decide (key x ∈ ks)).
    + rewrite decide_True by set_solver. by rewrite <-Permutation_middle, IH.
    + by rewrite decide_False by set_solver.
Qed.

Lemma groups_keys_perm ks l :
  NoDup ks →
  ks ≫= (λ k, filter (λ x, key x = k) l) ≡ₚ filter (λ x, key x ∈ ks) l.
Proof.
  induction 1 as [|a ks Ha _ IH].
  - symmetry. apply Permutation_nil_r, filter_none, Forall_forall. set_solver.
  - by rewrite bind_cons, IH, filter_key_cons_perm.
Qed.

Lemma groups_perm l :
  unique (key <$> l) ≫= (λ k, filter (λ x, key x = k) l) ≡ₚ l.
Proof.
  rewrite groups_keys_perm by apply NoDup_unique.
  apply reflexive_eq, filter_all, Forall_forall. intros x Hx.
  by apply elem_of_unique, list_elem_of_fmap_2.
Qed.
End groups.


(** ** Sorted lists *)

Lemma StronglySorted_impl {A} (R1 R2 : relation A) (l : list A) :
  (∀ x y, R1 x y → R2 x y) → StronglySorted R1 l → StronglySorted R2 l.
Proof.
  intros HR. induction 1 as [|x l _ IH Hx]; constructor; [done|].
  eapply Forall_impl; [done|]. eauto.
Qed.

Lemma StronglySorted_lt_NoDup (l : list nat) : StronglySorted lt l → NoDup l.
Proof.
  induction 1 as [|x l _ IH Hx]; constructor; [|done].
  intros Hin. rewrite Forall_forall in Hx. specialize (Hx x Hin). lia.
Qed.

Lemma StronglySorted_lt_seq (i n : nat) : StronglySorted lt (seq i n).
Proof.
  revert i. induction n as [|n IH]; intros i; simpl; constructor; [done|].
  apply Forall_forall. intros j ?%elem_of_seq. lia.
Qed.

Lemma StronglySorted_sublist {A} (R : relation A) (l k : list A) :
  l `sublist_of` k → StronglySorted R k → StronglySorted R l.
Proof.
  induction 1 as [|x l k Hlk IH|x l k Hlk IH]; intros Hk; [done|..].
  - apply StronglySorted_inv in Hk as [? Hx]. constructor; [auto|].
    eapply Forall_forall. intros y Hy. rewrite Forall_forall in Hx.
    apply Hx. by eapply elem_of_sublist.
  - apply StronglySorted_inv in Hk as [? _]. auto.
Qed.

(** Sorted without repetition is strictly sorted. *)
Lemma StronglySorted_strict {A} (R : relation A) `{!AntiSymm (=) R}
    (l : list A) :
  StronglySorted R l → NoDup l → StronglySorted (strict R) l.
Proof.
  induction 1 as [|x l _ IH Hx]; [constructor|].
  intros [Hnin ?]%NoDup_cons. constructor; [auto|].
  apply Forall_forall. intros y Hy. rewrite Forall_forall in Hx.
  split; [auto|]. intros Hyx. destruct Hnin.
  by rewrite (anti_symm R x y) by auto.
Qed.

(** ** A stable insertion sort *)

Section sort_by.
Context {A : Type} (le : A → A → bool).
Implicit Types (x y : A) (l : list A).

(** [x] goes before the first element it is below: an element that comes
    earlier in the input stays before its equals. *)
Fixpoint insert_by (x : A) (l : list A) : list A :=
  match l with
  | [] => [x]
  | y :: l' => if le x y then x :: y :: l' else y :: insert_by x l'
  end.

Definition sort_by (l : list A) : list A := foldr insert_by [] l.

Lemma insert_by_perm x l : insert_by x l ≡ₚ x :: l.
Proof.
  induction l as [|y l IH]; [done|]. simpl. destruct (le x y); [done|].
  by rewrite IH, Permutation_swap.
Qed.

Lemma sort_by_perm l : sort_by l ≡ₚ l.
Proof.
  induction l as [|x l IH]; [done|]. simpl.
  by rewrite insert_by_perm, IH.
Qed.

Lemma sort_by_length l : length (sort_by l) = length l.
Proof. by rewrite sort_by_perm. Qed.

Lemma elem_of_sort_by x l : x ∈ sort_by l ↔ x ∈ l.
Proof. by rewrite sort_by_perm. Qed.

Lemma NoDup_sort_by l : NoDup (sort_by l) ↔ NoDup l.
Proof. by rewrite sort_by_perm. Qed.

Lemma sort_by_fmap_perm {B} (f : A → B) l : f <$> sort_by l ≡ₚ f <$> l.
Proof. by rewrite sort_by_perm. Qed.

(** Stability: within a class [P] of mutually comparable elements the
    input order is kept. *)
Lemma filter_insert_by (P : A → Prop) `{!∀ x, Decision (P x)} x l :
  (∀ y, y ∈ l → P x → P y → le x y = true) →
  filter P (insert_by x l) = filter P (x :: l).
Proof.
  induction l as [|y l IH]; intros Hle; [done|]. simpl.
  destruct (le x y) eqn:Hxy; [done|].
  rewrite (filter_cons _ y), IH by set_solver.
  rewrite !filter_cons.
  destruct (decide (P y)), (decide (P x)); try done.
  rewrite Hle in Hxy by set_solver. done.
Qed.

Lemma filter_sort_by (P : A → Prop) `{!∀ x, Decision (P x)} l :
  (∀ x y, x ∈ l → y ∈ l → P x → P y → le x y = true) →
  filter P (sort_by l) = filter P l.
Proof.
  induction l as [|x l IH]; intros Hle; [done|]. simpl.
  rewrite filter_insert_by.
  - rewrite !filter_cons, IH by set_solver. done.
  - intros y. rewrite elem_of_sort_by. set_solver.
Qed.

(** A list that is already in order is left alone. *)
Lemma sort_by_sorted_id l : Sorted (λ x y, le x y) l → sort_by l = l.
Proof.
  induction 1 as [|x l _ IH Hhd]; [done|]. simpl. rewrite IH.
  destruct Hhd as [|y l Hxy]; [done|]. simpl.
  by apply Is_true_true in Hxy as ->.
Qed.

Section order.
Hypothesis le_total : ∀ x y, le x y = true ∨ le y x = true.
Hypothesis le_trans : ∀ x y z, le x y = true → le y z = true → le x z = true.

Lemma insert_by_sorted x l :
  StronglySorted (λ x y, le x y) l →
  StronglySorted (λ x y, le x y) (insert_by x l).
Proof.
  induction 1 as [|y l Hl IH Hy]; simpl; [by repeat constructor|].
  destruct (le x y) eqn:Hxy.
  - constructor; [by constructor|]. constructor; [by rewrite Hxy|].
    eapply Forall_impl; [done|]. intros z Hz. apply Is_true_true.
    apply Is_true_true in Hz. eauto.
  - constructor; [done|]. rewrite insert_by_perm. constructor; [|done].
    destruct (le_total x y); [congruence|]. by apply Is_true_true.
Qed.

Lemma sort_by_sorted l : StronglySorted (λ x y, le x y) (sort_by l).
Proof.
  induction l; simpl; [constructor|]. by apply insert_by_sorted.
Qed.

Lemma sort_by_idemp l : sort_by (sort_by l) = sort_by l.
Proof. apply sort_by_sorted_id, StronglySorted_Sorted, sort_by_sorted. Qed.
End order.
End sort_by.

#[export] Hint Rewrite @sort_by_length @elem_of_sort_by : frame_rw.
#[export] Hint Resolve sort_by_perm insert_by_perm : frame.

(** ** The order of strings

    Python compares strings by code point; on UTF-8 bytes that is the
    lexicographic order of [String.compare]. *)

Definition string_le (s1 s2 : string) : Prop := String.leb s1 s2.

Lemma string_compare_trans c s1 s2 s3 :
  String.compare s1 s2 = c → String.compare s2 s3 = c → String.compare s1 s3 = c.
Proof.
  revert s2 s3. induction s1 as [|a s1 IH]; intros [|b s2] [|d s3]; simpl;
    try congruence.
  unfold Ascii.compare.
  destruct (N.compare_spec (Ascii.N_of_ascii a) (Ascii.N_of_ascii b)),
    (N.compare_spec (Ascii.N_of_ascii b) (Ascii.N_of_ascii d)),
    (N.compare_spec (Ascii.N_of_ascii a) (Ascii.N_of_ascii d));
    try congruence; try lia; eauto.
Qed.

Lemma string_leb_trans s1 s2 s3 :
  String.leb s1 s2 = true → String.leb s2 s3 = true → String.leb s1 s3 = true.
Proof.
  unfold String.leb. intros H12 H23.
  destruct (String.compare s1 s2) eqn:E12; try done.
  - apply String.compare_eq_iff in E12 as ->. done.
  - destruct (String.compare s2 s3) eqn:E23; try done.
    + apply String.compare_eq_iff in E23 as <-. by rewrite E12.
    + by rewrite (string_compare_trans Lt s1 s2 s3).
Qed.

Lemma string_leb_refl s : String.leb s s = true.
Proof. by destruct (String.leb_total s s). Qed.

#[export] Instance string_le_dec : RelDecision string_le.
Proof. intros s1 s2. unfold string_le. apply _. Defined.
#[export] Instance string_le_po : PartialOrder string_le.
Proof.
  split; [split|].
  - intros s. apply Is_true_true, string_leb_refl.
  - intros s1 s2 s3 ?%Is_true_true ?%Is_true_true.
    by eapply Is_true_true, string_leb_trans.
  - intros s1 s2 ?%Is_true_true ?%Is_true_true. by apply String.leb_antisym.
Qed.
#[export] Instance string_le_total : Total string_le.
Proof.
  intros s1 s2. unfold string_le.
  destruct (String.leb_total s1 s2) as [->| ->]; auto.
Qed.

#[export] Hint Resolve string_leb_trans String.leb_total string_leb_refl : frame.

(** ** Sums of rationals *)

Section Qsum.
Local Open Scope Q_scope.
Implicit Types (q a b : Q) (l k : list Q).

Definition Qsum (l : list Q) : Q := foldr Qplus 0 l.

(** The number of cells of a column, as a rational. *)
Definition Qlen {A} (l : list A) : Q := inject_Z (Z.of_nat (length l)).

Lemma Qsum_cons q l : Qsum (q :: l) = q + Qsum l.
Proof. done. Qed.

Lemma Qsum_app l k : Qsum (l ++ k) == Qsum l + Qsum k.
Proof. induction l as [|q l IH]; simpl; [|rewrite IH]; ring. Qed.

Lemma Qlen_nil {A} : Qlen (@nil A) = 0.
Proof. done. Qed.

Lemma Qlen_cons {A} (x : A) (l : list A) : Qlen (x :: l) == 1 + Qlen l.
Proof.
  unfold Qlen. simpl length. rewrite Nat2Z.inj_succ, <-Z.add_1_l.
  by rewrite inject_Z_plus.
Qed.

Lemma Qlen_nonneg {A} (l : list A) : 0 <= Qlen l.
Proof. unfold Qlen. rewrite <-(Zle_Qle 0). lia. Qed.

Lemma Qlen_pos {A} (l : list A) : l ≠ [] → 0 < Qlen l.
Proof.
  intros Hl. unfold Qlen. rewrite <-(Zlt_Qlt 0). destruct l; simpl; [done|lia].
Qed.

Lemma Qlen_app {A} (l k : list A) : Qlen (l ++ k) == Qlen l + Qlen k.
Proof.
  unfold Qlen. by rewrite length_app, Nat2Z.inj_add, inject_Z_plus.
Qed.

#[export] Instance Qsum_perm : Proper ((≡ₚ) ==> Qeq) Qsum.
Proof.
  induction 1 as [|q l k _ IH|a b l|l1 l2 l3 _ IH1 _ IH2]; simpl.
  - reflexivity.
  - by rewrite IH.
  - ring.
  - by rewrite IH1.
Qed.

#[export] Instance Qsum_proper : Proper ((≡) ==> (≡)) Qsum.
Proof.
  induction 1 as [|a b l k Hab _ IH]; simpl; [done|].
  unfold equiv, Q_equiv in *. by rewrite Hab, IH.
Qed.

Lemma Qsum_lower a l : Forall (Qle a) l → Qlen l * a <= Qsum l.
Proof.
  induction 1 as [|q l Hq _ IH]; [rewrite (@Qlen_nil Q); simpl; lra|].
  rewrite Qlen_cons, Qsum_cons. lra.
Qed.

Lemma Qsum_upper b l : Forall (λ q, q <= b) l → Qsum l <= Qlen l * b.
Proof.
  induction 1 as [|q l Hq _ IH]; [rewrite (@Qlen_nil Q); simpl; lra|].
  rewrite Qlen_cons, Qsum_cons. lra.
Qed.

(** Splitting a sum along a predicate on the summed items. *)
Lemma Qsum_fmap_filter {A} (f : A → Q) (P : A → Prop)
    `{!∀ x, Decision (P x)} (l : list A) :
  Qsum (f <$> l)
  == Qsum (f <$> filter P l) + Qsum (f <$> filter (λ x, ¬ P x) l).
Proof.
  induction l as [|x l IH]; [done|]. rewrite !filter_cons.
  repeat case_decide; try tauto; rewrite !fmap_cons, !Qsum_cons, IH; ring.
Qed.
(** Sums of pointwise equal terms. *)
Lemma Qsum_fmap_ext {A} (g h : A → Q) (l : list A) :
  (∀ x, x ∈ l → g x == h x) → Qsum (g <$> l) == Qsum (h <$> l).
Proof.
  induction l as [|x l IH]; intros H; [done|]. rewrite !fmap_cons, !Qsum_cons.
  rewrite (H x), IH; [done| |by left]. intros y ?. apply H. by right.
Qed.

(** A sum split by key: the sums of the groups of distinct keys add up to
    the sum over the elements whose key is one of them. *)
Lemma Qsum_partition {A K} `{EqDecision K} (f : A → Q) (key : A → option K)
    (ks : list K) (l : list A) :
  NoDup ks →
  Qsum ((λ a : K, Qsum (f <$> filter (λ x, key x = Some a) l)) <$> ks)
  == Qsum (f <$> filter (λ x, key x ∈ Some <$> ks) l).
Proof.
  induction 1 as [|a ks Ha _ IH].
  { rewrite filter_none; [done|]. apply Forall_forall. intros x _.
    apply not_elem_of_nil. }
  rewrite (fmap_cons (λ a : K, Qsum (f <$> filter (λ x, key x = Some a) l))).
  rewrite Qsum_cons, IH, (Qsum_fmap_filter f (λ x, key x = Some a)
                            (filter (λ x, key x ∈ Some <$> a :: ks) l)).
  rewrite !list_filter_filter. f_equiv; f_equiv; f_equiv.
  - apply list_filter_iff. intros x. rewrite fmap_cons. set_solver.
  - apply list_filter_iff. intros x. rewrite fmap_cons, elem_of_cons.
    split; [|by intros [? [?|?]]]. intros Hx. split; [|by right].
    intros Hax. rewrite Hax in Hx. apply Ha.
    by apply (list_elem_of_fmap_inj_2 Some).
Qed.
End Qsum.

#[export] Hint Rewrite Qsum_app @Qlen_cons @Qlen_app : frame_rw.
#[export] Hint Resolve @Qlen_nonneg @Qlen_pos : frame.


(** ** Counting over the distinct elements *)

Section count_unique.
Context `{EqDecision A}.
Implicit Types (x y : A) (l k ks : list A).

Lemma sum_list_with_fmap {B} (f : B → nat) (g : A → B) l :
  sum_list_with f (g <$> l) = sum_list_with (f ∘ g) l.
Proof. induction l; simpl; [done|]. by f_equal. Qed.

Lemma sum_list_fmap (f : A → nat) l : sum_list (f <$> l) = sum_list_with f l.
Proof. induction l; simpl; [done|]. by f_equal. Qed.

Lemma length_filter_or (P Q : A → Prop)
    `{!∀ x, Decision (P x), !∀ x, Decision (Q x)} l :
  (∀ x, P x → Q x → False) →
  length (filter (λ x, P x ∨ Q x) l) = length (filter P l) + length (filter Q l).
Proof.
  intros HPQ. induction l as [|x l IH]; [done|]. rewrite !filter_cons.
  pose proof (HPQ x). repeat case_decide; simpl; try tauto; lia.
Qed.

(** The occurrences of pairwise distinct keys add up to the number of
    elements that are one of the keys. *)
Lemma sum_count_NoDup ks l :
  NoDup ks → sum_list_with (λ x, count x l) ks = length (filter (.∈ ks) l).
Proof.
  induction 1 as [|x ks Hx _ IH]; simpl.
  - symmetry. apply length_zero_iff_nil, filter_none, Forall_forall. set_solver.
  - rewrite IH. unfold count. rewrite <-length_filter_or by set_solver.
    f_equal. apply list_filter_iff. set_solver.
Qed.

(** Every element is counted once under its own value. *)
Lemma sum_count_unique l : sum_list_with (λ x, count x l) (unique l) = length l.
Proof.
  rewrite sum_count_NoDup by apply NoDup_unique. f_equal.
  apply filter_all, Forall_forall. intros x. by rewrite elem_of_unique.
Qed.

#[export] Instance unique_perm : Proper ((≡ₚ) ==> (≡ₚ)) (unique (A:=A)).
Proof.
  intros l k Hlk. apply NoDup_Permutation; [apply NoDup_unique..|].
  intros x. by rewrite !elem_of_unique, Hlk.
Qed.
End count_unique.


(** ** Results: a value or an exception *)

Inductive result (E A : Type) : Type :=
| Ok (a : A)
| Err (e : E).
Arguments Ok {E A} a.
Arguments Err {E A} e.

#[export] Instance result_ret {E} : MRet (result E) := λ A, Ok.
#[export] Instance result_bind {E} : MBind (result E) := λ A B f m,
  match m with
  | Ok a => f a
  | Err e => Err e
  end.
#[export] Instance result_fmap {E} : FMap (result E) := λ A B f m,
  match m with
  | Ok a => Ok (f a)
  | Err e => Err e
  end.
#[export] Instance result_eq_dec `{EqDecision E, EqDecision A} :
  EqDecision (result E A).
Proof. solve_decision. Defined.

Definition is_Ok {E A} (m : result E A) : Prop := ∃ a, m = Ok a.

(** The value of a result, or a default. *)
Definition from_Ok {E A} (d : A) (m : result E A) : A :=
  match m with
  | Ok a => a
  | Err _ => d
  end.

Section result.
Context {E A B : Type}.
Implicit Types (m : result E A) (f : A → result E B) (a : A) (b : B) (e : E).

Lemma result_bind_Ok f a : Ok a ≫= f = f a.
Proof. done. Qed.

Lemma result_bind_Err f e : Err e ≫= f = Err e.
Proof. done. Qed.

Lemma result_bind_Ok_inv m f b :
  m ≫= f = Ok b ↔ ∃ a, m = Ok a ∧ f a = Ok b.
Proof. destruct m; simpl; naive_solver. Qed.

Lemma result_bind_Err_inv m f e :
  m ≫= f = Err e ↔ m = Err e ∨ ∃ a, m = Ok a ∧ f a = Err e.
Proof. destruct m; simpl; naive_solver. Qed.

Lemma result_fmap_Ok_inv (g : A → B) m b :
  g <$> m = Ok b ↔ ∃ a, m = Ok a ∧ b = g a.
Proof. destruct m; simpl; naive_solver. Qed.

Lemma is_Ok_alt m : is_Ok m ↔ ∀ e, m ≠ Err e.
Proof. unfold is_Ok. destruct m; naive_solver. Qed.

#[export] Instance is_Ok_dec m : Decision (is_Ok m).
Proof.
  refine (match m with Ok a => left _ | Err e => right _ end);
    unfold is_Ok; naive_solver.
Defined.
End result.

#[export] Hint Rewrite @result_bind_Ok @result_bind_Err : frame_rw.

(** Inversion of a successful or failed sequence of binds in a hypothesis. *)
Ltac result_inv :=
  repeat match goal with
  | H : _ ≫= _ = Ok _ |- _ => apply result_bind_Ok_inv in H as (? & ? & H)
  | H : _ <$> _ = Ok _ |- _ => apply result_fmap_Ok_inv in H as (? & ? & ?)
  | H : mret _ = Ok _ |- _ => injection H as H
  | H : Ok _ = Ok _ |- _ => injection H as H
  | H : Err _ = Ok _ |- _ => discriminate H
  | H : Ok _ = Err _ |- _ => discriminate H
  end; simplify_eq.


(** ** Lists read as sets *)

(** The same elements, whatever the order and the repetitions. *)
Definition same_set {A} (l k : list A) : Prop := ∀ x, x ∈ l ↔ x ∈ k.

Infix "≡ₛ" := same_set (at level 70) : stdpp_scope.

#[export] Instance same_set_equivalence {A} : Equivalence (@same_set A).
Proof. unfold same_set. split; [done|by intros ?? H x; symmetry|].
  intros l1 l2 l3 H1 H2 x. by rewrite H1. Qed.

#[export] Instance perm_same_set {A} : subrelation (≡ₚ@{A}) same_set.
Proof. intros l k Hlk x. by rewrite Hlk. Qed.

#[export] Instance elem_of_same_set {A} (x : A) :
  Proper (same_set ==> iff) (x ∈.).
Proof. intros l k Hlk. apply Hlk. Qed.

Lemma unique_same_set `{EqDecision A} (l : list A) : unique l ≡ₛ l.
Proof. intros x. apply elem_of_unique. Qed.

(** IEEE comparison does not see the representation of a rational. *)
#[export] Instance fle_proper : Proper ((≡) ==> (≡) ==> (=)) fle.
Proof.
  intros x1 x2 Hx y1 y2 Hy. destruct Hx as [a1 a2 Ha|], Hy as [b1 b2 Hb|];
    simpl; try done. by apply Qleb_comp.
Qed.
