(* ===== verification/Series.v ===== *)
(** * Series: the column operations of pandas that [src/main.py] calls

    A column of the table is a list of cells, one per row, in row order.  A
    cell of a text column is an [option string] and a cell of a numeric
    column an [option Q]; [None] is the missing value (NaN).  Each operation
    below is the pandas method of the same name with the arguments the
    script passes (all other arguments at their defaults):

    - [dropna], [unique], [isin], [eq_scalar] (the [==] of a column and a
      scalar), [between], [mask_and] (the [&] of two boolean columns),
      [getitem_mask] (indexing with a boolean column);
    - [series_min], [series_max], [mean] (missing cells are skipped, an
      empty selection gives NaN), [round2] (rounding to two decimals);
    - [value_counts] (missing cells dropped, most frequent first, ties in
      first-seen order) and [groupby_mean] (keys sorted, missing keys
      dropped). *)

From S2P Require Import Prelude.

(** ** Cells and masks *)

Section cells.
Context `{EqDecision A}.
Implicit Types (s : list (option A)) (c : option A) (v : A).

(** [Series.dropna()]: the present cells, in order. *)
Definition dropna (s : list (option A)) : list A := omap id s.

(** Membership of one cell in [values]; a missing cell is in no list. *)
Definition cell_isin (values : list A) (c : option A) : bool :=
  match c with
  | Some v => bool_decide (v ∈ values)
  | None => false
  end.

(** [Series.isin(values)]. *)
Definition isin (s : list (option A)) (values : list A) : list bool :=
  cell_isin values <$> s.

(** Equality of one cell with a scalar; a missing cell equals nothing. *)
Definition cell_eq (v : A) (c : option A) : bool := bool_decide (c = Some v).

(** [series == v]. *)
Definition eq_scalar (s : list (option A)) (v : A) : list bool :=
  cell_eq v <$> s.
End cells.

(** [mask1 & mask2], cell by cell. *)
Definition mask_and (m1 m2 : list bool) : list bool := zip_with andb m1 m2.

(** [frame[mask]]: the rows whose mask cell is [True], in order. *)
Definition getitem_mask {R} (rows : list R) (mask : list bool) : list R :=
  fst <$> filter (λ p, snd p = true) (zip rows mask).

(** One cell of [Series.between(left, right)]: [left <= c] and [c <= right],
    both inclusive, both false on NaN. *)
Definition cell_between (left right : float) (c : float) : bool :=
  fle left c && fle c right.

(** [Series.between(left, right)]. *)
Definition between (s : list float) (left right : float) : list bool :=
  cell_between left right <$> s.

(** ** Reductions of a numeric column *)

Definition Qmin_list (l : list Q) : float :=
  match l with
  | [] => None
  | q :: l => Some (foldr Qmin q l)
  end.

Definition Qmax_list (l : list Q) : float :=
  match l with
  | [] => None
  | q :: l => Some (foldr Qmax q l)
  end.

(** [Series.min()] and [Series.max()]: over the present cells, NaN if none. *)
Definition series_min (s : list float) : float := Qmin_list (dropna s).
Definition series_max (s : list float) : float := Qmax_list (dropna s).

(** The mean of a non-empty list of rationals. *)
Definition Qmean (l : list Q) : Q := (Qsum l / Qlen l)%Q.

(** [Series.mean()]: the mean of the present cells, NaN if there is none. *)
Definition mean (s : list float) : float :=
  match dropna s with
  | [] => None
  | l => Some (Qmean l)
  end.

(** Rounding to the nearest integer, halves to the even neighbour. *)
Definition rint (q : Q) : Z :=
  let f := Qfloor q in
  match (q - inject_Z f ?= 1 # 2)%Q with
  | Lt => f
  | Gt => (f + 1)%Z
  | Eq => if Z.even f then f else (f + 1)%Z
  end.

(** [round(x, 2)] on a float: scale by 100, round, scale back; NaN stays. *)
Definition round2 (x : float) : float :=
  (λ q, (rint (q * 100) # 100)%Q) <$> x.

(** ** Counting and grouping *)

Section counting.
Context `{EqDecision A}.

(** Descending order of the counts, for [value_counts]. *)
Definition count_ge (p q : A * nat) : bool := snd q <=? snd p.

(** The counts of the present values, in first-seen order. *)
Definition counts_first_seen (s : list (option A)) : list (A * nat) :=
  (λ k, (k, count k (dropna s))) <$> unique (dropna s).

(** [Series.value_counts()]: the counts of the present values, largest
    first.  The sort is stable, so values with equal counts stay in
    first-seen order; this is what pandas does in practice, while its
    documentation leaves the order of equal counts open. *)
Definition value_counts (s : list (option A)) : list (A * nat) :=
  sort_by count_ge (counts_first_seen s).

(** The values of the group of key [k]. *)
Definition group_values {B} (k : A) (kv : list (option A * B)) : list B :=
  snd <$> filter (λ p, fst p = Some k) kv.

(** [frame.groupby(key)[value].mean()] on the pairs (key cell, value
    cell) of the rows: one entry per present key, keys in the order [le]. *)
Definition groupby_mean (le : A → A → bool) (kv : list (option A * float))
    : list (A * float) :=
  (λ k, (k, mean (group_values k kv))) <$>
    sort_by le (unique (dropna (fst <$> kv))).
End counting.

(** ** Lemmas: cells and masks *)

Section cells_lemmas.
Context `{EqDecision A}.
Implicit Types (s : list (option A)) (c : option A) (v : A) (vs : list A).

Lemma elem_of_dropna v s : v ∈ dropna s ↔ Some v ∈ s.
Proof. unfold dropna. rewrite list_elem_of_omap. naive_solver. Qed.

Lemma dropna_cons c s :
  dropna (c :: s) = match c with Some v => v :: dropna s | None => dropna s end.
Proof. by destruct c. Qed.

Lemma dropna_app s1 s2 : dropna (s1 ++ s2) = dropna s1 ++ dropna s2.
Proof. apply omap_app. Qed.

Lemma dropna_Some (l : list A) : dropna (Some <$> l) = l.
Proof. induction l; [done|]. rewrite fmap_cons, dropna_cons. by f_equal. Qed.

Lemma dropna_length_le s : length (dropna s) ≤ length s.
Proof. induction s as [|[v|] s IH]; rewrite ?dropna_cons; simpl; lia. Qed.

(** A column without missing cells loses nothing. *)
Lemma dropna_present s : Forall is_Some s → Some <$> dropna s = s.
Proof.
  induction 1 as [|c s [v ->] _ IH]; [done|].
  rewrite dropna_cons, fmap_cons. by f_equal.
Qed.

Lemma dropna_nil_inv s : dropna s = [] ↔ Forall (.= None) s.
Proof.
  induction s as [|[v|] s IH]; rewrite ?dropna_cons, ?Forall_cons;
    [by rewrite Forall_nil|naive_solver|naive_solver].
Qed.

Lemma cell_isin_true vs c : cell_isin vs c = true ↔ ∃ v, c = Some v ∧ v ∈ vs.
Proof.
  destruct c as [v|]; simpl; [|naive_solver].
  rewrite bool_decide_eq_true. naive_solver.
Qed.

Lemma cell_isin_nil c : cell_isin [] c = false.
Proof. destruct c; [|done]. apply bool_decide_eq_false. set_solver. Qed.

Lemma cell_isin_mono vs vs' c :
  vs ⊆ vs' → cell_isin vs c = true → cell_isin vs' c = true.
Proof. rewrite !cell_isin_true. set_solver. Qed.

Lemma cell_eq_true v c : cell_eq v c = true ↔ c = Some v.
Proof. apply bool_decide_eq_true. Qed.

Lemma isin_length s vs : length (isin s vs) = length s.
Proof. apply length_fmap. Qed.

Lemma eq_scalar_length s v : length (eq_scalar s v) = length s.
Proof. apply length_fmap. Qed.
End cells_lemmas.

Lemma cell_between_true left right c :
  cell_between left right c = true ↔
  ∃ a b q, left = Some a ∧ right = Some b ∧ c = Some q ∧ (a <= q <= b)%Q.
Proof.
  unfold cell_between. rewrite andb_true_iff, !fle_true. naive_solver.
Qed.

Lemma cell_between_NaN left right : cell_between left right None = false.
Proof. by destruct left. Qed.

(** An inverted range selects nothing. *)
Lemma cell_between_inverted (a b : Q) c :
  (b < a)%Q → cell_between (Some a) (Some b) c = false.
Proof.
  intros Hba. apply not_true_is_false. rewrite cell_between_true.
  intros (a' & b' & q & ? & ? & ? & ? & ?); simplify_eq. lra.
Qed.

Lemma between_length s left right : length (between s left right) = length s.
Proof. apply length_fmap. Qed.

Section mask_lemmas.
Context {R : Type}.
Implicit Types (rows : list R) (m : list bool) (f g : R → bool).

Lemma mask_and_fmap f g rows :
  mask_and (f <$> rows) (g <$> rows) = (λ r, f r && g r) <$> rows.
Proof. unfold mask_and. induction rows; simpl; [done|]. by f_equal. Qed.

Lemma mask_and_length m1 m2 :
  length (mask_and m1 m2) = length m1 `min` length m2.
Proof. apply length_zip_with. Qed.

(** Indexing with a mask computed row by row is a filter of the rows. *)
Lemma getitem_mask_fmap f rows :
  getitem_mask rows (f <$> rows) = filter (λ r, f r = true) rows.
Proof.
  unfold getitem_mask. induction rows as [|r rows IH]; [done|].
  rewrite fmap_cons. simpl zip. rewrite !filter_cons. simpl.
  destruct (f r); simpl; repeat case_decide; try done; simpl; by f_equal.
Qed.

Lemma getitem_mask_nil m : getitem_mask (@nil R) m = [].
Proof. done. Qed.

Lemma getitem_mask_sublist rows m : getitem_mask rows m `sublist_of` rows.
Proof.
  unfold getitem_mask. revert m.
  induction rows as [|r rows IH]; intros [|b m]; simpl; try done.
  - apply sublist_nil_l.
  - rewrite filter_cons. simpl. destruct b; case_decide; try done; simpl.
    + by apply sublist_skip.
    + by apply sublist_cons.
Qed.

Lemma getitem_mask_length rows m : length (getitem_mask rows m) ≤ length rows.
Proof. apply sublist_length, getitem_mask_sublist. Qed.
End mask_lemmas.

#[export] Hint Rewrite @isin_length @eq_scalar_length between_length
  @getitem_mask_fmap @mask_and_fmap @dropna_Some : frame_rw.
#[export] Hint Resolve @getitem_mask_sublist : frame.


(** ** Lemmas: minimum, maximum and mean *)

Section reductions.
Local Open Scope Q_scope.
Implicit Types (l : list Q) (s : list float) (q a b m : Q).

Lemma Qmin_list_lower l m : Qmin_list l = Some m → Forall (Qle m) l.
Proof.
  destruct l as [|q l]; intros [= <-]. induction l as [|a l IH]; simpl.
  - repeat constructor. lra.
  - inversion_clear IH as [|? ? Hq Hl]. repeat constructor.
    + etrans; [apply Q.le_min_r|done].
    + apply Q.le_min_l.
    + eapply Forall_impl; [done|]. intros x Hx.
      etrans; [apply Q.le_min_r|done].
Qed.

Lemma Qmax_list_upper l m : Qmax_list l = Some m → Forall (λ q, q <= m) l.
Proof.
  destruct l as [|q l]; intros [= <-]. induction l as [|a l IH]; simpl.
  - repeat constructor. lra.
  - inversion_clear IH as [|? ? Hq Hl]. repeat constructor.
    + etrans; [done|apply Q.le_max_r].
    + apply Q.le_max_l.
    + eapply Forall_impl; [done|]. intros x Hx. simpl in *.
      etrans; [exact Hx|apply Q.le_max_r].
Qed.

Lemma Qmin_list_elem l m : Qmin_list l = Some m → m ∈ l.
Proof.
  destruct l as [|q l]; intros [= <-]. induction l as [|a l IH]; simpl.
  - apply list_elem_of_here.
  - revert IH. unfold Qmin at 2, GenericMinMax.gmin.
    rewrite !elem_of_cons. destruct (a ?= foldr Qmin q l); tauto.
Qed.

Lemma Qmax_list_elem l m : Qmax_list l = Some m → m ∈ l.
Proof.
  destruct l as [|q l]; intros [= <-]. induction l as [|a l IH]; simpl.
  - apply list_elem_of_here.
  - revert IH. unfold Qmax at 2, GenericMinMax.gmax.
    rewrite !elem_of_cons. destruct (a ?= foldr Qmax q l); tauto.
Qed.

Lemma Qmin_list_None l : Qmin_list l = None ↔ l = [].
Proof. by destruct l. Qed.

Lemma Qmax_list_None l : Qmax_list l = None ↔ l = [].
Proof. by destruct l. Qed.

Lemma Qmean_lower a l : l ≠ [] → Forall (Qle a) l → a <= Qmean l.
Proof.
  intros Hl Ha. apply Qle_shift_div_l; [by apply Qlen_pos|].
  rewrite Qmult_comm. by apply Qsum_lower.
Qed.

Lemma Qmean_upper b l : l ≠ [] → Forall (λ q, q <= b) l → Qmean l <= b.
Proof.
  intros Hl Hb. apply Qle_shift_div_r; [by apply Qlen_pos|].
  rewrite Qmult_comm. by apply Qsum_upper.
Qed.

(** The mean times the length is the sum (also for the empty list, where
    the quotient by zero is zero). *)
Lemma Qmean_total l : Qlen l * Qmean l == Qsum l.
Proof.
  unfold Qmean. destruct l as [|q l]; [done|].
  field. apply Qnot_eq_sym, Qlt_not_eq. by apply Qlen_pos.
Qed.

Lemma Qmean_perm : Proper ((≡ₚ) ==> Qeq) Qmean.
Proof. intros l k Hlk. unfold Qmean, Qlen. by rewrite Hlk. Qed.

(** The mean is NaN exactly when no cell is present. *)
Lemma mean_None s : mean s = None ↔ dropna s = [].
Proof. unfold mean. by destruct (dropna s). Qed.

Lemma mean_Some s m :
  mean s = Some m ↔ dropna s ≠ [] ∧ m = Qmean (dropna s).
Proof. unfold mean. destruct (dropna s); naive_solver. Qed.

Lemma mean_is_Some s : is_Some (mean s) ↔ ∃ q, Some q ∈ s.
Proof.
  rewrite <-not_eq_None_Some, mean_None. split.
  - destruct (dropna s) as [|q l] eqn:E; [done|]. intros _. exists q.
    apply elem_of_dropna. rewrite E. set_solver.
  - intros [q Hq%elem_of_dropna] E. rewrite E in Hq. set_solver.
Qed.

Lemma series_min_None s : series_min s = None ↔ dropna s = [].
Proof. apply Qmin_list_None. Qed.

Lemma series_max_None s : series_max s = None ↔ dropna s = [].
Proof. apply Qmax_list_None. Qed.

Lemma series_min_lower s a q : series_min s = Some a → Some q ∈ s → a <= q.
Proof.
  intros Ha%Qmin_list_lower Hq%elem_of_dropna.
  by eapply Forall_forall in Ha.
Qed.

Lemma series_max_upper s b q : series_max s = Some b → Some q ∈ s → q <= b.
Proof.
  intros Hb%Qmax_list_upper Hq%elem_of_dropna.
  by eapply Forall_forall in Hb.
Qed.

Lemma series_min_elem s a : series_min s = Some a → Some a ∈ s.
Proof. intros Ha%Qmin_list_elem. by apply elem_of_dropna. Qed.

Lemma series_max_elem s b : series_max s = Some b → Some b ∈ s.
Proof. intros Hb%Qmax_list_elem. by apply elem_of_dropna. Qed.

Lemma series_min_le_max s a b :
  series_min s = Some a → series_max s = Some b → a <= b.
Proof. intros Ha Hb%series_max_elem. by eapply series_min_lower. Qed.

(** The mean lies between any two bounds of the present cells. *)
Lemma mean_between s a b m :
  (∀ q, Some q ∈ s → a <= q <= b) → mean s = Some m → a <= m <= b.
Proof.
  intros Hs [Hne ->]%mean_Some. split.
  - apply Qmean_lower; [done|]. apply Forall_forall.
    intros q ?%elem_of_dropna. by apply Hs.
  - apply Qmean_upper; [done|]. apply Forall_forall.
    intros q ?%elem_of_dropna. by apply Hs.
Qed.
End reductions.

(** ** Lemmas: rounding *)

Section rounding.
Local Open Scope Q_scope.
Implicit Types (q r : Q) (z : Z) (x : float).

#[export] Instance rint_proper : Proper (Qeq ==> eq) rint.
Proof.
  intros q r Hqr. unfold rint. rewrite (Qfloor_comp _ _ Hqr).
  by assert ((q - inject_Z (Qfloor r) ?= 1 # 2)
    = (r - inject_Z (Qfloor r) ?= 1 # 2)) as -> by (by rewrite Hqr).
Qed.

(** [rint] is within one half of its argument. *)
Lemma rint_bounds q :
  inject_Z (rint q) - (1 # 2) <= q <= inject_Z (rint q) + (1 # 2).
Proof.
  unfold rint. pose proof (Qfloor_le q). pose proof (Qlt_floor q) as Hlt.
  rewrite inject_Z_plus in Hlt. change (inject_Z 1) with 1 in Hlt.
  destruct (Qcompare_spec (q - inject_Z (Qfloor q)) (1 # 2));
    [destruct (Z.even _)|..]; rewrite ?inject_Z_plus;
    change (inject_Z 1) with 1; lra.
Qed.

(** Integers are fixed points. *)
Lemma rint_inject_Z z : rint (inject_Z z) = z.
Proof.
  unfold rint. rewrite Qfloor_Z.
  destruct (Qcompare_spec (inject_Z z - inject_Z z) (1 # 2)); lra || done.
Qed.

Lemma rint_mono q r : q <= r → (rint q ≤ rint r)%Z.
Proof.
  intros Hqr. destruct (Qlt_le_dec (inject_Z (rint r)) (inject_Z (rint q)))
    as [Hlt|Hle]; [|by rewrite Zle_Qle].
  rewrite <-Zlt_Qlt in Hlt. assert (rint r + 1 ≤ rint q)%Z as Hz by lia.
  rewrite Zle_Qle, inject_Z_plus in Hz. change (inject_Z 1) with 1 in Hz.
  pose proof (rint_bounds q) as Hq. pose proof (rint_bounds r) as Hr.
  assert (q == r) as Heq by lra. rewrite Heq in Hlt. lia.
Qed.

(** A value halfway between two integers goes to the even one. *)
Lemma rint_tie q :
  q == inject_Z (rint q) - (1 # 2) ∨ q == inject_Z (rint q) + (1 # 2) →
  Z.even (rint q) = true.
Proof.
  unfold rint. pose proof (Qfloor_le q). pose proof (Qlt_floor q) as Hlt.
  rewrite inject_Z_plus in Hlt. change (inject_Z 1) with 1 in Hlt.
  destruct (Qcompare_spec (q - inject_Z (Qfloor q)) (1 # 2));
    [destruct (Z.even _) eqn:Hev|..]; rewrite ?inject_Z_plus;
    change (inject_Z 1) with 1; try (intros [?|?]; lra).
  - done.
  - intros _. by rewrite Z.even_add, Hev.
Qed.

(** Two integers within one half of [q], the first below the second, are
    neighbours and [q] is halfway between them. *)
Lemma halfway_neighbours q z z' :
  inject_Z z - (1 # 2) <= q <= inject_Z z + (1 # 2) →
  inject_Z z' - (1 # 2) <= q <= inject_Z z' + (1 # 2) →
  (z < z')%Z →
  z' = (z + 1)%Z ∧ q == inject_Z z + (1 # 2) ∧ q == inject_Z z' - (1 # 2).
Proof.
  intros Hz Hz' Hlt. assert (z + 1 ≤ z')%Z as Hle by lia.
  rewrite Zle_Qle, inject_Z_plus in Hle. change (inject_Z 1) with 1 in Hle.
  assert (z' = z + 1)%Z as ->; [|rewrite inject_Z_plus in *; split_and!; lra || done].
  apply Z.le_antisymm; [|lia]. rewrite Zle_Qle, inject_Z_plus.
  change (inject_Z 1) with 1. lra.
Qed.

(** Nearness and evenness at a tie determine the rounded integer. *)
Lemma rint_unique q z :
  inject_Z z - (1 # 2) <= q <= inject_Z z + (1 # 2) →
  (q == inject_Z z - (1 # 2) ∨ q == inject_Z z + (1 # 2) → Z.even z = true) →
  z = rint q.
Proof.
  intros Hz Hev. pose proof (rint_bounds q) as Hr. pose proof (rint_tie q) as Ht.
  destruct (Z.lt_trichotomy z (rint q)) as [Hlt|[?|Hlt]]; [|done|].
  - destruct (halfway_neighbours q z (rint q)) as (Heq & ? & ?); [done..|].
    specialize (Ht ltac:(by left)).
    by rewrite Heq, Z.even_add, Hev in Ht by (by right).
  - destruct (halfway_neighbours q (rint q) z) as (Heq & ? & ?); [done..|].
    specialize (Hev ltac:(by left)).
    by rewrite Heq, Z.even_add, Ht in Hev by (by right).
Qed.

Lemma Qmake_100 z : z # 100 == inject_Z z * (1 # 100).
Proof. rewrite (Qmake_Qdiv z 100). field. Qed.

Lemma round2_NaN : round2 None = None.
Proof. done. Qed.

Lemma round2_Some q : round2 (Some q) = Some (rint (q * 100) # 100).
Proof. done. Qed.

Lemma round2_is_Some x : is_Some (round2 x) ↔ is_Some x.
Proof. unfold round2. by rewrite fmap_is_Some. Qed.

(** Rounding to two decimals moves a value by at most 0.005. *)
Lemma round2_error q r :
  round2 (Some q) = Some r → r - (1 # 200) <= q <= r + (1 # 200).
Proof.
  intros [= <-]. rewrite (Qmake_100 (rint _)).
  pose proof (rint_bounds (q * 100)). lra.
Qed.

(** A value with two decimals is not changed. *)
Lemma round2_hundredths z : round2 (Some (z # 100)) = Some (z # 100).
Proof.
  rewrite round2_Some. do 2 f_equal. rewrite <-(rint_inject_Z z) at 2.
  apply rint_proper. rewrite (Qmake_100 z). ring.
Qed.

(** Rounding twice.  Rounding to two decimals a value that has been
    rounded to two decimals changes nothing; NaN stays NaN. *)
Theorem round2_idemp x : round2 (round2 x) = round2 x.
Proof. destruct x as [q|]; [|done]. simpl. apply round2_hundredths. Qed.

Lemma round2_mono q r q' r' :
  q <= r → round2 (Some q) = Some q' → round2 (Some r) = Some r' → q' <= r'.
Proof.
  intros Hqr [= <-] [= <-]. unfold Qle. simpl.
  assert (rint (q * 100) ≤ rint (r * 100))%Z as Hz by (apply rint_mono; lra).
  lia.
Qed.
End rounding.

(** ** Lemmas: value counts *)

Section counting_lemmas.
Context `{EqDecision A}.
Implicit Types (s : list (option A)) (k : A) (n : nat) (p q : A * nat).

Lemma count_ge_total p q : count_ge p q = true ∨ count_ge q p = true.
Proof. unfold count_ge. rewrite !Nat.leb_le. lia. Qed.

Lemma count_ge_trans p q r :
  count_ge p q = true → count_ge q r = true → count_ge p r = true.
Proof. unfold count_ge. rewrite !Nat.leb_le. lia. Qed.

Lemma counts_first_seen_keys s : (counts_first_seen s).*1 = unique (dropna s).
Proof.
  unfold counts_first_seen. rewrite <-list_fmap_compose.
  apply list_fmap_id.
Qed.

Lemma elem_of_counts_first_seen k n s :
  (k, n) ∈ counts_first_seen s ↔ n = count k (dropna s) ∧ 0 < n.
Proof.
  unfold counts_first_seen. rewrite list_elem_of_fmap. split.
  - intros (k' & [= -> ->] & Hk). split; [done|].
    by apply count_pos, elem_of_unique.
  - intros [-> Hn]. exists k. split; [done|]. by apply elem_of_unique, count_pos.
Qed.

Lemma counts_first_seen_sum s :
  sum_list_with snd (counts_first_seen s) = length (dropna s).
Proof.
  unfold counts_first_seen. rewrite sum_list_with_fmap. apply sum_count_unique.
Qed.

Lemma value_counts_perm s : value_counts s ≡ₚ counts_first_seen s.
Proof. apply sort_by_perm. Qed.

(** Each listed value comes with its number of occurrences, which is
    positive, and every present value is listed. *)
Lemma elem_of_value_counts k n s :
  (k, n) ∈ value_counts s ↔ n = count k (dropna s) ∧ 0 < n.
Proof. by rewrite value_counts_perm, elem_of_counts_first_seen. Qed.

Lemma value_counts_keys s : (value_counts s).*1 ≡ₚ unique (dropna s).
Proof. by rewrite value_counts_perm, counts_first_seen_keys. Qed.

Lemma NoDup_value_counts_keys s : NoDup (value_counts s).*1.
Proof. rewrite value_counts_keys. apply NoDup_unique. Qed.

Lemma value_counts_length s :
  length (value_counts s) = length (unique (dropna s)).
Proof. by rewrite <-value_counts_keys, length_fmap. Qed.

(** The counts add up to the number of present cells. *)
Lemma value_counts_sum s :
  sum_list_with snd (value_counts s) = length (dropna s).
Proof. by rewrite value_counts_perm, counts_first_seen_sum. Qed.

Lemma value_counts_sum_list s :
  sum_list (value_counts s).*2 = length (dropna s).
Proof. by rewrite sum_list_fmap, value_counts_sum. Qed.

(** Most frequent first. *)
Lemma value_counts_sorted s :
  StronglySorted (λ p q, q.2 ≤ p.2) (value_counts s).
Proof.
  eapply StronglySorted_impl;
    [|apply sort_by_sorted; [apply count_ge_total|apply count_ge_trans]].
  intros p q Hpq. by apply Nat.leb_le, Is_true_true.
Qed.

(** Values with the same count stay in first-seen order. *)
Lemma value_counts_ties n s :
  filter (λ p, p.2 = n) (value_counts s)
  = filter (λ p, p.2 = n) (counts_first_seen s).
Proof.
  apply filter_sort_by. intros p q _ _ Hp Hq.
  unfold count_ge. apply Nat.leb_le. lia.
Qed.

Lemma value_counts_nil s : value_counts s = [] ↔ dropna s = [].
Proof.
  rewrite <-!length_zero_iff_nil, value_counts_length, !length_zero_iff_nil.
  split; [apply unique_nil_inv|by intros ->].
Qed.

(** Up to the order of the entries, the counts do not depend on the order
    of the rows. *)
#[export] Instance value_counts_proper :
  Proper ((≡ₚ) ==> (≡ₚ)) (value_counts (A:=A)).
Proof.
  intros s1 s2 Hs. rewrite !value_counts_perm. unfold counts_first_seen.
  assert (dropna s1 ≡ₚ dropna s2) as Hd by (by apply omap_Permutation).
  rewrite Hd. apply reflexive_eq, Forall_fmap_ext_1, Forall_forall.
  intros k _. by rewrite Hd.
Qed.

(** C39 (counts are multiplicities).  [value_counts] implements the multiset
    of the present values of the column: a value is listed with the count
    [n] exactly when [n] is its multiplicity in that multiset and is not
    zero. *)
Theorem value_counts_multiplicity `{!Countable A} k n s :
  (k, n) ∈ value_counts s ↔
  multiplicity k (list_to_set_disj (dropna s) : gmultiset A) = n ∧ 0 < n.
Proof. rewrite elem_of_value_counts, <-count_multiplicity. naive_solver. Qed.
End counting_lemmas.

(** ** Lemmas: grouped means *)

Section groupby_lemmas.
Context `{EqDecision A} (le : A → A → bool).
Implicit Types (kv : list (option A * float)) (k : A) (m : float).

Lemma groupby_mean_keys kv :
  (groupby_mean le kv).*1 = sort_by le (unique (dropna kv.*1)).
Proof.
  unfold groupby_mean. rewrite <-list_fmap_compose. apply list_fmap_id.
Qed.

(** One entry per present key, holding the mean of the rows of that key. *)
Lemma elem_of_groupby_mean k m kv :
  (k, m) ∈ groupby_mean le kv ↔
  Some k ∈ kv.*1 ∧ m = mean (group_values k kv).
Proof.
  unfold groupby_mean. rewrite list_elem_of_fmap.
  setoid_rewrite elem_of_sort_by. setoid_rewrite elem_of_unique.
  setoid_rewrite elem_of_dropna. naive_solver.
Qed.

Lemma NoDup_groupby_mean_keys kv : NoDup (groupby_mean le kv).*1.
Proof. rewrite groupby_mean_keys, NoDup_sort_by. apply NoDup_unique. Qed.

Lemma groupby_mean_length kv :
  length (groupby_mean le kv) = length (unique (dropna kv.*1)).
Proof. unfold groupby_mean. by rewrite length_fmap, sort_by_length. Qed.

Lemma groupby_mean_nil kv : groupby_mean le kv = [] ↔ dropna kv.*1 = [].
Proof.
  rewrite <-!length_zero_iff_nil, groupby_mean_length, !length_zero_iff_nil.
  split; [apply unique_nil_inv|by intros ->].
Qed.

(** No group is empty: a listed key has at least one row. *)
Lemma group_values_nonempty {B} k (kv : list (option A * B)) :
  Some k ∈ kv.*1 → group_values k kv ≠ [].
Proof.
  intros ([k' v] & ? & Hin)%list_elem_of_fmap; simplify_eq/=.
  unfold group_values. intros Hnil%fmap_nil_inv.
  eapply filter_nil_not_elem_of; [exact Hnil| |exact Hin]. done.
Qed.

Lemma elem_of_group_values {B} k (v : B) (kv : list (option A * B)) :
  v ∈ group_values k kv ↔ (Some k, v) ∈ kv.
Proof.
  unfold group_values. rewrite list_elem_of_fmap.
  setoid_rewrite list_elem_of_filter. split.
  - intros ([k' v'] & -> & ? & ?); by simplify_eq/=.
  - intros ?. by exists (Some k, v).
Qed.

(** When every value cell is present, every group has a mean. *)
Lemma groupby_mean_present kv :
  Forall (λ p, is_Some p.2) kv → Forall (λ p, is_Some p.2) (groupby_mean le kv).
Proof.
  intros Hkv. apply Forall_forall. intros [k m] [Hk ->]%elem_of_groupby_mean.
  simpl. apply mean_is_Some.
  destruct (group_values k kv) as [|c l] eqn:E;
    [by apply group_values_nonempty in Hk|].
  assert (c ∈ group_values k kv) as Hc%elem_of_group_values
    by (rewrite E; apply list_elem_of_here).
  rewrite Forall_forall in Hkv. destruct (Hkv _ Hc) as [q ?]; simplify_eq/=.
  exists q. apply list_elem_of_here.
Qed.

Section order.
Hypothesis le_total : ∀ x y, le x y = true ∨ le y x = true.
Hypothesis le_trans : ∀ x y z, le x y = true → le y z = true → le x z = true.

(** The keys come out in order. *)
Lemma groupby_mean_sorted kv :
  StronglySorted (λ p q, le p.1 q.1) (groupby_mean le kv).
Proof.
  unfold groupby_mean. eapply StronglySorted_fmap; [|by apply sort_by_sorted].
  done.
Qed.
End order.
End groupby_lemmas.

(** ** The tests see selections as sets and rationals up to [==] *)

#[export] Instance cell_isin_proper `{EqDecision A} :
  Proper (same_set ==> (=) ==> (=)) (cell_isin (A:=A)).
Proof.
  intros vs1 vs2 Hvs c ? <-. destruct c as [v|]; [|done]. simpl.
  apply bool_decide_ext, Hvs.
Qed.

#[export] Instance cell_between_proper :
  Proper ((≡) ==> (≡) ==> (≡) ==> (=)) cell_between.
Proof.
  intros l1 l2 Hl r1 r2 Hr c1 c2 Hc. unfold cell_between.
  by rewrite Hl, Hr, Hc.
Qed.
