(* ===== verification/Frame.v ===== *)
(** * Frame: the table [df] of [src/main.py]

    The script reads five columns of the table that [pd.read_csv] returns:
    four text columns and one numeric column.  A [DataFrame] is the header
    (the names of the columns that are present) and the rows; a [Row]
    carries its index label (its position in the file) and one cell per
    column of the schema.  Access to a column by name ([df["name"]]) raises
    [KeyError] when the header lacks the name; access by a list of names
    ([df[[names]]]) raises [KeyError] with all the names the header lacks.
    Columns outside the schema are not represented: the script never reads
    them. *)

From S2P Require Import Prelude Series.

Local Open Scope string_scope.

(** ** Data *)

(** The exceptions of the script.  Python has one [KeyError]; pandas gives
    it the name asked for when one column is read, and the list of the
    names that are not in the header when a list of columns is read. *)
Inductive Exn : Type :=
| KeyError (name : string)
| KeyErrorNotInIndex (missing : list string)
| ValueError
| FileNotFoundError (path : string)
| ParserError (path : string).

#[export] Instance Exn_eq_dec : EqDecision Exn.
Proof. solve_decision. Defined.

(** One record of the table. *)
Record Row : Type := mkRow {
  label : nat;
  DepartmentType : option string;
  EmployeeStatus : option string;
  EmployeeType : option string;
  Current_Employee_Rating : float;
  Performance_Score : option string;
}.

#[export] Instance Row_eq_dec : EqDecision Row.
Proof. solve_decision. Defined.

Record DataFrame : Type := mkFrame {
  columns : list string;
  rows : list Row;
}.

#[export] Instance DataFrame_eq_dec : EqDecision DataFrame.
Proof. solve_decision. Defined.

(** The text columns of the schema, by name. *)
Definition text_field (name : string) : option (Row → option string) :=
  if decide (name = "DepartmentType") then Some DepartmentType
  else if decide (name = "EmployeeStatus") then Some EmployeeStatus
  else if decide (name = "EmployeeType") then Some EmployeeType
  else if decide (name = "Performance Score") then Some Performance_Score
  else None.

(** The numeric column of the schema, by name. *)
Definition num_field (name : string) : option (Row → float) :=
  if decide (name = "Current Employee Rating")
  then Some Current_Employee_Rating else None.

(** The five names, in the order of the drill-down table. *)
Definition schema : list string :=
  ["DepartmentType"; "EmployeeStatus"; "EmployeeType";
   "Current Employee Rating"; "Performance Score"].

(** ** Operations *)

(** [df[name]] for a text column. *)
Definition getitem_text (df : DataFrame) (name : string)
    : result Exn (list (option string)) :=
  match text_field name with
  | Some f =>
      if decide (name ∈ columns df) then Ok (f <$> rows df)
      else Err (KeyError name)
  | None => Err (KeyError name)
  end.

(** [df[name]] for a numeric column. *)
Definition getitem_num (df : DataFrame) (name : string)
    : result Exn (list float) :=
  match num_field name with
  | Some f =>
      if decide (name ∈ columns df) then Ok (f <$> rows df)
      else Err (KeyError name)
  | None => Err (KeyError name)
  end.

(** [df[mask]]: the rows selected by a boolean column, header unchanged. *)
Definition getitem_rows (df : DataFrame) (mask : list bool) : DataFrame :=
  {| columns := columns df; rows := getitem_mask (rows df) mask |}.

(** [df[[name; ...]]]: the listed columns, in the listed order; when some
    of the names are not in the header, [KeyError] with all of them. *)
Definition getitem_columns (df : DataFrame) (names : list string)
    : result Exn DataFrame :=
  match filter (λ n, n ∉ columns df) names with
  | [] => Ok {| columns := names; rows := rows df |}
  | missing => Err (KeyErrorNotInIndex missing)
  end.

(** [len(df)]. *)
Definition len (df : DataFrame) : nat := length (rows df).

(** The table of a file with [n] records: labels are [0 .. n-1]. *)
Definition range_index (rs : list Row) : Prop := label <$> rs = seq 0 (length rs).

(** A frame of the script: distinct column names, labels increasing. *)
Record wf_frame (df : DataFrame) : Prop := {
  wf_columns : NoDup (columns df);
  wf_labels : StronglySorted lt (label <$> rows df);
}.

(** The header has every column the script reads. *)
Definition complete (df : DataFrame) : Prop := schema ⊆ columns df.

#[export] Instance complete_dec df : Decision (complete df).
Proof. unfold complete. apply _. Defined.

(** ** A sample table

    Five records, three of department Sales with ratings 2, 3 and 4 and two
    of department Eng with ratings 5 and 1; [sample_na] has two more
    records with missing cells. *)

Definition sample_rows : list Row :=
  [ mkRow 0 (Some "Sales") (Some "Active") (Some "Full-Time") (Some 2%Q)
      (Some "Fully Meets");
    mkRow 1 (Some "Sales") (Some "Active") (Some "Part-Time") (Some 3%Q)
      (Some "Exceeds");
    mkRow 2 (Some "Eng") (Some "Terminated") (Some "Full-Time") (Some 5%Q)
      (Some "Exceeds");
    mkRow 3 (Some "Sales") (Some "Active") (Some "Contract") (Some 4%Q)
      (Some "Fully Meets");
    mkRow 4 (Some "Eng") (Some "Active") (Some "Full-Time") (Some 1%Q)
      (Some "Needs Improvement") ].

Definition sample_df : DataFrame := {| columns := schema; rows := sample_rows |}.

Definition sample_na : DataFrame :=
  {| columns := schema;
     rows := sample_rows ++
       [ mkRow 5 None (Some "Active") (Some "Full-Time") (Some 3%Q) None;
         mkRow 6 (Some "Eng") (Some "Active") None None (Some "Exceeds") ] |}.

(** ** Lemmas *)

Section frame_lemmas.
Implicit Types (df : DataFrame) (name : string) (mask : list bool).

Lemma getitem_text_Ok df name f :
  text_field name = Some f → name ∈ columns df →
  getitem_text df name = Ok (f <$> rows df).
Proof. unfold getitem_text. intros -> ?. by rewrite decide_True. Qed.

Lemma getitem_num_Ok df name f :
  num_field name = Some f → name ∈ columns df →
  getitem_num df name = Ok (f <$> rows df).
Proof. unfold getitem_num. intros -> ?. by rewrite decide_True. Qed.

(** A missing column raises [KeyError] with the name asked for. *)
Lemma getitem_text_KeyError df name :
  name ∉ columns df → getitem_text df name = Err (KeyError name).
Proof.
  unfold getitem_text. intros ?. destruct (text_field name); [|done].
  by rewrite decide_False.
Qed.

Lemma getitem_num_KeyError df name :
  name ∉ columns df → getitem_num df name = Err (KeyError name).
Proof.
  unfold getitem_num. intros ?. destruct (num_field name); [|done].
  by rewrite decide_False.
Qed.

Lemma getitem_text_Ok_inv df name s :
  getitem_text df name = Ok s →
  name ∈ columns df ∧ ∃ f, text_field name = Some f ∧ s = f <$> rows df.
Proof.
  unfold getitem_text. destruct (text_field name) as [f|]; [|done].
  case_decide; naive_solver.
Qed.

Lemma getitem_num_Ok_inv df name s :
  getitem_num df name = Ok s →
  name ∈ columns df ∧ ∃ f, num_field name = Some f ∧ s = f <$> rows df.
Proof.
  unfold getitem_num. destruct (num_field name) as [f|]; [|done].
  case_decide; naive_solver.
Qed.

(** The only exception of column access is [KeyError] of that name. *)
Lemma getitem_text_Err_inv df name e :
  getitem_text df name = Err e → e = KeyError name.
Proof.
  unfold getitem_text. destruct (text_field name); [case_decide|]; naive_solver.
Qed.

Lemma getitem_num_Err_inv df name e :
  getitem_num df name = Err e → e = KeyError name.
Proof.
  unfold getitem_num. destruct (num_field name); [case_decide|]; naive_solver.
Qed.

Lemma getitem_rows_complete df mask : complete df → complete (getitem_rows df mask).
Proof. done. Qed.

Lemma getitem_rows_sublist df mask : rows (getitem_rows df mask) `sublist_of` rows df.
Proof. apply getitem_mask_sublist. Qed.

Lemma len_getitem_rows df mask : (len (getitem_rows df mask) ≤ len df)%nat.
Proof. apply sublist_length, getitem_rows_sublist. Qed.

Lemma getitem_columns_Ok df names :
  names ⊆ columns df →
  getitem_columns df names = Ok {| columns := names; rows := rows df |}.
Proof.
  intros Hsub. unfold getitem_columns. rewrite filter_none; [done|].
  apply Forall_forall. intros n Hn. specialize (Hsub n Hn). tauto.
Qed.

Lemma getitem_columns_Ok_inv df names df' :
  getitem_columns df names = Ok df' →
  names ⊆ columns df ∧ columns df' = names ∧ rows df' = rows df.
Proof.
  unfold getitem_columns.
  destruct (filter _ names) as [|n l] eqn:E; intros [= <-]. split; [|done].
  intros n Hn. apply filter_nil_inv in E. rewrite Forall_forall in E.
  specialize (E n Hn). by apply dec_stable.
Qed.

(** The exception names the listed columns that are missing, all of them. *)
Lemma getitem_columns_Err_inv df names e :
  getitem_columns df names = Err e →
  ∃ missing, e = KeyErrorNotInIndex missing ∧ missing ≠ []
    ∧ ∀ n, n ∈ missing ↔ n ∈ names ∧ n ∉ columns df.
Proof.
  unfold getitem_columns.
  destruct (filter _ names) as [|n l] eqn:E; intros [= <-]. eexists.
  split_and!; [done..|]. intros n'. by rewrite <-E, list_elem_of_filter, (comm and).
Qed.

(** Rows of a well-formed frame are told apart by their labels. *)
Lemma wf_frame_NoDup_labels df : wf_frame df → NoDup (label <$> rows df).
Proof. intros [_ ?]. by apply StronglySorted_lt_NoDup. Qed.

Lemma wf_frame_NoDup_rows df : wf_frame df → NoDup (rows df).
Proof. intros ?%wf_frame_NoDup_labels. by eapply NoDup_fmap_1. Qed.

(** A table fresh from a file is well formed. *)
Lemma range_index_wf cols rs :
  NoDup cols → range_index rs → wf_frame {| columns := cols; rows := rs |}.
Proof.
  intros ? Hrs. split; [done|]. simpl. rewrite Hrs.
  apply StronglySorted_lt_seq.
Qed.

(** Selecting rows keeps a frame well formed. *)
Lemma getitem_rows_wf df mask : wf_frame df → wf_frame (getitem_rows df mask).
Proof.
  intros [? Hl]. split; [done|]. simpl.
  eapply StronglySorted_sublist; [|done].
  apply fmap_sublist, getitem_mask_sublist.
Qed.
End frame_lemmas.

#[export] Hint Resolve getitem_rows_wf getitem_rows_complete
  getitem_rows_sublist wf_frame_NoDup_rows : frame.

(** Inversion of the successful column accesses among the hypotheses. *)
Ltac getitem_inv :=
  repeat match goal with
  | H : getitem_text _ _ = Ok _ |- _ =>
      apply getitem_text_Ok_inv in H as (? & ? & [= <-] & ->)
  | H : getitem_num _ _ = Ok _ |- _ =>
      apply getitem_num_Ok_inv in H as (? & ? & [= <-] & ->)
  end.

(** Evaluation of the column accesses of the goal, for the columns that
    the hypotheses say are present or missing. *)
Ltac getitem_eval :=
  repeat match goal with
  | H : ?n ∈ columns ?df |- context [getitem_text ?df ?n] =>
      rewrite (getitem_text_Ok df n _ eq_refl H)
  | H : ?n ∈ columns ?df |- context [getitem_num ?df ?n] =>
      rewrite (getitem_num_Ok df n _ eq_refl H)
  | H : ?n ∉ columns ?df |- context [getitem_text ?df ?n] =>
      rewrite (getitem_text_KeyError df n H)
  | H : ?n ∉ columns ?df |- context [getitem_num ?df ?n] =>
      rewrite (getitem_num_KeyError df n H)
  end.

(** Case analysis on the first name of a list that the header lacks. *)
Ltac case_missing H :=
  rewrite ?filter_cons, ?filter_nil in H;
  repeat (case_decide; simplify_eq/=);
  repeat match goal with
  | H' : ¬ (_ ∉ _) |- _ => apply dec_stable in H'
  end.
