(* ===== verification/Plotly.v ===== *)
(** * Plotly: the small tables and the figures of the four charts

    [value_counts().reset_index()] and [groupby(..).mean().reset_index()]
    give a table of two columns, which the script renames and hands to
    [px.bar] or [px.pie].  A [Figure] records what the script asks Plotly
    Express to draw: the table, the columns bound to each visual channel and
    the layout options.  Plotly Express raises [ValueError] when a channel
    names a column the table lacks.  [traces] gives the data series that
    Plotly Express builds from the call: for a bar chart coloured by its
    label column one series per distinct label, in the order in which the
    labels first appear, with the colours of the colour sequence in turn;
    for a pie chart one series.  The lemmas show that the series of a bar
    chart draw every row of its table once ([bar_traces_points]), and
    one row each when the labels are distinct ([bar_traces_rows]).
    Rendering itself is not modelled. *)

From S2P Require Import Prelude Series Frame.

(** ** Data *)

(** A cell of a chart table or a metric: a count or a float. *)
Inductive Scalar : Type :=
| SInt (n : nat)
| SFloat (x : float).

#[export] Instance Scalar_eq_dec : EqDecision Scalar.
Proof. solve_decision. Defined.

(** A table of two columns: a label and a number per row. *)
Record Table : Type := mkTable {
  header : string * string;
  entries : list (string * Scalar);
}.

#[export] Instance Table_eq_dec : EqDecision Table.
Proof. solve_decision. Defined.

(** Where the text drawn on a bar comes from. *)
Inductive TextMode : Type :=
| TextColumn (name : string)
| TextAuto.

#[export] Instance TextMode_eq_dec : EqDecision TextMode.
Proof. solve_decision. Defined.

Inductive Chart : Type :=
| BarChart (data : Table) (x y : string) (text : TextMode) (color : string)
| PieChart (data : Table) (names values : string) (hole : Q).

#[export] Instance Chart_eq_dec : EqDecision Chart.
Proof. solve_decision. Defined.

Record Figure : Type := mkFigure {
  chart : Chart;
  transition_duration : nat;
}.

#[export] Instance Figure_eq_dec : EqDecision Figure.
Proof. solve_decision. Defined.

(** A cell of a chart table: a label or a number. *)
Inductive Cell : Type :=
| CLabel (s : string)
| CNumber (v : Scalar).

#[export] Instance Cell_eq_dec : EqDecision Cell.
Proof. solve_decision. Defined.

(** A data series of a figure: its name in the legend, the place of its
    colour in the colour sequence when it has a colour of its own, its
    points and the texts drawn on them. *)
Record Trace : Type := mkTrace {
  trace_name : string;
  color_index : option nat;
  points : list (Cell * Cell);
  texts : list Cell;
}.

#[export] Instance Trace_eq_dec : EqDecision Trace.
Proof. solve_decision. Defined.

(** ** Operations *)

(** [series.reset_index()] followed by [table.columns = [a, b]], for a
    series of counts. *)
Definition count_table (a b : string) (counts : list (string * nat)) : Table :=
  {| header := (a, b); entries := prod_map id SInt <$> counts |}.

(** [series.reset_index()] for a series of means named [b] with index [a]. *)
Definition mean_table (a b : string) (means : list (string * float)) : Table :=
  {| header := (a, b); entries := prod_map id SFloat <$> means |}.

(** The column [name] of a table exists. *)
Definition has_column (t : Table) (name : string) : bool :=
  bool_decide (name = (header t).1) || bool_decide (name = (header t).2).

(** Every one of [names] is a column of [t]. *)
Definition has_columns (t : Table) (names : list string) : bool :=
  forallb (has_column t) names.

(** [px.bar(data, x=.., y=.., text=.., color=..)]. *)
Definition px_bar (data : Table) (x y : string) (text : TextMode)
    (color : string) : result Exn Figure :=
  let named := match text with TextColumn n => [n] | TextAuto => [] end in
  if has_columns data ([x; y] ++ named ++ [color])
  then Ok {| chart := BarChart data x y text color; transition_duration := 0 |}
  else Err ValueError.

(** [px.pie(data, names=.., values=.., hole=..)]. *)
Definition px_pie (data : Table) (names values : string) (hole : Q)
    : result Exn Figure :=
  if has_columns data [names; values]
  then Ok {| chart := PieChart data names values hole;
             transition_duration := 0 |}
  else Err ValueError.

(** [fig.update_layout(transition_duration=d)]. *)
Definition update_layout (fig : Figure) (d : nat) : Figure :=
  {| chart := chart fig; transition_duration := d |}.

(** The table a figure draws. *)
Definition figure_data (fig : Figure) : Table :=
  match chart fig with
  | BarChart data _ _ _ _ => data
  | PieChart data _ _ _ => data
  end.

(** The cells of the column [name]. *)
Definition cells (t : Table) (name : string) : list Cell :=
  if bool_decide (name = (header t).1)
  then CLabel <$> (entries t).*1
  else CNumber <$> (entries t).*2.

(** The colours of the discrete colour sequence: ten, in the default
    template of Plotly and in the theme of Streamlit. *)
Definition palette_size : nat := 10.

(** The rows of a series: those with the label [key]. *)
Definition group_rows {A} (key : string) (rows : list (string * A)) : list A :=
  snd <$> filter (λ r, r.1 = key) rows.

(** The series of [px.bar]: coloured by the label column, one series per
    label, in the order of first appearance, the colours in turn;
    coloured by the number column, one series on a colour scale. *)
Definition bar_traces (data : Table) (x y : string) (text : TextMode)
    (color : string) : list Trace :=
  let shown :=
    match text with TextColumn n => cells data n | TextAuto => cells data y end
  in
  let pts := zip (cells data x) (cells data y) in
  if bool_decide (color = (header data).1)
  then imap (λ k key,
         {| trace_name := key;
            color_index := Some (k mod palette_size);
            points := group_rows key (zip (entries data).*1 pts);
            texts := group_rows key (zip (entries data).*1 shown) |})
       (unique (entries data).*1)
  else [{| trace_name := ""; color_index := None; points := pts;
           texts := shown |}].

(** The series of [px.pie]: one, with a sector per row. *)
Definition pie_traces (data : Table) (names values : string) : list Trace :=
  [{| trace_name := ""; color_index := None;
      points := zip (cells data names) (cells data values); texts := [] |}].

(** The series of a figure. *)
Definition traces (fig : Figure) : list Trace :=
  match chart fig with
  | BarChart data x y text color => bar_traces data x y text color
  | PieChart data names values _ => pie_traces data names values
  end.

(** The rows that the series of a figure draw, read back as a table. *)
Definition drawn (fig : Figure) : list (Cell * Cell) :=
  traces fig ≫= points.

(** A row of a chart table as a point: the label and the number. *)
Definition as_point (e : string * Scalar) : Cell * Cell :=
  (CLabel e.1, CNumber e.2).

(** The text on the bar of a row, in a table whose label column is [a]:
    the label when the text column is [a], the number otherwise. *)
Definition bar_text (a : string) (text : TextMode) (e : string * Scalar)
    : Cell :=
  match text with
  | TextColumn n => if bool_decide (n = a) then CLabel e.1 else CNumber e.2
  | TextAuto => CNumber e.2
  end.

(** ** Lemmas *)

Section plotly_lemmas.
Implicit Types (t : Table) (fig : Figure) (n : string).

Lemma count_table_labels a b counts :
  (entries (count_table a b counts)).*1 = counts.*1.
Proof.
  simpl. rewrite <-list_fmap_compose. apply list_fmap_ext. by intros ? [].
Qed.

Lemma mean_table_labels a b means :
  (entries (mean_table a b means)).*1 = means.*1.
Proof.
  simpl. rewrite <-list_fmap_compose. apply list_fmap_ext. by intros ? [].
Qed.

Lemma count_table_values a b counts :
  (entries (count_table a b counts)).*2 = SInt <$> counts.*2.
Proof.
  simpl. rewrite <-!list_fmap_compose. apply list_fmap_ext. by intros ? [].
Qed.

Lemma mean_table_values a b means :
  (entries (mean_table a b means)).*2 = SFloat <$> means.*2.
Proof.
  simpl. rewrite <-!list_fmap_compose. apply list_fmap_ext. by intros ? [].
Qed.

Lemma has_columns_true t names :
  has_columns t names = true ↔ Forall (λ n, has_column t n = true) names.
Proof.
  unfold has_columns. rewrite forallb_forall, Forall_forall.
  by setoid_rewrite list_elem_of_In.
Qed.

(** A bar chart is drawn exactly when every channel names a column. *)
Lemma px_bar_is_Ok data x y text color :
  is_Ok (px_bar data x y text color) ↔
  has_column data x = true ∧ has_column data y = true ∧
  has_column data color = true ∧
  (∀ n, text = TextColumn n → has_column data n = true).
Proof.
  unfold px_bar, is_Ok.
  destruct (has_columns _ _) eqn:E.
  - apply has_columns_true in E. split; [intros _|by eauto].
    destruct text; simpl in E; repeat apply Forall_cons_1 in E as [? E];
      naive_solver.
  - split; [naive_solver|]. intros (? & ? & ? & Ht).
    apply not_true_iff_false in E. destruct E. apply has_columns_true.
    destruct text; repeat constructor; auto.
Qed.

Lemma px_pie_is_Ok data names values hole :
  is_Ok (px_pie data names values hole) ↔
  has_column data names = true ∧ has_column data values = true.
Proof.
  unfold px_pie, is_Ok, has_columns. simpl. rewrite andb_true_r.
  destruct (has_column data names), (has_column data values); naive_solver.
Qed.

Lemma px_bar_Ok_inv data x y text color fig :
  px_bar data x y text color = Ok fig →
  fig = {| chart := BarChart data x y text color; transition_duration := 0 |}.
Proof. unfold px_bar. case_match; naive_solver. Qed.

Lemma px_pie_Ok_inv data names values hole fig :
  px_pie data names values hole = Ok fig →
  fig = {| chart := PieChart data names values hole;
           transition_duration := 0 |}.
Proof. unfold px_pie. case_match; naive_solver. Qed.

Lemma px_bar_data data x y text color fig :
  px_bar data x y text color = Ok fig → figure_data fig = data.
Proof. by intros ->%px_bar_Ok_inv. Qed.

Lemma px_pie_data data names values hole fig :
  px_pie data names values hole = Ok fig → figure_data fig = data.
Proof. by intros ->%px_pie_Ok_inv. Qed.

Lemma update_layout_data fig d : figure_data (update_layout fig d) = figure_data fig.
Proof. done. Qed.

Lemma update_layout_duration fig d : transition_duration (update_layout fig d) = d.
Proof. done. Qed.
End plotly_lemmas.

(** ** Lemmas: the series of a figure *)

Section traces_lemmas.
Implicit Types (t : Table) (e : string * Scalar) (text : TextMode).

Lemma cells_labels t : cells t (header t).1 = CLabel <$> (entries t).*1.
Proof. unfold cells. by rewrite bool_decide_eq_true_2. Qed.

Lemma cells_numbers t :
  (header t).2 ≠ (header t).1 →
  cells t (header t).2 = CNumber <$> (entries t).*2.
Proof. intros ?. unfold cells. by rewrite bool_decide_eq_false_2. Qed.

(** Label and number cells of a table, side by side, are its rows. *)
Lemma zip_cells t :
  zip (CLabel <$> (entries t).*1) (CNumber <$> (entries t).*2)
  = as_point <$> entries t.
Proof. by induction (entries t) as [|[]]; f_equal/=. Qed.

(** In a list with distinct labels the rows of a label are one row. *)
Lemma group_rows_NoDup {A} (l : list (string * A)) k x :
  NoDup l.*1 → (k, x) ∈ l → group_rows k l = [x].
Proof.
  unfold group_rows.
  induction l as [|[k' x'] l IH]; [by intros _ ?%elem_of_nil|].
  rewrite fmap_cons, NoDup_cons, elem_of_cons, filter_cons. simpl.
  intros [Hk Hnd] [[= <- <-]|Hin].
  - rewrite decide_True, filter_none; [done| |done].
    apply Forall_forall. intros [k'' x''] Hin Heq. simpl in Heq. subst k''.
    apply Hk, list_elem_of_fmap. by exists (k, x'').
  - rewrite decide_False; [by apply IH|]. intros ->.
    apply Hk, list_elem_of_fmap. by exists (k, x).
Qed.

Lemma group_rows_zip {A} (f : string * Scalar → A) t e :
  NoDup (entries t).*1 → e ∈ entries t →
  group_rows e.1 (zip (entries t).*1 (f <$> entries t)) = [f e].
Proof.
  intros Hnd He. apply group_rows_NoDup.
  - rewrite fst_zip; [done|]. by rewrite !length_fmap.
  - rewrite zip_fmap_same. by apply (list_elem_of_fmap_2 (λ z, (z.1, f z))).
Qed.

Lemma shown_cells t text :
  (header t).2 ≠ (header t).1 →
  match text with
  | TextColumn n => cells t n
  | TextAuto => cells t (header t).2
  end = bar_text (header t).1 text <$> entries t.
Proof.
  intros Hab. destruct text as [n|]; simpl.
  - unfold cells, bar_text.
    destruct (bool_decide (n = (header t).1)); by rewrite <-list_fmap_compose.
  - by rewrite cells_numbers, <-list_fmap_compose.
Qed.

(** A bar chart of a table with distinct labels, coloured by label: one
    series per row, in the order of the rows, the colours in turn. *)
Lemma bar_traces_rows t text :
  (header t).2 ≠ (header t).1 → NoDup (entries t).*1 →
  bar_traces t (header t).1 (header t).2 text (header t).1
  = imap (λ k e, {| trace_name := e.1;
                    color_index := Some (k mod palette_size);
                    points := [as_point e];
                    texts := [bar_text (header t).1 text e] |})
      (entries t).
Proof.
  intros Hab Hnd. unfold bar_traces.
  rewrite bool_decide_eq_true_2, unique_NoDup, imap_fmap by done.
  rewrite shown_cells, cells_labels, cells_numbers, zip_cells by done.
  apply imap_ext. intros k e He%list_elem_of_lookup_2. simpl.
  by rewrite !group_rows_zip.
Qed.

(** The points of the series of a label are the rows of that label, in
    the order of the table. *)
Lemma group_rows_points t k :
  group_rows k (zip (entries t).*1 (as_point <$> entries t))
  = as_point <$> filter (λ e, e.1 = k) (entries t).
Proof.
  unfold group_rows. rewrite zip_fmap_same, filter_fmap, <-list_fmap_compose.
  done.
Qed.

(** A bar chart coloured by label, whatever the table: the series are
    named by the labels in the order in which they first appear, and
    together they draw every row once. *)
Lemma bar_traces_names t y text :
  trace_name <$> bar_traces t (header t).1 y text (header t).1
  = unique (entries t).*1.
Proof.
  unfold bar_traces. rewrite bool_decide_eq_true_2, fmap_imap by done.
  rewrite <-(list_fmap_id (unique _)) at 2. apply (imap_const id).
Qed.

Lemma imap_bind_points t (c : nat → option nat) (tx : string → list Cell)
    (ks : list string) :
  imap (λ k key,
      {| trace_name := key; color_index := c k;
         points := group_rows key (zip (entries t).*1 (as_point <$> entries t));
         texts := tx key |}) ks ≫= points
  = as_point <$> (ks ≫= λ k, filter (λ e, e.1 = k) (entries t)).
Proof.
  revert c. induction ks as [|k ks IH]; intros c; [done|].
  rewrite imap_cons, !bind_cons, fmap_app. simpl.
  by rewrite group_rows_points, <-(IH (c ∘ S)).
Qed.

Lemma bar_traces_points t text :
  (header t).2 ≠ (header t).1 →
  bar_traces t (header t).1 (header t).2 text (header t).1 ≫= points
  ≡ₚ as_point <$> entries t.
Proof.
  intros Hab. unfold bar_traces.
  rewrite bool_decide_eq_true_2, cells_labels, cells_numbers, zip_cells by done.
  by rewrite imap_bind_points, (groups_perm fst).
Qed.

(** The colours of [n] series in turn are distinct exactly when there
    are at most as many series as colours. *)
Lemma NoDup_colors n :
  NoDup ((λ k, k mod palette_size) <$> seq 0 n) ↔ n ≤ palette_size.
Proof.
  split.
  - intros Hnd. destruct (decide (n ≤ palette_size)) as [|Hn]; [done|].
    assert (0 = palette_size) as Habs; [|done].
    apply (NoDup_lookup _ _ _ 0 Hnd); rewrite list_lookup_fmap, lookup_seq_lt;
      unfold palette_size in *; (done || lia).
  - intros Hn. rewrite (list_fmap_ext _ id (seq 0 n)), list_fmap_id;
      [apply NoDup_seq|].
    intros i k [-> ?]%lookup_seq. apply Nat.mod_small. simpl. lia.
Qed.
End traces_lemmas.

#[export] Hint Rewrite count_table_labels mean_table_labels count_table_values
  mean_table_values update_layout_data : frame_rw.
