(* ===== verification/Streamlit.v ===== *)
(** * Streamlit: the runtime the script runs in

    A run of the script reads the values of the widgets from the session,
    may read the file system, appends elements to the page and may fill the
    process-wide cache of [st.cache_data].  It ends normally, with an
    exception, or with the request to run again ([st.experimental_rerun]).
    [Script A] is the monad of such computations: a reader of the
    environment, a state of page and cache, and an early exit.

    The identity of a widget is its label.  What the browser draws for an
    element is not modelled: the page is the list of elements in the order
    the script emits them, each with the container it was written to.

    [runs] is the big-step relation of a run on page and cache; [View] and
    [shows] state what a script writes and returns as a value, so that a
    script is proved equal to a function of its inputs one call at a
    time. *)

From S2P Require Import Prelude Series Frame Plotly.

(** ** Data *)

Inductive Container : Type :=
| Main
| Sidebar
| Column (i : nat).

#[export] Instance Container_eq_dec : EqDecision Container.
Proof. solve_decision. Defined.

Inductive Element : Type :=
| PageConfig (page_title page_icon layout : string)
| Markdown (body : string) (unsafe_allow_html : bool)
| Header (body : string)
| Title (body : string)
| Caption (body : string)
| Subheader (body : string)
| Divider
| Columns (n : nat)
| Multiselect (label : string) (options default value : list string)
| Slider (label : string) (min_value max_value : float) (value : float * float)
| Button (label : string)
| Metric (label : string) (value : Scalar)
| PlotlyChart (fig : Figure) (use_container_width : bool)
| Dataframe (data : DataFrame) (use_container_width : bool).

#[export] Instance Element_eq_dec : EqDecision Element.
Proof. solve_decision. Defined.

(** The value the session holds for a widget the user has touched. *)
Inductive WidgetValue : Type :=
| WList (v : list string)
| WRange (v : float * float)
| WClicked.

#[export] Instance WidgetValue_eq_dec : EqDecision WidgetValue.
Proof. solve_decision. Defined.

(** What a path of the file system holds: a table [pd.read_csv] can parse,
    or bytes it rejects. *)
Inductive FileContent : Type :=
| CsvTable (df : DataFrame)
| NotCsv.

Record Env : Type := mkEnv {
  widgets : gmap string WidgetValue;
  disk : gmap string FileContent;
}.

Record RunState : Type := mkRunState {
  page : list (Container * Element);
  cache : option DataFrame;
}.

(** How a run stops early. *)
Inductive Signal : Type :=
| Raise (e : Exn)
| RerunException.

#[export] Instance Signal_eq_dec : EqDecision Signal.
Proof. solve_decision. Defined.

Definition Script (A : Type) : Type :=
  Env → RunState → RunState * result Signal A.

(** ** The monad *)

#[export] Instance script_ret : MRet Script := λ A a env st, (st, Ok a).

#[export] Instance script_bind : MBind Script := λ A B f m env st,
  match m env st with
  | (st', Ok a) => f a env st'
  | (st', Err sg) => (st', Err sg)
  end.

#[export] Instance script_fmap : FMap Script := λ A B f m env st,
  match m env st with
  | (st', Ok a) => (st', Ok (f a))
  | (st', Err sg) => (st', Err sg)
  end.

(** Two scripts are the same when they behave the same in every run. *)
#[export] Instance script_equiv {A} : Equiv (Script A) := λ m1 m2,
  ∀ env st, m1 env st = m2 env st.

(** A pure computation that may raise, inside a run. *)
Definition lift {A} (m : result Exn A) : Script A := λ env st,
  match m with
  | Ok a => (st, Ok a)
  | Err e => (st, Err (Raise e))
  end.

(** Append one element to the page. *)
Definition emit (c : Container) (e : Element) : Script unit := λ env st,
  ({| page := page st ++ [(c, e)]; cache := cache st |}, Ok tt).

(** ** The calls of the script *)

Definition set_page_config (page_title page_icon layout : string)
    : Script unit :=
  emit Main (PageConfig page_title page_icon layout).

Definition markdown (body : string) (unsafe_allow_html : bool) : Script unit :=
  emit Main (Markdown body unsafe_allow_html).

Definition header (c : Container) (body : string) : Script unit :=
  emit c (Header body).

Definition title (body : string) : Script unit := emit Main (Title body).
Definition caption (body : string) : Script unit := emit Main (Caption body).
Definition subheader (body : string) : Script unit := emit Main (Subheader body).
Definition divider : Script unit := emit Main Divider.

(** [st.columns(n)]: the containers of the [n] columns. *)
Definition st_columns (n : nat) : Script (list Container) :=
  emit Main (Columns n) ;; mret (Column <$> seq 0 n).

Definition metric (c : Container) (label : string) (value : Scalar)
    : Script unit :=
  emit c (Metric label value).

Definition plotly_chart (fig : Figure) (use_container_width : bool)
    : Script unit :=
  emit Main (PlotlyChart fig use_container_width).

Definition dataframe (data : DataFrame) (use_container_width : bool)
    : Script unit :=
  emit Main (Dataframe data use_container_width).

(** The value of a widget in a run: what the session holds for its label,
    the default while the user has not touched it. *)
Definition widget_list (w : gmap string WidgetValue) (label : string)
    (default : list string) : list string :=
  match w !! label with
  | Some (WList v) => v
  | _ => default
  end.

Definition widget_range (w : gmap string WidgetValue) (label : string)
    (default : float * float) : float * float :=
  match w !! label with
  | Some (WRange v) => v
  | _ => default
  end.

Definition widget_clicked (w : gmap string WidgetValue) (label : string) : bool :=
  bool_decide (w !! label = Some WClicked).

(** [multiselect(label, options, default)]: the value stored for the label
    in the session, the default when none is stored.  The front end lets
    the user pick among the options only; a stored value is returned as
    it is, without a check against the options of this run. *)
Definition multiselect (c : Container) (label : string)
    (options default : list string) : Script (list string) := λ env st,
  let value := widget_list (widgets env) label default in
  ({| page := page st ++ [(c, Multiselect label options default value)];
      cache := cache st |}, Ok value).

(** [slider(label, min_value, max_value, value)] with a pair as value: a
    range slider.  The widget's own validation of its bounds (bounds that
    are NaN or equal) is not modelled: the call returns for every
    bounds. *)
Definition slider (c : Container) (label : string) (min_value max_value : float)
    (value : float * float) : Script (float * float) := λ env st,
  let v := widget_range (widgets env) label value in
  ({| page := page st ++ [(c, Slider label min_value max_value v)];
      cache := cache st |}, Ok v).

(** [button(label)]: true in the run that the click started. *)
Definition button (c : Container) (label : string) : Script bool := λ env st,
  ({| page := page st ++ [(c, Button label)]; cache := cache st |},
   Ok (widget_clicked (widgets env) label)).

(** [st.experimental_rerun()]: stop this run and start another. *)
Definition experimental_rerun {A} : Script A := λ env st,
  (st, Err RerunException).

(** [pd.read_csv(path)]. *)
Definition read_csv (path : string) : Script DataFrame := λ env st,
  (st, match disk env !! path with
       | Some (CsvTable df) => Ok df
       | Some NotCsv => Err (Raise (ParserError path))
       | None => Err (Raise (FileNotFoundError path))
       end).

(** [@st.cache_data] on a function without arguments: the first call that
    returns stores its result, later calls return the stored table. *)
Definition cache_data (f : Script DataFrame) : Script DataFrame := λ env st,
  match cache st with
  | Some df => (st, Ok df)
  | None =>
      match f env st with
      | (st', Ok df) => ({| page := page st'; cache := Some df |}, Ok df)
      | (st', Err sg) => (st', Err sg)
      end
  end.

(** A run from an empty page; the cache is the process's. *)
Definition run {A} (m : Script A) (env : Env) (c : option DataFrame)
    : RunState * result Signal A :=
  m env {| page := []; cache := c |}.

(** ** Lemmas: the monad laws *)

Section monad_laws.
Context {A B C : Type}.
Implicit Types (m : Script A) (f : A → Script B) (g : B → Script C).

#[export] Instance script_equivalence : Equivalence (≡@{Script A}).
Proof.
  split.
  - by intros m env st.
  - intros m1 m2 H env st. by rewrite H.
  - intros m1 m2 m3 H1 H2 env st. by rewrite H1, H2.
Qed.

Lemma script_bind_ret_l (a : A) f : mret a ≫= f ≡ f a.
Proof. by intros env st. Qed.

Lemma script_bind_ret_r m : m ≫= mret ≡ m.
Proof.
  intros env st. unfold mbind, script_bind, mret, script_ret.
  by destruct (m env st) as [st' [a|sg]].
Qed.

Lemma script_bind_assoc m f g : (m ≫= f) ≫= g ≡ m ≫= (λ a, f a ≫= g).
Proof.
  intros env st. unfold mbind, script_bind.
  by destruct (m env st) as [st' [a|sg]].
Qed.

#[export] Instance script_bind_proper :
  Proper (pointwise_relation A (≡) ==> (≡) ==> (≡@{Script B})) mbind.
Proof.
  intros f1 f2 Hf m1 m2 Hm env st. unfold mbind, script_bind.
  rewrite Hm. destruct (m2 env st) as [st' [a|sg]]; [apply Hf|done].
Qed.

(** Unfolding one bind of a run. *)
Lemma script_bind_run m f env st :
  (m ≫= f) env st =
  match m env st with
  | (st', Ok a) => f a env st'
  | (st', Err sg) => (st', Err sg)
  end.
Proof. done. Qed.

Lemma script_bind_Ok m f env st st' a :
  m env st = (st', Ok a) → (m ≫= f) env st = f a env st'.
Proof. intros H. by rewrite script_bind_run, H. Qed.

(** An early exit skips the rest of the script. *)
Lemma script_bind_Err m f env st st' sg :
  m env st = (st', Err sg) → (m ≫= f) env st = (st', Err sg).
Proof. intros H. by rewrite script_bind_run, H. Qed.
End monad_laws.

(** ** Lemmas: what a run may change

    [CacheStable m]: the script never changes a filled cache.  Every call
    of the script has the property, and sequencing keeps it, so a script
    built from the calls has it by instance resolution. *)

Class CacheStable {A} (m : Script A) : Prop :=
  cache_stable env st df :
    cache st = Some df → cache (m env st).1 = Some df.

Section cache_stable.
Context {A B : Type}.
Implicit Types (m : Script A) (f : A → Script B).

#[export] Instance mret_cache_stable (a : A) : CacheStable (mret a).
Proof. by intros env st df. Qed.

#[export] Instance bind_cache_stable m f :
  CacheStable m → (∀ a, CacheStable (f a)) → CacheStable (m ≫= f).
Proof.
  intros Hm Hf env st df Hc. rewrite script_bind_run.
  specialize (Hm env st df Hc).
  destruct (m env st) as [st' [a|sg]]; simpl in *; [by apply Hf|done].
Qed.

#[export] Instance lift_cache_stable (r : result Exn A) : CacheStable (lift r).
Proof. intros env st df. unfold lift. by destruct r. Qed.

#[export] Instance emit_cache_stable c e : CacheStable (emit c e).
Proof. by intros env st df. Qed.

#[export] Instance multiselect_cache_stable c l o d :
  CacheStable (multiselect c l o d).
Proof. by intros env st df. Qed.

#[export] Instance slider_cache_stable c l lo hi v :
  CacheStable (slider c l lo hi v).
Proof. by intros env st df. Qed.

#[export] Instance button_cache_stable c l : CacheStable (button c l).
Proof. by intros env st df. Qed.

#[export] Instance rerun_cache_stable : CacheStable (experimental_rerun (A:=A)).
Proof. by intros env st df. Qed.

#[export] Instance read_csv_cache_stable path : CacheStable (read_csv path).
Proof. by intros env st df. Qed.

#[export] Instance cache_data_cache_stable g : CacheStable (cache_data g).
Proof. intros env st df Hc. unfold cache_data. by rewrite Hc. Qed.

End cache_stable.

(** The elements a script appends in a run. *)
Definition output {A} (m : Script A) (env : Env) (c : option DataFrame)
    : list (Container * Element) :=
  page (run m env c).1.

(** How a script ends. *)
Definition outcome {A} (m : Script A) (env : Env) (c : option DataFrame)
    : result Signal A :=
  (run m env c).2.

(** ** Runs as a relation

    [runs m env c els c' r]: from the cache [c] the script appends [els] to
    whatever page it is given, leaves the cache [c'] and ends with [r]. *)

Definition runs {A} (m : Script A) (env : Env) (c : option DataFrame)
    (els : list (Container * Element)) (c' : option DataFrame)
    (r : result Signal A) : Prop :=
  ∀ p, m env {| page := p; cache := c |} = ({| page := p ++ els; cache := c' |}, r).

Section runs.
Context {A B : Type}.
Implicit Types (m : Script A) (f : A → Script B) (env : Env)
  (c : option DataFrame) (els : list (Container * Element)).

Lemma runs_run m env c els c' r :
  runs m env c els c' r → run m env c = ({| page := els; cache := c' |}, r).
Proof. intros H. apply (H []). Qed.

(** A script has one run. *)
Lemma runs_inj m env c els1 c1 r1 els2 c2 r2 :
  runs m env c els1 c1 r1 → runs m env c els2 c2 r2 →
  els1 = els2 ∧ c1 = c2 ∧ r1 = r2.
Proof. intros H1 H2. specialize (H1 []). rewrite (H2 []) in H1. naive_solver. Qed.

Lemma runs_mret (a : A) env c : runs (mret a) env c [] c (Ok a).
Proof. intros p. unfold mret, script_ret. by rewrite app_nil_r. Qed.

Lemma runs_lift_Ok (a : A) env c : runs (lift (Ok a)) env c [] c (Ok a).
Proof. intros p. unfold lift. by rewrite app_nil_r. Qed.

Lemma runs_lift_Err (e : Exn) env c :
  runs (lift (A:=A) (Err e)) env c [] c (Err (Raise e)).
Proof. intros p. unfold lift. by rewrite app_nil_r. Qed.

Lemma runs_rerun env c :
  runs (experimental_rerun (A:=A)) env c [] c (Err RerunException).
Proof. intros p. unfold experimental_rerun. by rewrite app_nil_r. Qed.

Lemma runs_bind_Ok m f env c els c' a els' c'' r :
  runs m env c els c' (Ok a) → runs (f a) env c' els' c'' r →
  runs (m ≫= f) env c (els ++ els') c'' r.
Proof.
  intros Hm Hf p. rewrite script_bind_run, Hm, Hf. by rewrite app_assoc.
Qed.

Lemma runs_bind_Err m f env c els c' sg :
  runs m env c els c' (Err sg) → runs (m ≫= f) env c els c' (Err sg).
Proof. intros Hm p. by rewrite script_bind_run, Hm. Qed.
End runs.

Lemma runs_emit env c k e : runs (emit k e) env c [(k, e)] c (Ok tt).
Proof. by intros p. Qed.

Lemma runs_multiselect env c k l o d :
  runs (multiselect k l o d) env c
    [(k, Multiselect l o d (widget_list (widgets env) l d))] c
    (Ok (widget_list (widgets env) l d)).
Proof. by intros p. Qed.

Lemma runs_slider env c k l lo hi v :
  runs (slider k l lo hi v) env c
    [(k, Slider l lo hi (widget_range (widgets env) l v))] c
    (Ok (widget_range (widgets env) l v)).
Proof. by intros p. Qed.

Lemma runs_button env c k l :
  runs (button k l) env c [(k, Button l)] c
    (Ok (widget_clicked (widgets env) l)).
Proof. by intros p. Qed.

Lemma runs_st_columns env c n :
  runs (st_columns n) env c [(Main, Columns n)] c (Ok (Column <$> seq 0 n)).
Proof. by intros p. Qed.

(** ** Pages as values

    [View A] is what a run shows and returns when it neither touches the
    cache nor asks for another run: the elements and the value, or the
    exception.  [shows m env v]: in the session [env] the script [m]
    behaves as the value [v], from any page and any cache. *)

Definition View (A : Type) : Type :=
  result Exn (list (Container * Element) * A).

Definition view_ret {A} (a : A) : View A := Ok ([], a).

Definition view_bind {A B} (v : View A) (g : A → View B) : View B :=
  match v with
  | Ok (els, a) =>
      match g a with
      | Ok (els', b) => Ok (els ++ els', b)
      | Err e => Err e
      end
  | Err e => Err e
  end.

(** A pure result as a view that shows nothing. *)
Definition view_lift {A} (r : result Exn A) : View A :=
  match r with
  | Ok a => Ok ([], a)
  | Err e => Err e
  end.

Definition shows {A} (m : Script A) (env : Env) (v : View A) : Prop :=
  ∀ c, match v with
       | Ok (els, a) => runs m env c els c (Ok a)
       | Err e => ∃ els, runs m env c els c (Err (Raise e))
       end.

Section shows.
Context {A B : Type}.
Implicit Types (m : Script A) (f : A → Script B) (env : Env) (v : View A)
  (g : A → View B).

Lemma shows_eq m env v v' : shows m env v' → v' = v → shows m env v.
Proof. by intros ? <-. Qed.

Lemma shows_mret (a : A) env : shows (mret a) env (view_ret a).
Proof. intros c. apply runs_mret. Qed.

Lemma shows_lift (r : result Exn A) env : shows (lift r) env (view_lift r).
Proof.
  intros c. destruct r; simpl; [apply runs_lift_Ok|].
  eexists. apply runs_lift_Err.
Qed.

Lemma shows_bind m f env v g :
  shows m env v → (∀ a, shows (f a) env (g a)) →
  shows (m ≫= f) env (view_bind v g).
Proof.
  intros Hm Hf c. specialize (Hm c). destruct v as [[els a]|e]; simpl.
  - specialize (Hf a c). destruct (g a) as [[els' b]|e].
    + by eapply runs_bind_Ok.
    + destruct Hf as [els' Hf]. eexists. by eapply runs_bind_Ok.
  - destruct Hm as [els Hm]. eexists. by eapply runs_bind_Err.
Qed.

End shows.

Lemma shows_emit env k e : shows (emit k e) env (Ok ([(k, e)], tt)).
Proof. intros c. apply runs_emit. Qed.

Lemma shows_multiselect env k l o d :
  shows (multiselect k l o d) env
    (Ok ([(k, Multiselect l o d (widget_list (widgets env) l d))],
         widget_list (widgets env) l d)).
Proof. intros c. apply runs_multiselect. Qed.

Lemma shows_slider env k l lo hi v :
  shows (slider k l lo hi v) env
    (Ok ([(k, Slider l lo hi (widget_range (widgets env) l v))],
         widget_range (widgets env) l v)).
Proof. intros c. apply runs_slider. Qed.

Lemma shows_button env k l :
  shows (button k l) env (Ok ([(k, Button l)], widget_clicked (widgets env) l)).
Proof. intros c. apply runs_button. Qed.

Lemma shows_st_columns env n :
  shows (st_columns n) env (Ok ([(Main, Columns n)], Column <$> seq 0 n)).
Proof. intros c. apply runs_st_columns. Qed.

Lemma shows_bind_Ok {A B} (m : Script A) (f : A → Script B) env els a v :
  shows m env (Ok (els, a)) → shows (f a) env v →
  shows (m ≫= f) env (view_bind (Ok (els, a)) (λ _, v)).
Proof.
  intros Hm Hf c. specialize (Hm c). specialize (Hf c). simpl in *.
  destruct v as [[els' b]|e].
  - by eapply runs_bind_Ok.
  - destruct Hf as [els' Hf]. eexists. by eapply runs_bind_Ok.
Qed.

(** The view of a script, one call at a time: a call with a known result,
    a pure computation, a branch on a flag that a hypothesis decides, or a
    nested sequence. *)
Ltac shows_prim :=
  first
    [ apply shows_emit | apply shows_multiselect | apply shows_slider
    | apply shows_button | apply shows_st_columns | apply shows_mret ].

Ltac shows_step :=
  first
    [ shows_prim
    | apply shows_lift
    | eapply shows_bind_Ok; [shows_prim|cbv beta; cbn [fmap list_fmap seq]]
    | eapply shows_bind; [apply shows_lift|intros ?]
    | match goal with
      | H : ?b = _ |- shows (if ?b then _ else _) _ _ => rewrite H
      | H : ?b = _ |- shows ((if ?b then _ else _) ≫= _) _ _ => rewrite H
      end
    | eapply shows_bind; [repeat shows_step|intros ?] ].

Ltac solve_shows := repeat shows_step.

Lemma runs_eq {A} (m : Script A) env c els1 c1 r1 els c' r :
  runs m env c els1 c1 r1 → els1 = els → c1 = c' → r1 = r →
  runs m env c els c' r.
Proof. by intros ? <- <- <-. Qed.

(** The run of a script whose pure parts are values, one call at a time. *)
Ltac runs_step :=
  first
    [ apply runs_emit | apply runs_multiselect | apply runs_slider
    | apply runs_button | apply runs_st_columns | apply runs_lift_Ok
    | apply runs_lift_Err | apply runs_rerun | apply runs_mret
    | match goal with
      | H : ?b = _ |- runs ((if ?b then _ else _) ≫= _) _ _ _ _ _ => rewrite H
      end
    | eapply runs_bind_Ok; [solve [repeat (cbv beta iota; runs_step)]|]
    | eapply runs_bind_Err; solve [repeat (cbv beta iota; runs_step)] ].

Ltac solve_runs :=
  eapply runs_eq; [repeat (cbv beta iota; runs_step)|reflexivity..].

(** ** Lemmas: the stored widget values *)

Section widgets.
Implicit Types (w : gmap string WidgetValue) (l : string) (x : WidgetValue).

Lemma widget_list_insert w l v d : widget_list (<[l := WList v]> w) l d = v.
Proof. unfold widget_list. by rewrite lookup_insert_eq. Qed.

Lemma widget_range_insert w l v d : widget_range (<[l := WRange v]> w) l d = v.
Proof. unfold widget_range. by rewrite lookup_insert_eq. Qed.

Lemma widget_clicked_None w l : w !! l = None → widget_clicked w l = false.
Proof. unfold widget_clicked. intros ->. by apply bool_decide_eq_false. Qed.

(** A widget reads the value stored under its own label only. *)
Lemma widget_list_insert_ne w l l' x d :
  l ≠ l' → widget_list (<[l' := x]> w) l d = widget_list w l d.
Proof. intros ?. unfold widget_list. by rewrite lookup_insert_ne. Qed.

Lemma widget_range_insert_ne w l l' x d :
  l ≠ l' → widget_range (<[l' := x]> w) l d = widget_range w l d.
Proof. intros ?. unfold widget_range. by rewrite lookup_insert_ne. Qed.

Lemma widget_list_delete_ne w l l' d :
  l ≠ l' → widget_list (delete l' w) l d = widget_list w l d.
Proof. intros ?. unfold widget_list. by rewrite lookup_delete_ne. Qed.

Lemma widget_range_delete_ne w l l' d :
  l ≠ l' → widget_range (delete l' w) l d = widget_range w l d.
Proof. intros ?. unfold widget_range. by rewrite lookup_delete_ne. Qed.
End widgets.
