(* ===== verification/Filter.v ===== *)
(** * Filter: the sidebar defaults and the filter engine

    Lines 38-58 of [src/main.py] compute, from the table, what the three
    sidebar controls offer: the distinct present values of two text columns
    and the least and greatest present rating.  Lines 64-68 build three
    boolean columns, combine them with [&] and index the table with the
    result.  [selected] is the same test read row by row; the theorems
    relate the two, state what the filtered view contains, and what the
    controls offer and in which order. *)

From S2P Require Import Prelude Series Frame.

Local Open Scope string_scope.

(** ** Definitions *)

(** [df["DepartmentType"].dropna().unique()]: the options, and the default,
    of the department control. *)
Definition department_options (df : DataFrame) : result Exn (list string) :=
  s ← getitem_text df "DepartmentType"; mret (unique (dropna s)).

(** [df["EmployeeStatus"].dropna().unique()]. *)
Definition status_options (df : DataFrame) : result Exn (list string) :=
  s ← getitem_text df "EmployeeStatus"; mret (unique (dropna s)).

(** [float(df["Current Employee Rating"].min())]: the column is numeric in
    the model, so [float] is the identity. *)
Definition rating_min (df : DataFrame) : result Exn float :=
  s ← getitem_num df "Current Employee Rating"; mret (series_min s).

(** [float(df["Current Employee Rating"].max())]. *)
Definition rating_max (df : DataFrame) : result Exn float :=
  s ← getitem_num df "Current Employee Rating"; mret (series_max s).

(** The filtered view: [df[m1 & m2 & m3]]. *)
Definition filtered_df (df : DataFrame) (department status : list string)
    (rating_range : float * float) : result Exn DataFrame :=
  d ← getitem_text df "DepartmentType";
  s ← getitem_text df "EmployeeStatus";
  r ← getitem_num df "Current Employee Rating";
  mret (getitem_rows df
          (mask_and (mask_and (isin d department) (isin s status))
                    (between r rating_range.1 rating_range.2))).

(** The three predicates on one row. *)
Definition selected (department status : list string)
    (rating_range : float * float) (r : Row) : bool :=
  cell_isin department (DepartmentType r)
  && cell_isin status (EmployeeStatus r)
  && cell_between rating_range.1 rating_range.2 (Current_Employee_Rating r).

(** The columns the controls and the filter read. *)
Definition filter_columns : list string :=
  ["DepartmentType"; "EmployeeStatus"; "Current Employee Rating"].

(** A row with a value in each of the three filtered columns. *)
Definition filterable (r : Row) : Prop :=
  is_Some (DepartmentType r) ∧ is_Some (EmployeeStatus r)
  ∧ is_Some (Current_Employee_Rating r).

#[export] Instance filterable_dec r : Decision (filterable r).
Proof. unfold filterable. apply _. Defined.

(** ** Lemmas *)

Section filter_lemmas.
Implicit Types (df fdf : DataFrame) (d s : list string) (rr : float * float)
  (r : Row).

Lemma selected_true d s rr r :
  selected d s rr r = true ↔
  (∃ x, DepartmentType r = Some x ∧ x ∈ d)
  ∧ (∃ x, EmployeeStatus r = Some x ∧ x ∈ s)
  ∧ (∃ lo hi q, rr = (Some lo, Some hi) ∧ Current_Employee_Rating r = Some q
       ∧ (lo <= q <= hi)%Q).
Proof.
  unfold selected.
  rewrite !andb_true_iff, !cell_isin_true, cell_between_true.
  destruct rr as [lo hi]. simpl. naive_solver.
Qed.

Lemma selected_filterable d s rr r : selected d s rr r = true → filterable r.
Proof. rewrite selected_true. unfold filterable, is_Some. naive_solver. Qed.

Lemma filter_columns_in df :
  filter_columns ⊆ columns df ↔
  "DepartmentType" ∈ columns df ∧ "EmployeeStatus" ∈ columns df
  ∧ "Current Employee Rating" ∈ columns df.
Proof. unfold filter_columns. set_solver. Qed.

Lemma complete_filter_columns df : complete df → filter_columns ⊆ columns df.
Proof. unfold complete, schema, filter_columns. set_solver. Qed.

(** With the three columns present, the mask pipeline is a filter of the
    rows. *)
Lemma filtered_df_Ok df d s rr :
  filter_columns ⊆ columns df →
  filtered_df df d s rr
  = Ok {| columns := columns df;
          rows := filter (λ r, selected d s rr r = true) (rows df) |}.
Proof.
  intros (Hd & Hs & Hr)%filter_columns_in. unfold filtered_df.
  rewrite (getitem_text_Ok df "DepartmentType" DepartmentType),
    (getitem_text_Ok df "EmployeeStatus" EmployeeStatus),
    (getitem_num_Ok df _ Current_Employee_Rating) by done. simpl.
  unfold getitem_rows, isin, between. rewrite <-!list_fmap_compose.
  by rewrite !mask_and_fmap, getitem_mask_fmap.
Qed.

Lemma filtered_df_Ok_inv df d s rr fdf :
  filtered_df df d s rr = Ok fdf → filter_columns ⊆ columns df.
Proof.
  unfold filtered_df. intros H. result_inv.
  getitem_inv.
  by apply filter_columns_in.
Qed.

Lemma filtered_df_rows df d s rr fdf :
  filtered_df df d s rr = Ok fdf →
  columns fdf = columns df
  ∧ rows fdf = filter (λ r, selected d s rr r = true) (rows df).
Proof.
  intros H. pose proof (filtered_df_Ok_inv _ _ _ _ _ H) as Hc.
  rewrite filtered_df_Ok in H by done. by simplify_eq.
Qed.

Lemma elem_of_filtered_df df d s rr fdf r :
  filtered_df df d s rr = Ok fdf →
  r ∈ rows fdf ↔ r ∈ rows df ∧ selected d s rr r = true.
Proof. intros [_ ->]%filtered_df_rows. rewrite list_elem_of_filter. tauto. Qed.

(** A record of a view: its department is selected and its rating lies in
    the range. *)
Lemma view_row_selected df d s lo hi fdf r :
  filtered_df df d s (Some lo, Some hi) = Ok fdf → r ∈ rows fdf →
  (∃ x, DepartmentType r = Some x ∧ x ∈ d) ∧
  ∃ q, Current_Employee_Rating r = Some q ∧ (lo <= q <= hi)%Q.
Proof.
  intros Hf [_ Hr]%(elem_of_filtered_df _ _ _ _ _ _ Hf).
  apply selected_true in Hr as (? & _ & (? & ? & q & ? & ? & ?)).
  split; [done|]. exists q. by simplify_eq.
Qed.

Lemma filtered_df_sublist df d s rr fdf :
  filtered_df df d s rr = Ok fdf → rows fdf `sublist_of` rows df.
Proof. intros [_ ->]%filtered_df_rows. apply sublist_filter. Qed.

Lemma filtered_df_wf df d s rr fdf :
  filtered_df df d s rr = Ok fdf → wf_frame df → wf_frame fdf.
Proof.
  intros H [? ?]. pose proof (filtered_df_sublist _ _ _ _ _ H).
  apply filtered_df_rows in H as [Hc _]. split; [by rewrite Hc|].
  eapply StronglySorted_sublist; [by apply fmap_sublist|done].
Qed.

Lemma filtered_df_complete df d s rr fdf :
  filtered_df df d s rr = Ok fdf → complete df → complete fdf.
Proof. intros [Hc _]%filtered_df_rows. unfold complete. by rewrite Hc. Qed.

(** Every row of the view has a value in each filtered column. *)
Lemma filtered_df_filterable df d s rr fdf :
  filtered_df df d s rr = Ok fdf → Forall filterable (rows fdf).
Proof.
  intros H. apply Forall_forall. intros r [_ Hr]%(elem_of_filtered_df _ _ _ _ _ _ H).
  by eapply selected_filterable.
Qed.

(** With the default of every control, a row passes iff it has a value in
    each filtered column. *)
Lemma selected_default df r :
  r ∈ rows df →
  selected (unique (dropna (DepartmentType <$> rows df)))
    (unique (dropna (EmployeeStatus <$> rows df)))
    (series_min (Current_Employee_Rating <$> rows df),
     series_max (Current_Employee_Rating <$> rows df)) r = true
  ↔ filterable r.
Proof.
  intros Hr. split; [apply selected_filterable|].
  intros ([x Hx] & [y Hy] & [q Hq]). apply selected_true.
  assert (Some q ∈ Current_Employee_Rating <$> rows df) as Hin.
  { rewrite <-Hq. by apply list_elem_of_fmap_2. }
  destruct (series_min _) as [lo|] eqn:Hlo;
    [|apply series_min_None in Hlo; apply elem_of_dropna in Hin;
      rewrite Hlo in Hin; by apply elem_of_nil in Hin].
  destruct (series_max _) as [hi|] eqn:Hhi;
    [|apply series_max_None in Hhi; apply elem_of_dropna in Hin;
      rewrite Hhi in Hin; by apply elem_of_nil in Hin].
  split_and!.
  - exists x. split; [done|]. apply elem_of_unique, elem_of_dropna.
    rewrite <-Hx. by apply list_elem_of_fmap_2.
  - exists y. split; [done|]. apply elem_of_unique, elem_of_dropna.
    rewrite <-Hy. by apply list_elem_of_fmap_2.
  - exists lo, hi, q. split_and!; [done..| |].
    + by eapply series_min_lower.
    + by eapply series_max_upper.
Qed.

Lemma filtered_df_default_rows df d s lo hi :
  department_options df = Ok d → status_options df = Ok s →
  rating_min df = Ok lo → rating_max df = Ok hi →
  filtered_df df d s (lo, hi)
  = Ok {| columns := columns df; rows := filter filterable (rows df) |}.
Proof.
  unfold department_options, status_options, rating_min, rating_max.
  intros Hd Hs Hlo Hhi. result_inv.
  getitem_inv.
  rewrite filtered_df_Ok by (by apply filter_columns_in). do 2 f_equal.
  apply filter_ext_in. intros r Hr. by apply selected_default.
Qed.
End filter_lemmas.

#[export] Hint Resolve filtered_df_wf filtered_df_complete filtered_df_sublist
  filtered_df_filterable complete_filter_columns : frame.

(** ** Theorems *)

Section filter_theorems.
Implicit Types (df fdf : DataFrame) (d s : list string) (rr : float * float)
  (r : Row).

(** C6 (refinement).  The filter of lines 64-68, written with three boolean
    columns and [&], is the row-by-row filter by [selected]; it raises
    [KeyError] for the first of DepartmentType, EmployeeStatus and Current
    Employee Rating that the header lacks, and in no other case. *)
Theorem filtered_df_refines_row_filter df d s rr :
  filtered_df df d s rr =
  match filter (λ n, n ∉ columns df) filter_columns with
  | [] => Ok {| columns := columns df;
                rows := filter (λ r, selected d s rr r = true) (rows df) |}
  | n :: _ => Err (KeyError n)
  end.
Proof.
  unfold filter_columns. rewrite !filter_cons, filter_nil.
  destruct (decide ("DepartmentType" ∉ columns df)) as [H1|H1%dec_stable].
  { unfold filtered_df.
    by rewrite (getitem_text_KeyError df "DepartmentType"). }
  destruct (decide ("EmployeeStatus" ∉ columns df)) as [H2|H2%dec_stable].
  { unfold filtered_df.
    by rewrite (getitem_text_Ok df "DepartmentType" DepartmentType),
      (getitem_text_KeyError df "EmployeeStatus"). }
  destruct (decide ("Current Employee Rating" ∉ columns df))
    as [H3|H3%dec_stable]; [|by apply filtered_df_Ok, filter_columns_in].
  unfold filtered_df.
  by rewrite (getitem_text_Ok df "DepartmentType" DepartmentType),
    (getitem_text_Ok df "EmployeeStatus" EmployeeStatus),
    (getitem_num_KeyError df "Current Employee Rating").
Qed.

(** C1 (soundness and completeness).  A record is in the filtered view
    exactly when it is in the table, its department is one of the selected
    departments, its status one of the selected statuses, and its rating
    lies in the closed range; a record with a missing value in one of the
    three columns is never in the view. *)
Theorem filtered_df_sound_complete df d s rr fdf r :
  filtered_df df d s rr = Ok fdf →
  r ∈ rows fdf ↔
    r ∈ rows df
    ∧ (∃ x, DepartmentType r = Some x ∧ x ∈ d)
    ∧ (∃ x, EmployeeStatus r = Some x ∧ x ∈ s)
    ∧ (∃ lo hi q, rr = (Some lo, Some hi)
         ∧ Current_Employee_Rating r = Some q ∧ (lo <= q <= hi)%Q).
Proof.
  intros H. by rewrite (elem_of_filtered_df _ _ _ _ _ _ H), selected_true.
Qed.

Lemma filtered_df_sound_complete_witness :
  mkRow 3 (Some "Sales") (Some "Active") (Some "Contract") (Some 4%Q)
      (Some "Fully Meets")
    ∈ filter (λ r, selected ["Sales"] ["Active"] (Some 0%Q, Some 5%Q) r = true)
        sample_rows
  ↔ mkRow 3 (Some "Sales") (Some "Active") (Some "Contract") (Some 4%Q)
      (Some "Fully Meets") ∈ sample_rows
    ∧ (∃ x, Some "Sales" = Some x ∧ x ∈ ["Sales"])
    ∧ (∃ x, Some "Active" = Some x ∧ x ∈ ["Active"])
    ∧ (∃ lo hi q, (Some 0%Q, Some 5%Q) = (Some lo, Some hi)
         ∧ Some 4%Q = Some q ∧ (lo <= q <= hi)%Q).
Proof.
  apply (filtered_df_sound_complete sample_df ["Sales"] ["Active"]
    (Some 0%Q, Some 5%Q)
    {| columns := schema;
       rows := filter
         (λ r, selected ["Sales"] ["Active"] (Some 0%Q, Some 5%Q) r = true)
         sample_rows |}).
  vm_compute. reflexivity.
Defined.

(** Idempotence.  Filtering the filtered view again with the same
    selections and range gives the same view. *)
Theorem filtered_df_idempotent df d s rr fdf :
  filtered_df df d s rr = Ok fdf → filtered_df fdf d s rr = Ok fdf.
Proof.
  intros H. pose proof (filtered_df_Ok_inv _ _ _ _ _ H) as Hc.
  apply filtered_df_rows in H as [Hcols Hrows].
  rewrite filtered_df_Ok by (by rewrite Hcols).
  destruct fdf as [cols rs]; simplify_eq/=. do 2 f_equal.
  rewrite list_filter_filter. apply list_filter_iff. tauto.
Qed.

Lemma filtered_df_idempotent_witness :
  filtered_df
    {| columns := schema;
       rows := filter
         (λ r, selected ["Sales"] ["Active"] (Some 0%Q, Some 5%Q) r = true)
         sample_rows |}
    ["Sales"] ["Active"] (Some 0%Q, Some 5%Q)
  = Ok {| columns := schema;
          rows := filter
            (λ r, selected ["Sales"] ["Active"] (Some 0%Q, Some 5%Q) r = true)
            sample_rows |}.
Proof.
  apply (filtered_df_idempotent sample_df). vm_compute. reflexivity.
Defined.
(** Default view.  With every control at its default (all offered
    departments, all offered statuses, the range from the least to the
    greatest rating) the view holds exactly the records that have a value in
    each of the three filtered columns, in table order. *)
Theorem filtered_df_default df d s lo hi :
  department_options df = Ok d → status_options df = Ok s →
  rating_min df = Ok lo → rating_max df = Ok hi →
  ∃ fdf, filtered_df df d s (lo, hi) = Ok fdf
    ∧ columns fdf = columns df
    ∧ rows fdf = filter filterable (rows df).
Proof. intros. eexists. by rewrite filtered_df_default_rows. Qed.

Lemma filtered_df_default_witness :
  ∃ fdf,
    filtered_df sample_na ["Sales"; "Eng"] ["Active"; "Terminated"]
      (Some 1%Q, Some 5%Q) = Ok fdf
    ∧ columns fdf = columns sample_na
    ∧ rows fdf = filter filterable (rows sample_na).
Proof.
  apply (filtered_df_default sample_na); vm_compute; reflexivity.
Defined.

(** C17 (default view and the whole table).  The default view is the whole
    table exactly when no record has a missing value in a filtered column:
    a table with such records is not restored by going back to the
    defaults. *)
Theorem filtered_df_default_is_df df d s lo hi :
  department_options df = Ok d → status_options df = Ok s →
  rating_min df = Ok lo → rating_max df = Ok hi →
  filtered_df df d s (lo, hi) = Ok df ↔ Forall filterable (rows df).
Proof.
  intros. rewrite filtered_df_default_rows by done. destruct df as [cols rs].
  simpl. split.
  - intros [= Hrs]. by eapply filter_all_inv.
  - intros Hrs. by rewrite filter_all.
Qed.

Lemma filtered_df_default_is_df_witness :
  filtered_df sample_df ["Sales"; "Eng"] ["Active"; "Terminated"]
    (Some 1%Q, Some 5%Q) = Ok sample_df
  ↔ Forall filterable (rows sample_df).
Proof.
  apply (filtered_df_default_is_df sample_df); vm_compute; reflexivity.
Defined.

(** C34 (vacuous filters).  On a table with the three filtered columns, an
    empty selection of departments or of statuses, a range with a NaN
    bound and an inverted range are not errors: the filter returns, without
    exception, the view with the columns of the table and no row. *)
Theorem filtered_df_vacuous df d s rr :
  filter_columns ⊆ columns df →
  d = [] ∨ s = [] ∨ rr.1 = None ∨ rr.2 = None
    ∨ (∃ lo hi, rr = (Some lo, Some hi) ∧ (hi < lo)%Q) →
  filtered_df df d s rr = Ok {| columns := columns df; rows := [] |}.
Proof.
  intros Hcols Hcase. rewrite filtered_df_Ok by done. do 2 f_equal.
  apply filter_none, Forall_forall. intros r _. rewrite selected_true.
  intros ((x & _ & Hx) & (y & _ & Hy) & (lo & hi & q & -> & _ & ? & ?)).
  destruct Hcase as [->|[->|[?|[?|(lo' & hi' & ? & ?)]]]]; simplify_eq/=.
  - by apply elem_of_nil in Hx.
  - by apply elem_of_nil in Hy.
  - lra.
Qed.

Lemma filtered_df_vacuous_witness :
  filtered_df sample_df ["Sales"; "Eng"] ["Active"] (Some 4%Q, Some 1%Q)
  = Ok {| columns := schema; rows := [] |}.
Proof.
  apply (filtered_df_vacuous sample_df ["Sales"; "Eng"] ["Active"]
    (Some 4%Q, Some 1%Q)).
  - apply complete_filter_columns. by intros x.
  - do 4 right. exists 4%Q, 1%Q. split; reflexivity.
Defined.

(** Monotonicity.  Selecting more departments, more statuses or a wider
    range never removes a record from the view, and keeps the order. *)
Theorem filtered_df_monotone df d s lo hi fdf d' s' lo' hi' fdf' :
  d ⊆ d' → s ⊆ s' → fle lo' lo = true → fle hi hi' = true →
  filtered_df df d s (lo, hi) = Ok fdf →
  filtered_df df d' s' (lo', hi') = Ok fdf' →
  rows fdf `sublist_of` rows fdf'.
Proof.
  intros Hd Hs Hlo Hhi [_ ->]%filtered_df_rows [_ ->]%filtered_df_rows.
  rewrite <-(list_filter_filter_l _
    (λ r, selected d' s' (lo', hi') r = true)); [apply sublist_filter|].
  intros r. rewrite !selected_true.
  apply fle_true in Hlo as (a' & a & -> & -> & ?).
  apply fle_true in Hhi as (b & b' & -> & -> & ?).
  intros ((x & ? & ?) & (y & ? & ?) & (? & ? & q & ? & ? & ? & ?));
    simplify_eq. split_and!; [by eauto..|].
  exists a', b', q. split_and!; [done..| |]; by etrans.
Qed.

Lemma filtered_df_monotone_witness :
  filter (λ r, selected ["Sales"] ["Active"] (Some 2%Q, Some 3%Q) r = true)
    sample_rows
  `sublist_of`
  filter (λ r, selected ["Sales"; "Eng"] ["Active"] (Some 1%Q, Some 5%Q) r
               = true) sample_rows.
Proof.
  apply (filtered_df_monotone sample_df ["Sales"] ["Active"] (Some 2%Q)
    (Some 3%Q) (mkFrame schema _) ["Sales"; "Eng"] ["Active"] (Some 1%Q)
    (Some 5%Q) (mkFrame schema _)); try (vm_compute; reflexivity);
    set_solver.
Defined.

(** Selections are sets.  The view depends on the selections only as
    sets (order and repetitions do not matter) and on the bounds only up to
    equality of rationals. *)
Theorem filtered_df_selection_as_set df d s rr d' s' rr' :
  d ≡ₛ d' → s ≡ₛ s' → rr ≡ rr' →
  filtered_df df d s rr = filtered_df df d' s' rr'.
Proof.
  intros Hd Hs [Hlo Hhi]. unfold filtered_df.
  destruct (getitem_text df "DepartmentType") as [x|]; [simpl|done].
  destruct (getitem_text df "EmployeeStatus") as [y|]; [simpl|done].
  destruct (getitem_num df _) as [z|]; [simpl|done].
  do 3 f_equal; [f_equal|]; apply list_fmap_ext; intros _ c _.
  - by apply cell_isin_proper.
  - by apply cell_isin_proper.
  - by apply cell_between_proper.
Qed.

Lemma filtered_df_selection_as_set_witness :
  filtered_df sample_df ["Sales"; "Eng"] ["Active"] (Some (1 # 2)%Q, Some 5%Q)
  = filtered_df sample_df ["Eng"; "Sales"; "Eng"] ["Active"; "Active"]
      (Some (2 # 4)%Q, Some (10 # 2)%Q).
Proof.
  apply filtered_df_selection_as_set.
  - intros x. rewrite !elem_of_cons. tauto.
  - intros x. rewrite !elem_of_cons. tauto.
  - split; constructor; reflexivity.
Defined.

(** C36 (options of the two selection controls).  On a table with the two
    columns, the options of each control are computed without exception
    and list the values of its column in the order of their first
    occurrence ([first_seen]): every value that occurs in a record is
    offered once, a missing cell is never offered, and the values offered
    before a value [x] are those that occur in the column before the first
    [x]. *)
Theorem sidebar_options_spec df :
  "DepartmentType" ∈ columns df → "EmployeeStatus" ∈ columns df →
  ∃ d s,
    department_options df = Ok d ∧ status_options df = Ok s
    ∧ first_seen (dropna (DepartmentType <$> rows df)) d
    ∧ first_seen (dropna (EmployeeStatus <$> rows df)) s
    ∧ (∀ x, x ∈ d ↔ ∃ r, r ∈ rows df ∧ DepartmentType r = Some x)
    ∧ (∀ x, x ∈ s ↔ ∃ r, r ∈ rows df ∧ EmployeeStatus r = Some x).
Proof.
  intros Hd Hs. unfold department_options, status_options.
  rewrite (getitem_text_Ok df _ DepartmentType),
    (getitem_text_Ok df _ EmployeeStatus) by done.
  eexists _, _.
  split_and!; [done|done|apply unique_first_seen|apply unique_first_seen|..];
    intros x; rewrite elem_of_unique, elem_of_dropna, list_elem_of_fmap;
    naive_solver.
Qed.

Lemma sidebar_options_spec_witness :
  department_options sample_na = Ok ["Sales"; "Eng"]
  ∧ status_options sample_na = Ok ["Active"; "Terminated"]
  ∧ first_seen (dropna (EmployeeStatus <$> rows sample_na))
      ["Active"; "Terminated"].
Proof.
  destruct (sidebar_options_spec sample_na) as (d & s & Hd & Hs & _ & Fs & _);
    [compute_done..|].
  vm_compute in Hd, Hs. by simplify_eq.
Defined.

(** C37 (bounds of the range control).  The two bounds are NaN together,
    exactly when no record has a rating; otherwise they are ratings of the
    table, the lower is at most the upper, and every rating of the table
    lies between them. *)
Theorem rating_bounds_spec df lo hi :
  rating_min df = Ok lo → rating_max df = Ok hi →
  (lo = None ↔ hi = None)
  ∧ (lo = None ↔ ∀ r, r ∈ rows df → Current_Employee_Rating r = None)
  ∧ (∀ a b, lo = Some a → hi = Some b →
       (a <= b)%Q
       ∧ (∃ r, r ∈ rows df ∧ Current_Employee_Rating r = Some a)
       ∧ (∃ r, r ∈ rows df ∧ Current_Employee_Rating r = Some b)
       ∧ ∀ r q, r ∈ rows df → Current_Employee_Rating r = Some q →
           (a <= q <= b)%Q).
Proof.
  unfold rating_min, rating_max. intros Hlo Hhi. result_inv.
  getitem_inv.
  split_and!.
  - by rewrite series_min_None, series_max_None.
  - rewrite series_min_None, dropna_nil_inv, Forall_fmap, Forall_forall. done.
  - intros a b Ha Hb. split_and!.
    + by eapply series_min_le_max.
    + apply series_min_elem, list_elem_of_fmap in Ha. naive_solver.
    + apply series_max_elem, list_elem_of_fmap in Hb. naive_solver.
    + intros r q Hr Hq.
      assert (Some q ∈ Current_Employee_Rating <$> rows df)
        by (rewrite <-Hq; by apply list_elem_of_fmap_2).
      split; [by eapply series_min_lower|by eapply series_max_upper].
Qed.

Lemma rating_bounds_spec_witness :
  (Some 1%Q = None ↔ Some 5%Q = None)
  ∧ (Some 1%Q = None
       ↔ ∀ r, r ∈ rows sample_na → Current_Employee_Rating r = None)
  ∧ (∀ a b, Some 1%Q = Some a → Some 5%Q = Some b →
       (a <= b)%Q
       ∧ (∃ r, r ∈ rows sample_na ∧ Current_Employee_Rating r = Some a)
       ∧ (∃ r, r ∈ rows sample_na ∧ Current_Employee_Rating r = Some b)
       ∧ ∀ r q, r ∈ rows sample_na → Current_Employee_Rating r = Some q →
           (a <= q <= b)%Q).
Proof.
  apply (rating_bounds_spec sample_na); vm_compute; reflexivity.
Defined.
End filter_theorems.
