(* ===== verification/Aggregate.v ===== *)
(** * Aggregate: the three metrics, the four chart tables and the detail table

    Everything here is computed from the filtered view [filtered_df]:
    - lines 77-79: [total_emp], [active_emp], [avg_rating];
    - lines 90-91, 106-107, 121-122: the tables of counts [dept_count],
      [perf_count], [type_count];
    - lines 137-142: the table of mean ratings per department [dept_perf];
    - lines 93-100, 109-115, 124-131, 144-151: the figures [fig1] .. [fig4];
    - lines 158-166: the five columns of the drill-down table, [details]. *)

From S2P Require Import Prelude Series Frame Plotly Filter.

Local Open Scope string_scope.

(** ** Definitions *)

(** [len(filtered_df)]. *)
Definition total_emp (fdf : DataFrame) : nat := len fdf.

(** [len(filtered_df[filtered_df["EmployeeStatus"] == "Active"])]. *)
Definition active_emp (fdf : DataFrame) : result Exn nat :=
  s ← getitem_text fdf "EmployeeStatus";
  mret (len (getitem_rows fdf (eq_scalar s "Active"))).

(** [round(filtered_df["Current Employee Rating"].mean(), 2)]. *)
Definition avg_rating (fdf : DataFrame) : result Exn float :=
  s ← getitem_num fdf "Current Employee Rating"; mret (round2 (mean s)).

(** [filtered_df["DepartmentType"].value_counts().reset_index()] with the
    columns renamed to Department and Employees. *)
Definition dept_count (fdf : DataFrame) : result Exn Table :=
  s ← getitem_text fdf "DepartmentType";
  mret (count_table "Department" "Employees" (value_counts s)).

Definition perf_count (fdf : DataFrame) : result Exn Table :=
  s ← getitem_text fdf "Performance Score";
  mret (count_table "Performance Score" "Employees" (value_counts s)).

Definition type_count (fdf : DataFrame) : result Exn Table :=
  s ← getitem_text fdf "EmployeeType";
  mret (count_table "Employee Type" "Employees" (value_counts s)).

(** [filtered_df.groupby("DepartmentType")["Current Employee Rating"]
    .mean().reset_index()]. *)
Definition dept_perf (fdf : DataFrame) : result Exn Table :=
  k ← getitem_text fdf "DepartmentType";
  v ← getitem_num fdf "Current Employee Rating";
  mret (mean_table "DepartmentType" "Current Employee Rating"
          (groupby_mean String.leb (zip k v))).

(** The four figures, each with [update_layout(transition_duration=600)]. *)
Definition fig1 (dept_count : Table) : result Exn Figure :=
  fig ← px_bar dept_count "Department" "Employees" (TextColumn "Employees")
          "Department";
  mret (update_layout fig 600).

Definition fig2 (perf_count : Table) : result Exn Figure :=
  fig ← px_pie perf_count "Performance Score" "Employees" (4 # 10);
  mret (update_layout fig 600).

Definition fig3 (type_count : Table) : result Exn Figure :=
  fig ← px_bar type_count "Employee Type" "Employees" (TextColumn "Employees")
          "Employee Type";
  mret (update_layout fig 600).

Definition fig4 (dept_perf : Table) : result Exn Figure :=
  fig ← px_bar dept_perf "DepartmentType" "Current Employee Rating" TextAuto
          "DepartmentType";
  mret (update_layout fig 600).

(** The five columns of the drill-down table. *)
Definition details (fdf : DataFrame) : result Exn DataFrame :=
  getitem_columns fdf
    ["DepartmentType"; "EmployeeStatus"; "EmployeeType";
     "Current Employee Rating"; "Performance Score"].

(** The counts in a table of counts, and the means in a table of means. *)
Definition table_counts (t : Table) : list nat :=
  omap (λ e, match e.2 with SInt n => Some n | SFloat _ => None end) (entries t).

Definition table_means (t : Table) : list float :=
  omap (λ e, match e.2 with SFloat x => Some x | SInt _ => None end) (entries t).

(** The rows of one department. *)
Definition dept_rows (k : string) (rs : list Row) : list Row :=
  filter (λ r, DepartmentType r = Some k) rs.

(** The present ratings of a list of rows. *)
Definition ratings (rs : list Row) : list Q := dropna (Current_Employee_Rating <$> rs).

(** Two records whose mean rating, 1.125, lies halfway between two values
    of two decimals. *)
Definition sample_tie : DataFrame :=
  mkFrame schema
    [ mkRow 0 (Some "Sales") (Some "Active") (Some "Full-Time") (Some 1%Q)
        (Some "Exceeds");
      mkRow 1 (Some "Sales") (Some "Active") (Some "Contract")
        (Some (5 # 4)%Q) (Some "Exceeds") ].

(** ** Lemmas *)

Section aggregate_lemmas.
Implicit Types (df fdf : DataFrame) (rs : list Row) (k : string) (t : Table).

Lemma table_counts_count_table a b counts :
  table_counts (count_table a b counts) = counts.*2.
Proof.
  unfold table_counts. simpl. induction counts as [|[k n] l IH]; [done|].
  simpl. by f_equal.
Qed.

Lemma table_means_mean_table a b means :
  table_means (mean_table a b means) = means.*2.
Proof.
  unfold table_means. simpl. induction means as [|[k n] l IH]; [done|].
  simpl. by f_equal.
Qed.

Lemma active_emp_Ok fdf :
  "EmployeeStatus" ∈ columns fdf →
  active_emp fdf
  = Ok (length (filter (λ r, EmployeeStatus r = Some "Active") (rows fdf))).
Proof.
  intros ?. unfold active_emp.
  rewrite (getitem_text_Ok fdf "EmployeeStatus" EmployeeStatus) by done.
  simpl. unfold len, eq_scalar. simpl. rewrite <-list_fmap_compose.
  rewrite getitem_mask_fmap. do 2 f_equal. apply list_filter_iff.
  intros r. simpl. apply cell_eq_true.
Qed.

(** The rating cells of the group of [k] are those of the rows of [k]. *)
Lemma group_values_dept_rows k rs :
  group_values k ((λ r, (DepartmentType r, Current_Employee_Rating r)) <$> rs)
  = Current_Employee_Rating <$> dept_rows k rs.
Proof.
  unfold group_values, dept_rows. induction rs as [|r rs IH]; [done|].
  rewrite fmap_cons, !filter_cons. simpl.
  repeat case_decide; try done; simpl; by f_equal.
Qed.

(** The occurrences of a department in its column are its rows. *)
Lemma count_dept_rows k rs :
  count k (dropna (DepartmentType <$> rs)) = length (dept_rows k rs).
Proof.
  unfold count, dept_rows.
  induction rs as [|r rs IH]; [done|]. rewrite fmap_cons, dropna_cons.
  rewrite (filter_cons _ r). destruct (DepartmentType r) as [x|] eqn:E;
    [rewrite filter_cons|]; repeat case_decide; simplify_eq/=; by rewrite ?IH.
Qed.

(** The present cells of a column, counted row by row. *)
Lemma dropna_length_filter (f : Row → option string) rs :
  length (dropna (f <$> rs)) = length (filter (λ r, is_Some (f r)) rs).
Proof.
  induction rs as [|r rs IH]; [done|]. rewrite fmap_cons, dropna_cons.
  destruct (f r) as [x|] eqn:E.
  - rewrite filter_cons_True by (by rewrite E). simpl. by rewrite IH.
  - rewrite filter_cons_False by (rewrite E; by intros []). done.
Qed.

Lemma dropna_length_present {A} (s : list (option A)) :
  Forall is_Some s → length (dropna s) = length s.
Proof.
  intros H%dropna_present. rewrite <-H at 2. by rewrite length_fmap.
Qed.

(** In a view, the three filtered columns have no missing cell. *)
Lemma filterable_DepartmentType rs :
  Forall filterable rs → Forall is_Some (DepartmentType <$> rs).
Proof.
  rewrite Forall_fmap. intros H. eapply Forall_impl; [done|].
  by intros r (? & ? & ?).
Qed.

Lemma filterable_rating rs :
  Forall filterable rs → Forall is_Some (Current_Employee_Rating <$> rs).
Proof.
  rewrite Forall_fmap. intros H. eapply Forall_impl; [done|].
  by intros r (? & ? & ?).
Qed.

Lemma ratings_length rs : Forall filterable rs → length (ratings rs) = length rs.
Proof.
  intros H%filterable_rating. unfold ratings.
  by rewrite dropna_length_present, length_fmap.
Qed.

Lemma ratings_nil rs : Forall filterable rs → ratings rs = [] ↔ rs = [].
Proof.
  intros H. rewrite <-!length_zero_iff_nil. by rewrite ratings_length.
Qed.

Lemma avg_rating_Ok fdf :
  "Current Employee Rating" ∈ columns fdf →
  avg_rating fdf = Ok (round2 (mean (Current_Employee_Rating <$> rows fdf))).
Proof.
  intros ?. unfold avg_rating.
  by rewrite (getitem_num_Ok fdf _ Current_Employee_Rating).
Qed.

(** The mean of the ratings of a non-empty view is a number. *)
Lemma view_mean_Some fdf :
  Forall filterable (rows fdf) → rows fdf ≠ [] →
  ∃ q, mean (Current_Employee_Rating <$> rows fdf) = Some q
       ∧ q = Qmean (ratings (rows fdf)).
Proof.
  intros Hrows Hne. eexists. split; [|done]. apply mean_Some.
  split; [|done]. by rewrite <-(ratings_nil _ Hrows) in Hne.
Qed.

(** The sum of the present ratings, as a sum over the rows. *)
Lemma Qsum_ratings rs :
  (Qsum (ratings rs)
   == Qsum ((λ r, default 0 (Current_Employee_Rating r)) <$> rs))%Q.
Proof.
  unfold ratings. induction rs as [|r rs IH]; [done|].
  rewrite !fmap_cons, dropna_cons, Qsum_cons.
  destruct (Current_Employee_Rating r); simpl; rewrite ?Qsum_cons, IH; ring.
Qed.

Lemma dept_rows_filterable k rs :
  Forall filterable rs → Forall filterable (dept_rows k rs).
Proof.
  rewrite !Forall_forall. intros H r [_ ?]%list_elem_of_filter. by apply H.
Qed.

(** In a view, the count of a department times its mean rating is the sum
    of its ratings. *)
Lemma dept_rows_weight k rs :
  Forall filterable rs →
  (Qlen (dept_rows k rs) * Qmean (ratings (dept_rows k rs))
   == Qsum ((λ r, default 0 (Current_Employee_Rating r)) <$> dept_rows k rs))%Q.
Proof.
  intros H%(dept_rows_filterable k). rewrite <-Qsum_ratings, <-Qmean_total.
  unfold Qlen. rewrite ratings_length by done. reflexivity.
Qed.
Lemma dept_perf_Ok fdf :
  "DepartmentType" ∈ columns fdf → "Current Employee Rating" ∈ columns fdf →
  dept_perf fdf
  = Ok (mean_table "DepartmentType" "Current Employee Rating"
          (groupby_mean String.leb
             ((λ r, (DepartmentType r, Current_Employee_Rating r)) <$> rows fdf))).
Proof.
  intros ??. unfold dept_perf.
  rewrite (getitem_text_Ok fdf _ DepartmentType),
    (getitem_num_Ok fdf _ Current_Employee_Rating) by done.
  simpl. by rewrite zip_fmap_same.
Qed.

(** The bars of the mean chart: one per department that has a record,
    with the mean of the ratings of its records. *)
Lemma elem_of_dept_perf fdf t k v :
  dept_perf fdf = Ok t →
  (k, v) ∈ entries t ↔
    (∃ r, r ∈ rows fdf ∧ DepartmentType r = Some k)
    ∧ v = SFloat (mean (Current_Employee_Rating <$> dept_rows k (rows fdf))).
Proof.
  unfold dept_perf. intros Ht. result_inv. getitem_inv.
  rewrite zip_fmap_same. simpl. rewrite list_elem_of_fmap. split.
  - intros ([k' m] & Heq & [Hk ->]%elem_of_groupby_mean).
    simpl in Heq. simplify_eq. rewrite group_values_dept_rows.
    split; [|done]. rewrite <-list_fmap_compose in Hk.
    apply list_elem_of_fmap in Hk. naive_solver.
  - intros ((r & Hr & Hk) & ->). eexists (k, _). split; [done|].
    apply elem_of_groupby_mean. rewrite group_values_dept_rows.
    split; [|done]. rewrite <-list_fmap_compose.
    apply list_elem_of_fmap. exists r. by rewrite <-Hk.
Qed.

End aggregate_lemmas.

#[export] Hint Rewrite table_counts_count_table table_means_mean_table
  group_values_dept_rows : frame_rw.

(** ** Theorems: the three metrics *)

Section metric_theorems.
Implicit Types (df fdf : DataFrame) (d s : list string) (rr : float * float).

(** C33 (active count).  The second metric is the number of records whose
    status is the string Active; it never exceeds the first metric, and a
    record without a status is not counted. *)
Theorem active_emp_spec fdf n :
  active_emp fdf = Ok n →
  n = length (filter (λ r, EmployeeStatus r = Some "Active") (rows fdf))
  ∧ (n ≤ total_emp fdf)%nat.
Proof.
  intros H. assert ("EmployeeStatus" ∈ columns fdf) as Hc
    by (unfold active_emp in H; result_inv; by getitem_inv).
  rewrite active_emp_Ok in H by done. simplify_eq. split; [done|].
  apply length_filter.
Qed.

Lemma active_emp_spec_witness :
  4 = length (filter (λ r, EmployeeStatus r = Some "Active") (rows sample_df))
  ∧ (4 ≤ total_emp sample_df)%nat.
Proof. apply (active_emp_spec sample_df 4). vm_compute. reflexivity. Defined.

(** Active count of a view.  When Active is not among the selected
    statuses the second metric is 0; when it is the only selected status the
    second metric equals the first. *)
Theorem active_emp_of_view df d s rr fdf n :
  filtered_df df d s rr = Ok fdf → active_emp fdf = Ok n →
  ("Active" ∉ s → n = 0) ∧ (s ⊆ ["Active"] → n = total_emp fdf).
Proof.
  intros Hf Hn. pose proof (filtered_df_Ok_inv _ _ _ _ _ Hf) as Hc.
  apply filter_columns_in in Hc as (_ & Hs & _).
  pose proof (filtered_df_rows _ _ _ _ _ Hf) as [Hcols Hrows].
  rewrite active_emp_Ok in Hn by (by rewrite Hcols). simplify_eq.
  unfold total_emp, len. rewrite Hrows, list_filter_filter. split; intros Hact.
  - apply length_zero_iff_nil, filter_none, Forall_forall.
    intros r _ [Hr ((x & _) & (y & ? & ?) & _)%selected_true]. congruence.
  - f_equal. apply list_filter_iff. intros r. split; [tauto|].
    intros Hr. split; [|done].
    apply selected_true in Hr as (_ & (y & -> & Hy) & _).
    apply Hact in Hy. by apply list_elem_of_singleton in Hy as ->.
Qed.

Lemma active_emp_of_view_witness :
  ("Active" ∉ ["Terminated"] → 0 = 0)
  ∧ (["Terminated"] ⊆ ["Active"] →
       0 = total_emp (mkFrame schema
             (filter (λ r, selected ["Sales"; "Eng"] ["Terminated"]
                             (Some 1%Q, Some 5%Q) r = true) sample_rows))).
Proof.
  apply (active_emp_of_view sample_df ["Sales"; "Eng"] ["Terminated"]
    (Some 1%Q, Some 5%Q) (mkFrame schema _) 0); vm_compute; reflexivity.
Defined.

(** C16 (mean of an empty view).  The third metric of a view is NaN exactly
    when the view is empty: the mean of no rating is not guarded, and NaN
    is what the metric card is given. *)
Theorem avg_rating_NaN_iff_empty df d s rr fdf x :
  filtered_df df d s rr = Ok fdf → avg_rating fdf = Ok x →
  x = None ↔ total_emp fdf = 0.
Proof.
  intros Hf Hx. pose proof (filtered_df_filterable _ _ _ _ _ Hf) as Hrows.
  unfold avg_rating in Hx. result_inv. getitem_inv.
  unfold total_emp, len. rewrite length_zero_iff_nil, <-ratings_nil by done.
  unfold round2. rewrite fmap_None. apply mean_None.
Qed.

Lemma avg_rating_NaN_iff_empty_witness :
  @None Q = None
  ↔ total_emp (mkFrame schema
      (filter (λ r, selected ["Sales"] ["Active"] (Some 4%Q, Some 1%Q) r = true)
         sample_rows)) = 0.
Proof.
  apply (avg_rating_NaN_iff_empty sample_df ["Sales"] ["Active"]
    (Some 4%Q, Some 1%Q) (mkFrame schema _) None); vm_compute; reflexivity.
Defined.

(** C5 (mean of a view).  The third metric of a non-empty view is computed
    without exception and has two decimals: it is [z / 100] for the integer
    [z] nearest to a hundred times the exact mean of the ratings shown,
    the even one of the two when the mean lies halfway between them (these
    two facts determine [z], see [rint_unique]); and it lies between the
    rounded bounds of the selected range. *)
Theorem avg_rating_of_view df d s lo hi fdf :
  filtered_df df d s (Some lo, Some hi) = Ok fdf → rows fdf ≠ [] →
  ∃ z : Z,
    avg_rating fdf = Ok (Some (z # 100)%Q)
    ∧ (inject_Z z - (1 # 2) <= Qmean (ratings (rows fdf)) * 100
       <= inject_Z z + (1 # 2))%Q
    ∧ ((Qmean (ratings (rows fdf)) * 100 == inject_Z z - (1 # 2)
        ∨ Qmean (ratings (rows fdf)) * 100 == inject_Z z + (1 # 2))%Q →
       Z.even z = true)
    ∧ ∃ lo' hi', round2 (Some lo) = Some lo' ∧ round2 (Some hi) = Some hi'
        ∧ (lo' <= z # 100 <= hi')%Q.
Proof.
  intros Hf Hne. pose proof (filtered_df_filterable _ _ _ _ _ Hf) as Hrows.
  destruct (view_mean_Some fdf) as (q & Hq & Hm); [done..|].
  assert (lo <= q <= hi)%Q as [? ?].
  { eapply mean_between; [|done]. intros q' (r & Heq & Hr)%list_elem_of_fmap.
    destruct (view_row_selected _ _ _ _ _ _ _ Hf Hr) as (_ & q0 & Hq0 & ?).
    rewrite Hq0 in Heq. by simplify_eq. }
  pose proof (filtered_df_rows _ _ _ _ _ Hf) as [Hc _].
  apply filtered_df_Ok_inv, filter_columns_in in Hf as (_ & _ & ?).
  exists (rint (q * 100)). rewrite avg_rating_Ok, Hq, round2_Some by by rewrite Hc.
  rewrite <-Hm. do 3 (split; [done || apply rint_bounds || apply rint_tie|]).
  eexists _, _. split_and!; [done..| |].
  - by apply (round2_mono lo q).
  - by apply (round2_mono q hi).
Qed.

Lemma avg_rating_of_view_witness :
  (Qmean (ratings (rows sample_tie)) == 1125 # 1000)%Q
  ∧ avg_rating sample_tie = Ok (Some (112 # 100)%Q).
Proof.
  split; [reflexivity|].
  destruct (avg_rating_of_view sample_tie ["Sales"] ["Active"] 1%Q 2%Q
    sample_tie) as (z & Hz & _); [vm_compute; reflexivity|done|].
  by assert (z = 112%Z) as <- by (vm_compute in Hz; congruence).
Defined.
End metric_theorems.

(** ** Theorems: the chart tables *)

Section table_theorems.
Implicit Types (df fdf : DataFrame) (d s : list string) (rr : float * float)
  (t : Table) (k : string).

(** C32 (counts add up).  In the department chart of a view the counts add
    up to the first metric: every record of a view has a department. *)
Theorem dept_count_sums_to_total df d s rr fdf t :
  filtered_df df d s rr = Ok fdf → dept_count fdf = Ok t →
  sum_list (table_counts t) = total_emp fdf.
Proof.
  intros Hf Ht. pose proof (filtered_df_filterable _ _ _ _ _ Hf) as Hrows.
  unfold dept_count in Ht. result_inv. getitem_inv.
  rewrite table_counts_count_table, value_counts_sum_list.
  unfold total_emp, len.
  by rewrite dropna_length_present, length_fmap
    by (by apply filterable_DepartmentType).
Qed.

Lemma dept_count_sums_to_total_witness :
  sum_list (table_counts (mkTable ("Department", "Employees")
                            [("Sales", SInt 3); ("Eng", SInt 1)]))
  = total_emp (mkFrame schema
      (filter (λ r, selected ["Sales"; "Eng"] ["Active"] (Some 1%Q, Some 5%Q) r
                    = true) sample_rows)).
Proof.
  apply (dept_count_sums_to_total sample_df ["Sales"; "Eng"] ["Active"]
    (Some 1%Q, Some 5%Q)); vm_compute; reflexivity.
Defined.

(** Counts of a column with missing cells.  In the two other count
    charts the counts add up to the number of records that have a value in
    the column, which can be less than the first metric. *)
Theorem count_tables_sum fdf t2 t3 :
  perf_count fdf = Ok t2 → type_count fdf = Ok t3 →
  sum_list (table_counts t2)
    = length (filter (λ r, is_Some (Performance_Score r)) (rows fdf))
  ∧ sum_list (table_counts t3)
    = length (filter (λ r, is_Some (EmployeeType r)) (rows fdf))
  ∧ (sum_list (table_counts t2) ≤ total_emp fdf)%nat
  ∧ (sum_list (table_counts t3) ≤ total_emp fdf)%nat.
Proof.
  unfold perf_count, type_count. intros H2 H3. result_inv. getitem_inv.
  rewrite !table_counts_count_table, !value_counts_sum_list,
    !dropna_length_filter.
  split_and!; [done..| |]; apply length_filter.
Qed.

Lemma count_tables_sum_witness :
  sum_list (table_counts (mkTable ("Performance Score", "Employees")
     [("Exceeds", SInt 3); ("Fully Meets", SInt 2);
      ("Needs Improvement", SInt 1)]))
    = length (filter (λ r, is_Some (Performance_Score r)) (rows sample_na))
  ∧ sum_list (table_counts (mkTable ("Employee Type", "Employees")
     [("Full-Time", SInt 4); ("Part-Time", SInt 1); ("Contract", SInt 1)]))
    = length (filter (λ r, is_Some (EmployeeType r)) (rows sample_na))
  ∧ (sum_list (table_counts (mkTable ("Performance Score", "Employees")
     [("Exceeds", SInt 3); ("Fully Meets", SInt 2);
      ("Needs Improvement", SInt 1)])) ≤ total_emp sample_na)%nat
  ∧ (sum_list (table_counts (mkTable ("Employee Type", "Employees")
     [("Full-Time", SInt 4); ("Part-Time", SInt 1); ("Contract", SInt 1)]))
     ≤ total_emp sample_na)%nat.
Proof.
  apply (count_tables_sum sample_na); vm_compute; reflexivity.
Defined.

(** C4 (entries of the department chart).  The department chart has one bar
    per department that occurs in the view; its height is the number of
    records of that department, which is positive; the bars are in
    descending order of height, departments of equal height in the order
    of their first record. *)
Theorem dept_count_entries fdf t :
  dept_count fdf = Ok t →
  header t = ("Department", "Employees")
  ∧ NoDup (entries t).*1
  ∧ (∀ k v, (k, v) ∈ entries t ↔
       ∃ n, v = SInt n ∧ n = length (dept_rows k (rows fdf)) ∧ (0 < n)%nat)
  ∧ StronglySorted ge (table_counts t)
  ∧ ∀ n, filter (λ e, e.2 = SInt n) (entries t)
         = (λ k, (k, SInt n)) <$>
             filter (λ k, length (dept_rows k (rows fdf)) = n)
               (unique (dropna (DepartmentType <$> rows fdf))).
Proof.
  pose proof count_dept_rows as Hcount.
  unfold dept_count. intros Ht. result_inv. getitem_inv.
  split_and!.
  - done.
  - rewrite count_table_labels. apply NoDup_value_counts_keys.
  - intros k v. simpl. rewrite list_elem_of_fmap. split.
    + intros ([k' n] & Heq & [-> ?]%elem_of_value_counts).
      simpl in Heq. simplify_eq. eexists. by rewrite <-Hcount.
    + intros (n & -> & -> & ?). exists (k, length (dept_rows k (rows fdf))).
      split; [done|]. apply elem_of_value_counts. by rewrite Hcount.
  - rewrite table_counts_count_table.
    eapply (StronglySorted_fmap snd), value_counts_sorted. simpl. lia.
  - intros n. simpl. rewrite filter_fmap.
    erewrite (list_filter_iff _ (λ p, p.2 = n)) by (intros []; naive_solver).
    rewrite value_counts_ties. unfold counts_first_seen.
    rewrite filter_fmap, <-!list_fmap_compose.
    rewrite (list_filter_iff _ (λ k, length (dept_rows k (rows fdf)) = n))
      by (intros k; simpl; by rewrite Hcount).
    apply list_fmap_ext. intros i k Hk%list_elem_of_lookup_2. simpl.
    apply list_elem_of_filter in Hk as [<- _]. by rewrite Hcount.
Qed.
Lemma dept_count_entries_witness :
  header (mkTable ("Department", "Employees")
            [("Sales", SInt 3); ("Eng", SInt 3)])
  = ("Department", "Employees")
  ∧ NoDup ["Sales"; "Eng"]
  ∧ (∀ k v, (k, v) ∈ [("Sales", SInt 3); ("Eng", SInt 3)] ↔
       ∃ n, v = SInt n ∧ n = length (dept_rows k (rows sample_na))
            ∧ (0 < n)%nat)
  ∧ StronglySorted ge [3; 3]
  ∧ ∀ n, filter (λ e, e.2 = SInt n) [("Sales", SInt 3); ("Eng", SInt 3)]
         = (λ k, (k, SInt n)) <$>
             filter (λ k, length (dept_rows k (rows sample_na)) = n)
               (unique (dropna (DepartmentType <$> rows sample_na))).
Proof.
  apply (dept_count_entries sample_na
    (mkTable ("Department", "Employees")
       [("Sales", SInt 3); ("Eng", SInt 3)])).
  vm_compute. reflexivity.
Defined.

(** C8 (entries of the mean chart).  The chart of mean ratings has one bar
    per department that occurs in the view, in ascending order of the
    department names; its height is the mean of the ratings of the records
    of that department. *)
Theorem dept_perf_entries fdf t :
  dept_perf fdf = Ok t →
  header t = ("DepartmentType", "Current Employee Rating")
  ∧ StronglySorted (strict string_le) (entries t).*1
  ∧ ∀ k v, (k, v) ∈ entries t ↔
      (∃ r, r ∈ rows fdf ∧ DepartmentType r = Some k)
      ∧ v = SFloat (mean (Current_Employee_Rating <$> dept_rows k (rows fdf))).
Proof.
  intros Ht. split_and!; [| |intros k v; by apply elem_of_dept_perf];
    unfold dept_perf in Ht; result_inv; getitem_inv; [done|].
  rewrite zip_fmap_same, mean_table_labels, groupby_mean_keys.
  apply (StronglySorted_strict string_le).
  - eapply StronglySorted_impl; [|apply sort_by_sorted; eauto with frame].
    done.
  - apply NoDup_sort_by, NoDup_unique.
Qed.

Lemma dept_perf_entries_witness :
  header (mkTable ("DepartmentType", "Current Employee Rating")
            [("Eng", SFloat (Some (6 # 2)%Q));
             ("Sales", SFloat (Some (9 # 3)%Q))])
  = ("DepartmentType", "Current Employee Rating")
  ∧ StronglySorted (strict string_le) ["Eng"; "Sales"]
  ∧ ∀ k v, (k, v) ∈ [("Eng", SFloat (Some (6 # 2)%Q));
                     ("Sales", SFloat (Some (9 # 3)%Q))] ↔
      (∃ r, r ∈ rows sample_na ∧ DepartmentType r = Some k)
      ∧ v = SFloat (mean (Current_Employee_Rating
                            <$> dept_rows k (rows sample_na))).
Proof.
  apply (dept_perf_entries sample_na
    (mkTable ("DepartmentType", "Current Employee Rating")
       [("Eng", SFloat (Some (6 # 2)%Q)); ("Sales", SFloat (Some (9 # 3)%Q))])).
  vm_compute. reflexivity.
Defined.
(** C35 (the bars of the mean chart).  The table of chart 4 of a view is
    computed without exception, and each of its bars belongs to a selected
    department and has a height that is a number, never NaN, within the
    selected range: every listed department has a record in the view and
    every record of a view has a rating in the range. *)
Theorem dept_perf_of_view df d s lo hi fdf :
  filtered_df df d s (Some lo, Some hi) = Ok fdf →
  ∃ t, dept_perf fdf = Ok t
    ∧ ∀ k v, (k, v) ∈ entries t →
        k ∈ d ∧ ∃ q, v = SFloat (Some q) ∧ (lo <= q <= hi)%Q.
Proof.
  intros Hf. pose proof (filtered_df_rows _ _ _ _ _ Hf) as [Hc _].
  pose proof (filtered_df_Ok_inv _ _ _ _ _ Hf) as (? & _ & ?)%filter_columns_in.
  eexists. split; [by apply dept_perf_Ok; rewrite Hc|]. intros k v Hkv.
  eapply elem_of_dept_perf in Hkv as ((r & Hr & Hk) & ->);
    [|by apply dept_perf_Ok; rewrite Hc].
  pose proof (view_row_selected _ _ _ _ _ _ _ Hf Hr)
    as ((x & Hx & Hd) & q & Hq & ?).
  rewrite Hk in Hx. injection Hx as <-. split; [done|].
  destruct (mean _) as [m|] eqn:Hm.
  - exists m. split; [done|]. eapply mean_between; [|done].
    intros q' (r' & Hq' & [_ Hr']%list_elem_of_filter)%list_elem_of_fmap.
    destruct (view_row_selected _ _ _ _ _ _ _ Hf Hr') as (_ & q0 & Hq0 & ?).
    rewrite Hq0 in Hq'. by simplify_eq.
  - apply eq_None_not_Some in Hm. destruct Hm. apply mean_is_Some.
    exists q. rewrite <-Hq. apply list_elem_of_fmap_2.
    by apply list_elem_of_filter.
Qed.

Lemma dept_perf_of_view_witness :
  ∃ t, dept_perf (mkFrame schema
         (filter (λ r, selected ["Sales"; "Eng"] ["Active"]
                         (Some 1%Q, Some 5%Q) r = true) (rows sample_na)))
       = Ok t
    ∧ ∀ k v, (k, v) ∈ entries t →
        k ∈ ["Sales"; "Eng"] ∧ ∃ q, v = SFloat (Some q) ∧ (1 <= q <= 5)%Q.
Proof.
  apply (dept_perf_of_view sample_na ["Sales"; "Eng"] ["Active"] 1%Q 5%Q).
  vm_compute. reflexivity.
Defined.

(** The two department charts agree.  The department chart and the
    mean chart show the same departments, each once; only the order
    differs (by count in the first, by name in the second). *)
Theorem department_charts_same_keys fdf t1 t4 :
  dept_count fdf = Ok t1 → dept_perf fdf = Ok t4 →
  (entries t1).*1 ≡ₚ (entries t4).*1.
Proof.
  unfold dept_count, dept_perf. intros H1 H4. result_inv. getitem_inv.
  rewrite count_table_labels, mean_table_labels, value_counts_keys.
  rewrite groupby_mean_keys, sort_by_perm, zip_fmap_same.
  by rewrite <-list_fmap_compose.
Qed.

Lemma department_charts_same_keys_witness :
  ["Sales"; "Eng"] ≡ₚ ["Eng"; "Sales"].
Proof.
  apply (department_charts_same_keys sample_na
    (mkTable ("Department", "Employees") [("Sales", SInt 3); ("Eng", SInt 3)])
    (mkTable ("DepartmentType", "Current Employee Rating")
       [("Eng", SFloat (Some (6 # 2)%Q)); ("Sales", SFloat (Some (9 # 3)%Q))]));
    vm_compute; reflexivity.
Defined.

(** C10 (the figures are always drawn).  The column names the script passes
    to Plotly Express are the names it gave the columns of the four tables:
    no figure raises, each draws its table, each has the transition of 600
    ms. *)
Theorem figures_never_raise fdf t1 t2 t3 t4 :
  dept_count fdf = Ok t1 → perf_count fdf = Ok t2 →
  type_count fdf = Ok t3 → dept_perf fdf = Ok t4 →
  ∃ f1 f2 f3 f4,
    fig1 t1 = Ok f1 ∧ fig2 t2 = Ok f2 ∧ fig3 t3 = Ok f3 ∧ fig4 t4 = Ok f4
    ∧ figure_data <$> [f1; f2; f3; f4] = [t1; t2; t3; t4]
    ∧ Forall (λ f, transition_duration f = 600) [f1; f2; f3; f4].
Proof.
  unfold dept_count, perf_count, type_count, dept_perf.
  intros H1 H2 H3 H4. result_inv. getitem_inv.
  eexists _, _, _, _. split_and!; [reflexivity..|done|by repeat constructor].
Qed.

Lemma figures_never_raise_witness :
  ∃ f1 f2 f3 f4,
    fig1 (mkTable ("Department", "Employees")
            [("Sales", SInt 3); ("Eng", SInt 2)]) = Ok f1
    ∧ fig2 (mkTable ("Performance Score", "Employees")
              [("Fully Meets", SInt 2); ("Exceeds", SInt 2);
               ("Needs Improvement", SInt 1)]) = Ok f2
    ∧ fig3 (mkTable ("Employee Type", "Employees")
              [("Full-Time", SInt 3); ("Part-Time", SInt 1);
               ("Contract", SInt 1)]) = Ok f3
    ∧ fig4 (mkTable ("DepartmentType", "Current Employee Rating")
              [("Eng", SFloat (Some (6 # 2)%Q));
               ("Sales", SFloat (Some (9 # 3)%Q))]) = Ok f4
    ∧ figure_data <$> [f1; f2; f3; f4]
      = [mkTable ("Department", "Employees")
           [("Sales", SInt 3); ("Eng", SInt 2)];
         mkTable ("Performance Score", "Employees")
           [("Fully Meets", SInt 2); ("Exceeds", SInt 2);
            ("Needs Improvement", SInt 1)];
         mkTable ("Employee Type", "Employees")
           [("Full-Time", SInt 3); ("Part-Time", SInt 1);
            ("Contract", SInt 1)];
         mkTable ("DepartmentType", "Current Employee Rating")
           [("Eng", SFloat (Some (6 # 2)%Q));
            ("Sales", SFloat (Some (9 # 3)%Q))]]
    ∧ Forall (λ f, transition_duration f = 600) [f1; f2; f3; f4].
Proof.
  apply (figures_never_raise sample_df); vm_compute; reflexivity.
Defined.

(** Drill-down table.  The drill-down table is built exactly when the
    view has the five columns; it shows them in the order DepartmentType,
    EmployeeStatus, EmployeeType, Current Employee Rating, Performance
    Score, and it shows every record of the view, in order, under its
    label. *)
Theorem details_spec fdf (t : DataFrame) :
  details fdf = Ok t ↔ complete fdf ∧ t = {| columns := schema; rows := rows fdf |}.
Proof.
  unfold details. fold schema. split.
  - intros (? & ? & ?)%getitem_columns_Ok_inv. destruct t; naive_solver.
  - intros [? ->]. by apply getitem_columns_Ok.
Qed.

(** Scenario: one department.  On the table of five records, three of
    Sales rated 2, 3, 4 and two of Eng rated 5, 1, the selection of Sales
    with every status and the range 0 to 5 gives three records, the mean
    3.00 and the single group mean Sales = 3. *)
Example scenario_sales :
  ∃ fdf,
    filtered_df sample_df ["Sales"] ["Active"; "Terminated"]
      (Some 0%Q, Some 5%Q) = Ok fdf
    ∧ total_emp fdf = 3
    ∧ avg_rating fdf = Ok (Some (300 # 100)%Q)
    ∧ dept_perf fdf
      = Ok (mkTable ("DepartmentType", "Current Employee Rating")
              [("Sales", SFloat (Some (9 # 3)%Q))])
    ∧ dept_count fdf
      = Ok (mkTable ("Department", "Employees") [("Sales", SInt 3)]).
Proof. eexists. split; [reflexivity|]. by vm_compute. Qed.

(** Scenario: inverted range.  With the range 4 to 1 the view is
    empty: the count is 0, the mean that the metric shows is NaN (no
    exception is raised and no other text is substituted), the tables of
    the four charts are empty and the figures are still built. *)
Example scenario_inverted_range :
  ∃ fdf,
    filtered_df sample_df ["Sales"; "Eng"] ["Active"; "Terminated"]
      (Some 4%Q, Some 1%Q) = Ok fdf
    ∧ total_emp fdf = 0 ∧ active_emp fdf = Ok 0 ∧ avg_rating fdf = Ok NaN
    ∧ entries <$> dept_count fdf = Ok []
    ∧ entries <$> perf_count fdf = Ok []
    ∧ entries <$> type_count fdf = Ok []
    ∧ entries <$> dept_perf fdf = Ok []
    ∧ is_Ok (dept_count fdf ≫= fig1) ∧ is_Ok (dept_perf fdf ≫= fig4).
Proof.
  eexists. split; [reflexivity|]. vm_compute. by split_and!; try eexists.
Qed.
(** The average and the group means.  On a filtered view, the
    departments' counts (the bars of chart 1) times their mean ratings (the
    bars of chart 4) add up to the number of records times the mean rating
    of the view: the average metric, before rounding, is the mean of the
    group means weighted by the counts. *)
Theorem avg_rating_weighted df d s rr fdf :
  filtered_df df d s rr = Ok fdf →
  (Qsum ((λ k, Qlen (dept_rows k (rows fdf))
               * Qmean (ratings (dept_rows k (rows fdf))))
           <$> unique (dropna (DepartmentType <$> rows fdf)))
   == Qlen (rows fdf) * Qmean (ratings (rows fdf)))%Q.
Proof.
  intros Hrows%filtered_df_filterable.
  rewrite (Qsum_fmap_ext _ _ _ (λ k _, dept_rows_weight k _ Hrows)).
  unfold dept_rows. rewrite Qsum_partition by apply NoDup_unique.
  rewrite filter_all.
  - rewrite <-Qsum_ratings, <-Qmean_total. unfold Qlen.
    rewrite ratings_length by done. reflexivity.
  - rewrite Forall_forall in Hrows. apply Forall_forall. intros r Hr.
    destruct (Hrows r Hr) as ([x Hx] & _). rewrite Hx.
    apply list_elem_of_fmap_2, elem_of_unique, elem_of_dropna.
    rewrite <-Hx. by apply list_elem_of_fmap_2.
Qed.

Lemma avg_rating_weighted_witness :
  (Qsum ((λ k, Qlen (dept_rows k (rows sample_df))
               * Qmean (ratings (dept_rows k (rows sample_df))))
           <$> unique (dropna (DepartmentType <$> rows sample_df)))
   == Qlen (rows sample_df) * Qmean (ratings (rows sample_df)))%Q.
Proof.
  apply (avg_rating_weighted sample_df ["Sales"; "Eng"]
    ["Active"; "Terminated"] (Some 1%Q, Some 5%Q)). reflexivity.
Defined.
End table_theorems.
