(* ===== verification/Charts.v ===== *)
(** * Charts: the data series of the four figures

    Lines 88-152 of [src/main.py] build four figures, each from one table
    of the filtered view.  This file takes the charts together
    ([chart_table], [chart_figure]) and shows what Plotly Express draws
    for them: one series per row of the table, in the order of the
    table, so that the series read back give the table ([drawn]); and
    colours that repeat when a table has more rows than the colour
    sequence has colours. *)

From S2P Require Import Prelude Series Frame Plotly Filter Aggregate.

Local Open Scope string_scope.

(** ** Definitions *)

(** The four charts of the page, in source order. *)
Inductive ChartId : Type := Chart1 | Chart2 | Chart3 | Chart4.

#[export] Instance ChartId_eq_dec : EqDecision ChartId.
Proof. solve_decision. Defined.

(** The table of a chart. *)
Definition chart_table (c : ChartId) (fdf : DataFrame) : result Exn Table :=
  match c with
  | Chart1 => dept_count fdf
  | Chart2 => perf_count fdf
  | Chart3 => type_count fdf
  | Chart4 => dept_perf fdf
  end.

(** The figure of a chart. *)
Definition chart_figure (c : ChartId) (t : Table) : result Exn Figure :=
  match c with
  | Chart1 => fig1 t
  | Chart2 => fig2 t
  | Chart3 => fig3 t
  | Chart4 => fig4 t
  end.

(** The series of a bar chart of the page: named by the label, with one
    bar, which carries its number as text. *)
Definition bar_series (k : nat) (e : string * Scalar) : Trace :=
  {| trace_name := e.1; color_index := Some (k mod palette_size);
     points := [as_point e]; texts := [CNumber e.2] |}.

(** The figure of a chart on the sample table. *)
Definition sample_figure (c : ChartId) : Figure :=
  from_Ok (mkFigure (PieChart (mkTable ("", "") []) "" "" 0) 0)
    (chart_table c sample_df ≫= chart_figure c).

(** ** Lemmas *)

Section charts_lemmas.
Implicit Types (c : ChartId) (fdf : DataFrame) (t : Table) (f : Figure).

(** The tables of the charts have two columns of different names and
    one row per label. *)
Lemma chart_table_wf c fdf t :
  chart_table c fdf = Ok t →
  (header t).2 ≠ (header t).1 ∧ NoDup (entries t).*1.
Proof.
  destruct c; simpl; unfold dept_count, perf_count, type_count, dept_perf;
    intros; result_inv; (split; [done|]);
    rewrite ?count_table_labels, ?mean_table_labels;
    auto using NoDup_value_counts_keys, NoDup_groupby_mean_keys.
Qed.

(** The figure of a chart is the call of the source on its table. *)
Lemma chart_figure_Ok c fdf t f :
  chart_table c fdf = Ok t → chart_figure c t = Ok f →
  chart f
  = match c with
    | Chart2 => PieChart t (header t).1 (header t).2 (4 # 10)
    | Chart4 => BarChart t (header t).1 (header t).2 TextAuto (header t).1
    | _ => BarChart t (header t).1 (header t).2 (TextColumn (header t).2)
             (header t).1
    end.
Proof.
  destruct c; simpl;
    unfold dept_count, perf_count, type_count, dept_perf, fig1, fig2, fig3,
      fig4;
    intros; result_inv;
    match goal with
    | H : px_bar _ _ _ _ _ = Ok _ |- _ => apply px_bar_Ok_inv in H as ->
    | H : px_pie _ _ _ _ = Ok _ |- _ => apply px_pie_Ok_inv in H as ->
    end; done.
Qed.

Lemma traces_bar c fdf t f :
  c ≠ Chart2 → chart_table c fdf = Ok t → chart_figure c t = Ok f →
  traces f = imap bar_series (entries t).
Proof.
  intros Hc Ht Hf. destruct (chart_table_wf c fdf t Ht) as [Hab Hnd].
  unfold traces. rewrite (chart_figure_Ok c fdf t f Ht Hf).
  destruct c; [|done| |]; rewrite bar_traces_rows by done;
    apply imap_ext; intros k e _; unfold bar_series, bar_text;
    by rewrite ?bool_decide_eq_false_2.
Qed.

Lemma traces_pie fdf t f :
  perf_count fdf = Ok t → fig2 t = Ok f →
  traces f = [{| trace_name := ""; color_index := None;
                 points := as_point <$> entries t; texts := [] |}].
Proof.
  intros Ht Hf. destruct (chart_table_wf Chart2 fdf t Ht) as [Hab _].
  unfold traces. rewrite (chart_figure_Ok Chart2 fdf t f Ht Hf).
  unfold pie_traces. by rewrite cells_labels, cells_numbers, zip_cells.
Qed.

Lemma imap_bar_series_points (l : list (string * Scalar)) (n : nat) :
  imap (λ k, bar_series (n + k)) l ≫= points = as_point <$> l.
Proof.
  revert n. induction l as [|e l IH]; intros n; [done|].
  rewrite imap_cons, bind_cons, fmap_cons. simpl. f_equal.
  rewrite <-(IH (S n)). f_equal. apply imap_ext. intros k x _. simpl.
  by rewrite Nat.add_succ_r.
Qed.

End charts_lemmas.

(** ** Theorems *)

Section charts_theorems.
Implicit Types (c : ChartId) (fdf : DataFrame) (t : Table) (f : Figure).

(** C31 (one series per row).  Each bar chart of the page has one series
    per row of its table, in the order of the table: the series is named
    by the label of the row, takes the next colour of the colour
    sequence, and has one bar with the number of the row as its height
    and as its text.  The pie chart has one series with a sector per row,
    in the order of the table. *)
Theorem chart_series c fdf t f :
  chart_table c fdf = Ok t → chart_figure c t = Ok f →
  traces f
  = match c with
    | Chart2 => [{| trace_name := ""; color_index := None;
                    points := as_point <$> entries t; texts := [] |}]
    | _ => imap bar_series (entries t)
    end.
Proof.
  intros Ht Hf. destruct (decide (c = Chart2)) as [->|Hc];
    [by eapply traces_pie|]. rewrite (traces_bar c fdf t f Hc Ht Hf).
  by destruct c.
Qed.

(** C18 (what is drawn is the table).  For each of the four charts, the
    points of the series of its figure, read back in the order of the
    series, are the rows of the table the chart was built from: every
    row is drawn once, with its label and its number, and nothing else
    is drawn. *)
Theorem drawn_round_trip c fdf t f :
  chart_table c fdf = Ok t → chart_figure c t = Ok f →
  drawn f = as_point <$> entries t.
Proof.
  intros Ht Hf. unfold drawn. destruct (decide (c = Chart2)) as [->|Hc].
  - rewrite (traces_pie fdf t f Ht Hf). simpl. apply app_nil_r.
  - rewrite (traces_bar c fdf t f Hc Ht Hf). apply (imap_bar_series_points _ 0).
Qed.

(** C38 (colours repeat after ten).  The series of a bar chart of the
    page have pairwise different colours exactly when its table has at
    most as many rows as the colour sequence has colours: with an
    eleventh department, two departments are drawn in the same colour. *)
Theorem series_colors c fdf t f :
  c ≠ Chart2 → chart_table c fdf = Ok t → chart_figure c t = Ok f →
  NoDup (color_index <$> traces f) ↔ (length (entries t) ≤ palette_size)%nat.
Proof.
  intros Hc Ht Hf. rewrite (traces_bar c fdf t f Hc Ht Hf), fmap_imap.
  rewrite <-NoDup_colors,
    <-(NoDup_fmap Some ((λ k, k mod palette_size) <$> _)), <-list_fmap_compose.
  by rewrite <-(imap_seq (entries t) (Some ∘ (λ k, k mod palette_size)) 0).
Qed.

End charts_theorems.

Lemma chart_series_witness :
  traces (sample_figure Chart1)
  = imap bar_series [("Sales", SInt 3); ("Eng", SInt 2)].
Proof.
  apply (chart_series Chart1 sample_df
    (mkTable ("Department", "Employees") [("Sales", SInt 3); ("Eng", SInt 2)]));
    vm_compute; reflexivity.
Defined.

Lemma drawn_round_trip_witness :
  drawn (sample_figure Chart4)
  = [(CLabel "Eng", CNumber (SFloat (Some (6 # 2)%Q)));
     (CLabel "Sales", CNumber (SFloat (Some (9 # 3)%Q)))].
Proof.
  apply (drawn_round_trip Chart4 sample_df
    (mkTable ("DepartmentType", "Current Employee Rating")
       [("Eng", SFloat (Some (6 # 2)%Q)); ("Sales", SFloat (Some (9 # 3)%Q))]));
    vm_compute; reflexivity.
Defined.

Lemma series_colors_witness :
  NoDup (color_index <$> traces (sample_figure Chart3))
  ↔ (length [("Full-Time", SInt 3); ("Part-Time", SInt 1);
             ("Contract", SInt 1)] ≤ palette_size)%nat.
Proof.
  apply (series_colors Chart3 sample_df
    (mkTable ("Employee Type", "Employees")
       [("Full-Time", SInt 3); ("Part-Time", SInt 1); ("Contract", SInt 1)]));
    [done|vm_compute; reflexivity..].
Defined.
