(* ===== verification/Loader.v ===== *)
(** * Loader: [load_data] of [src/main.py], lines 29-33

    [load_data] reads [employee_data.csv] with [pd.read_csv] under
    [@st.cache_data]: the file is read by the first run of the process that
    succeeds, every later run of every session gets the stored table.  The
    theorems give the result on every branch (cache filled, file parsed,
    file rejected, file absent) and show that the table of a process never
    changes once it is loaded. *)

From S2P Require Import Prelude Series Frame Plotly Streamlit.

Local Open Scope string_scope.

(** ** Definitions *)

Definition csv_path : string := "employee_data.csv".

Definition load_data : Script DataFrame := cache_data (read_csv csv_path).

(** What the loader returns for a cache and a disk. *)
Definition load_result (c : option DataFrame) (d : gmap string FileContent)
    : result Signal DataFrame :=
  match c, d !! csv_path with
  | Some df, _ => Ok df
  | None, Some (CsvTable df) => Ok df
  | None, Some NotCsv => Err (Raise (ParserError csv_path))
  | None, None => Err (Raise (FileNotFoundError csv_path))
  end.

(** ** Lemmas *)

Section loader.
Implicit Types (env : Env) (st : RunState) (df : DataFrame).

#[export] Instance load_data_cache_stable : CacheStable load_data.
Proof. apply _. Qed.

Lemma load_data_run env st :
  load_data env st
  = ({| page := page st;
        cache := match load_result (cache st) (disk env) with
                 | Ok df => Some df
                 | Err _ => None
                 end |},
     load_result (cache st) (disk env)).
Proof.
  destruct st as [p [df|]]; [done|]. unfold load_data, cache_data, read_csv,
    load_result. simpl. by destruct (disk env !! csv_path) as [[]|].
Qed.

Lemma load_data_hit env st df : cache st = Some df → load_data env st = (st, Ok df).
Proof. intros Hc. rewrite load_data_run, Hc. by destruct st; simplify_eq/=. Qed.

Lemma load_data_Ok_cache env st st' df :
  load_data env st = (st', Ok df) → cache st' = Some df ∧ page st' = page st.
Proof.
  rewrite load_data_run. intros [= <- H]. simpl. by rewrite H.
Qed.

Lemma load_result_Err_inv c d sg :
  load_result c d = Err sg →
  c = None
  ∧ (d !! csv_path = None ∧ sg = Raise (FileNotFoundError csv_path)
     ∨ d !! csv_path = Some NotCsv ∧ sg = Raise (ParserError csv_path)).
Proof.
  unfold load_result. destruct c; [done|].
  destruct (d !! csv_path) as [[]|]; naive_solver.
Qed.

(** ** Theorems *)

(** C26 (loader, every branch).  A run of the loader writes nothing to the
    page.  With a filled cache it returns the cached table without looking
    at the disk; otherwise it returns the table of the file and stores it,
    or raises [ParserError] for a file that is no CSV and
    [FileNotFoundError] for an absent file, and stores nothing. *)
Theorem load_data_spec env c :
  output load_data env c = []
  ∧ outcome load_data env c = load_result c (disk env)
  ∧ cache (run load_data env c).1
    = match load_result c (disk env) with Ok df => Some df | Err _ => None end.
Proof. unfold output, outcome, run. by rewrite load_data_run. Qed.

(** C9 (loaded once).  After a run that loaded the table, every later run
    returns the same table, whatever the file holds by then, and leaves
    the state alone. *)
Theorem load_data_once env env' st st' df :
  load_data env st = (st', Ok df) → load_data env' st' = (st', Ok df).
Proof. intros [? _]%load_data_Ok_cache. by apply load_data_hit. Qed.

Lemma load_data_once_witness :
  load_data (mkEnv ∅ ∅) (mkRunState [] (Some sample_df))
  = (mkRunState [] (Some sample_df), Ok sample_df).
Proof.
  apply (load_data_once (mkEnv ∅ {[csv_path := CsvTable sample_df]}) _
    (mkRunState [] None)). reflexivity.
Defined.

(** A failed load is tried again.  When the loader raises, the cache
    was empty and stays empty, so the next run reads the file again; the
    exception is [FileNotFoundError] or [ParserError] of the path. *)
Theorem load_data_error env st st' sg :
  load_data env st = (st', Err sg) →
  st' = st ∧ cache st = None
  ∧ (sg = Raise (FileNotFoundError csv_path)
     ∨ sg = Raise (ParserError csv_path)).
Proof.
  rewrite load_data_run. intros [= <- H].
  apply load_result_Err_inv in H as H'. destruct H' as [Hc ?].
  rewrite H. destruct st; simplify_eq/=. naive_solver.
Qed.

Lemma load_data_error_witness :
  mkRunState [] None = mkRunState [] None
  ∧ cache (mkRunState [] None) = None
  ∧ (Raise (FileNotFoundError csv_path) = Raise (FileNotFoundError csv_path)
     ∨ Raise (FileNotFoundError csv_path) = Raise (ParserError csv_path)).
Proof. apply (load_data_error (mkEnv ∅ ∅)). reflexivity. Defined.
End loader.
