(* ===== verification/Dashboard.v ===== *)
(** * Dashboard: the script of [src/main.py], from its first line to its last

    [main] is the script in the monad of runs, composed of its sections in
    the order of the source: page setup (lines 6-26), the loader (29-33),
    the sidebar (36-61), the filter (64-68), the heading (71-72), the row
    of metrics (75-85), the four charts (88-152), the drill-down table
    (155-168) and the footer (171-172).

    [view] is the page as a function of the table and of the widget
    values, with no state and no early exit.  The theorems show that a run
    of [main] writes exactly [view], that it ends with [KeyError] exactly
    when the table lacks a column of the schema, and what the page holds. *)

From S2P Require Import Prelude Series Frame Plotly Streamlit.
From S2P Require Import Filter Aggregate Loader.

Local Open Scope string_scope.

(** ** The script *)

(** The labels of the four widgets of the sidebar. *)
Definition department_label : string := "Select Department".
Definition status_label : string := "Employee Status".
Definition rating_label : string := "Performance Rating Range".
Definition reset_label : string := "🔄 Reset Filters".

(** The style sheet of lines 13-26. *)
Definition css : string :=
  let dq := String (Ascii.ascii_of_nat 34) EmptyString in "
<style>
body {
    background: linear-gradient(135deg, #e0f2fe, #bae6fd);
}

div[data-testid=" +:+ dq +:+ "metric-container" +:+ dq +:+ "] {
    background-color: rgba(255, 255, 255, 0.35);
    border-radius: 14px;
    padding: 18px;
    box-shadow: 0 6px 20px rgba(0,0,0,0.15);
}
</style>
".

(** What the three controls return. *)
Record FilterState : Type := mkFilterState {
  department : list string;
  status : list string;
  rating_range : float * float;
}.

#[export] Instance FilterState_eq_dec : EqDecision FilterState.
Proof. solve_decision. Defined.

(** Lines 6-26. *)
Definition page_setup : Script unit :=
  set_page_config "Employee Analytics Dashboard" "📊" "wide";;
  markdown css true.

(** Lines 36-61: the header, the three controls and the reset button. *)
Definition sidebar (df : DataFrame) : Script FilterState :=
  header Sidebar "🔍 Filters";;
  options ← lift (department_options df);
  default ← lift (department_options df);
  department ← multiselect Sidebar department_label options default;
  options ← lift (status_options df);
  default ← lift (status_options df);
  status ← multiselect Sidebar status_label options default;
  min_value ← lift (rating_min df);
  max_value ← lift (rating_max df);
  lo ← lift (rating_min df);
  hi ← lift (rating_max df);
  rating_range ← slider Sidebar rating_label min_value max_value (lo, hi);
  clicked ← button Sidebar reset_label;
  (if clicked : bool then experimental_rerun else mret tt);;
  mret (mkFilterState department status rating_range).

(** Lines 71-72. *)
Definition heading : Script unit :=
  title "📊 Employee Analytics Dashboard";;
  caption "Interactive HR Analytics Dashboard using Streamlit & Plotly".

(** Lines 75-85: three columns, a metric in each, a divider.  Unpacking
    the result of [st.columns] into three names raises [ValueError] for any
    other number of containers. *)
Definition kpi_row (fdf : DataFrame) : Script unit :=
  cols ← st_columns 3;
  match cols with
  | [col1; col2; col3] =>
      let total := total_emp fdf in
      active ← lift (active_emp fdf);
      avg ← lift (avg_rating fdf);
      metric col1 "Total Employees" (SInt total);;
      metric col2 "Active Employees" (SInt active);;
      metric col3 "Avg Performance Rating" (SFloat avg);;
      divider
  | _ => lift (Err ValueError)
  end.

(** One chart section: the subheader, the table, the figure, the chart. *)
Definition chart_section (heading : string) (table : result Exn Table)
    (fig : Table → result Exn Figure) : Script unit :=
  subheader heading;;
  t ← lift table;
  f ← lift (fig t);
  plotly_chart f true.

(** Lines 88-101, 104-116, 119-132, 135-152. *)
Definition chart1 (fdf : DataFrame) : Script unit :=
  chart_section "Employees by Department" (dept_count fdf) fig1.

Definition chart2 (fdf : DataFrame) : Script unit :=
  chart_section "Performance Score Distribution" (perf_count fdf) fig2.

Definition chart3 (fdf : DataFrame) : Script unit :=
  chart_section "Employee Type Breakdown" (type_count fdf) fig3.

Definition chart4 (fdf : DataFrame) : Script unit :=
  chart_section "Average Performance Rating by Department" (dept_perf fdf) fig4.

(** Lines 155-168. *)
Definition detail_table (fdf : DataFrame) : Script unit :=
  subheader "Employee Details (Drill-Down View)";;
  t ← lift (details fdf);
  dataframe t true.

(** Lines 171-172. *)
Definition footer : Script unit :=
  markdown "---" false;;
  caption "📌 Built using Streamlit & Plotly | HR Analytics Project".

(** Lines 71-172: everything the script shows of the filtered view. *)
Definition report (fdf : DataFrame) : Script unit :=
  heading;;
  kpi_row fdf;;
  chart1 fdf;;
  chart2 fdf;;
  chart3 fdf;;
  chart4 fdf;;
  detail_table fdf;;
  footer.

(** Lines 36-172: the script below the loader. *)
Definition dashboard (df : DataFrame) : Script unit :=
  fs ← sidebar df;
  fdf ← lift (filtered_df df (department fs) (status fs) (rating_range fs));
  report fdf.

(** The script. *)
Definition main : Script unit :=
  page_setup;;
  df ← load_data;
  dashboard df.

(** ** The page as a function *)

(** The values of the three controls for a table and a session. *)
Definition filters (df : DataFrame) (w : gmap string WidgetValue)
    : result Exn FilterState :=
  d ← department_options df;
  s ← status_options df;
  lo ← rating_min df;
  hi ← rating_max df;
  mret (mkFilterState (widget_list w department_label d)
          (widget_list w status_label s)
          (widget_range w rating_label (lo, hi))).

Definition setup_view : list (Container * Element) :=
  [(Main, PageConfig "Employee Analytics Dashboard" "📊" "wide");
   (Main, Markdown css true)].

(** The sidebar of a table and the values of its controls. *)
Definition sidebar_view (df : DataFrame) (fs : FilterState)
    : result Exn (list (Container * Element)) :=
  d ← department_options df;
  s ← status_options df;
  lo ← rating_min df;
  hi ← rating_max df;
  mret [(Sidebar, Header "🔍 Filters");
        (Sidebar, Multiselect department_label d d (department fs));
        (Sidebar, Multiselect status_label s s (status fs));
        (Sidebar, Slider rating_label lo hi (rating_range fs));
        (Sidebar, Button reset_label)].

(** The main area for a filtered view. *)
Definition report_view (fdf : DataFrame)
    : result Exn (list (Container * Element)) :=
  active ← active_emp fdf;
  avg ← avg_rating fdf;
  f1 ← dept_count fdf ≫= fig1;
  f2 ← perf_count fdf ≫= fig2;
  f3 ← type_count fdf ≫= fig3;
  f4 ← dept_perf fdf ≫= fig4;
  t ← details fdf;
  mret [(Main, Title "📊 Employee Analytics Dashboard");
        (Main, Caption "Interactive HR Analytics Dashboard using Streamlit & Plotly");
        (Main, Columns 3);
        (Column 0, Metric "Total Employees" (SInt (total_emp fdf)));
        (Column 1, Metric "Active Employees" (SInt active));
        (Column 2, Metric "Avg Performance Rating" (SFloat avg));
        (Main, Divider);
        (Main, Subheader "Employees by Department");
        (Main, PlotlyChart f1 true);
        (Main, Subheader "Performance Score Distribution");
        (Main, PlotlyChart f2 true);
        (Main, Subheader "Employee Type Breakdown");
        (Main, PlotlyChart f3 true);
        (Main, Subheader "Average Performance Rating by Department");
        (Main, PlotlyChart f4 true);
        (Main, Subheader "Employee Details (Drill-Down View)");
        (Main, Dataframe t true);
        (Main, Markdown "---" false);
        (Main, Caption "📌 Built using Streamlit & Plotly | HR Analytics Project")].

(** The page of a run that is not a click on the reset button. *)
Definition view (df : DataFrame) (w : gmap string WidgetValue)
    : result Exn (list (Container * Element)) :=
  fs ← filters df w;
  side ← sidebar_view df fs;
  fdf ← filtered_df df (department fs) (status fs) (rating_range fs);
  body ← report_view fdf;
  mret (setup_view ++ side ++ body)%list.

(** The page of the run that a click on the reset button starts: the run
    stops below the button. *)
Definition view_clicked (df : DataFrame) (w : gmap string WidgetValue)
    : result Exn (list (Container * Element)) :=
  fs ← filters df w;
  side ← sidebar_view df fs;
  mret (setup_view ++ side)%list.

(** A run that ends with the exception [e] and the table [df] cached. *)
Definition raises (env : Env) (c : option DataFrame) (df : DataFrame)
    (e : Exn) : Prop :=
  outcome main env c = Err (Raise e) ∧ cache (run main env c).1 = Some df.

(** The run of the script, case by case: the load fails; the sidebar
    raises; the button is clicked; the page is written or the report
    raises. *)
Definition run_cases (env : Env) (c : option DataFrame) : Prop :=
  match load_result c (disk env) with
  | Err sg => run main env c = ({| page := setup_view; cache := None |}, Err sg)
  | Ok df =>
      match filters df (widgets env) with
      | Err e => raises env c df e
      | Ok fs =>
          if widget_clicked (widgets env) reset_label
          then ∃ v, view_clicked df (widgets env) = Ok v
                 ∧ run main env c
                   = ({| page := v; cache := Some df |}, Err RerunException)
          else match view df (widgets env) with
               | Ok v =>
                   run main env c = ({| page := v; cache := Some df |}, Ok tt)
               | Err e => raises env c df e
               end
      end
  end.

(** The columns of the schema in the order in which a run first reads
    them, and the first of them that a table lacks. *)
Definition use_order : list string :=
  ["DepartmentType"; "EmployeeStatus"; "Current Employee Rating";
   "Performance Score"; "EmployeeType"].

Definition first_missing (df : DataFrame) : option string :=
  head (filter (λ n, n ∉ columns df) use_order).

(** A process whose file holds the sample table, and a session in which the
    user has chosen the department Sales. *)
Definition sample_env : Env :=
  {| widgets := {[department_label := WList ["Sales"]]};
     disk := {[csv_path := CsvTable sample_df]} |}.

(** The sample table without its column of performance scores, and the
    session in which the reset button has just been clicked. *)
Definition sample_no_score : DataFrame :=
  {| columns := ["DepartmentType"; "EmployeeStatus"; "EmployeeType";
                 "Current Employee Rating"];
     rows := sample_rows |}.

Definition sample_clicked : Env :=
  {| widgets := <[reset_label := WClicked]> (widgets sample_env);
     disk := disk sample_env |}.

(** ** Lemmas *)

(** Case analysis on the pure computations of a view, in their order. *)
Ltac view_simpl :=
  cbn [view_bind view_lift view_ret mbind mret fmap result_bind result_ret
       result_fmap app].

Ltac case_view :=
  view_simpl;
  repeat match goal with
         | |- context [view_lift ?r] =>
             lazymatch r with
             | Ok _ => fail
             | Err _ => fail
             | _ => destruct r; view_simpl; [|done]
             end
         end.

Section dashboard_lemmas.
Implicit Types (df fdf : DataFrame) (env : Env) (st : RunState)
  (w : gmap string WidgetValue) (c : option DataFrame).

Lemma page_setup_shows env : shows page_setup env (Ok (setup_view, tt)).
Proof. unfold page_setup. eapply shows_eq; [solve_shows|done]. Qed.

Lemma report_shows fdf env :
  shows (report fdf) env ((λ els, (els, tt)) <$> report_view fdf).
Proof.
  unfold report, heading, kpi_row, chart1, chart2, chart3, chart4,
    chart_section, detail_table, footer.
  eapply shows_eq; [solve_shows|]. unfold report_view. by case_view.
Qed.
Lemma sidebar_shows df env :
  widget_clicked (widgets env) reset_label = false →
  shows (sidebar df) env
    (fs ← filters df (widgets env); side ← sidebar_view df fs; mret (side, fs)).
Proof.
  intros Hc. unfold sidebar. eapply shows_eq; [solve_shows|].
  unfold filters, sidebar_view. by case_view.
Qed.

Lemma dashboard_shows df env :
  widget_clicked (widgets env) reset_label = false →
  shows (dashboard df) env
    (fs ← filters df (widgets env);
     side ← sidebar_view df fs;
     fdf ← filtered_df df (department fs) (status fs) (rating_range fs);
     body ← report_view fdf;
     mret ((side ++ body)%list, tt)).
Proof.
  intros Hc. unfold dashboard. eapply shows_eq.
  { eapply shows_bind; [by apply sidebar_shows|intros fs].
    eapply shows_bind; [apply shows_lift|intros fdf]. apply report_shows. }
  destruct (filters df (widgets env)) as [fs|]; [|done]. view_simpl.
  destruct (sidebar_view df fs) as [side|]; [|done]. view_simpl.
  destruct (filtered_df _ _ _ _) as [fdf|]; [|done]. view_simpl.
  by destruct (report_view fdf).
Qed.

Lemma load_data_runs env c :
  runs load_data env c []
    (match load_result c (disk env) with Ok df => Some df | Err _ => None end)
    (load_result c (disk env)).
Proof. intros p. by rewrite load_data_run, app_nil_r. Qed.

(** A run in which the button is clicked stops below the button. *)
Lemma sidebar_runs_clicked df env c fs side :
  widget_clicked (widgets env) reset_label = true →
  filters df (widgets env) = Ok fs → sidebar_view df fs = Ok side →
  runs (sidebar df) env c side c (Err RerunException).
Proof.
  unfold filters, sidebar_view, sidebar. intros Hc.
  destruct (department_options df), (status_options df), (rating_min df),
    (rating_max df); simpl; try done. intros [= <-] [= <-]. solve_runs.
Qed.
(** The run of the script from the run of its part below the loader. *)
Lemma main_runs env c df els r :
  load_result c (disk env) = Ok df →
  runs (dashboard df) env (Some df) els (Some df) r →
  runs main env c (setup_view ++ els)%list (Some df) r.
Proof.
  intros Hload Hd. unfold main.
  eapply runs_bind_Ok; [apply page_setup_shows|]. rewrite <-(app_nil_l els).
  eapply runs_bind_Ok; [|done].
  eapply runs_eq; [apply load_data_runs|by rewrite ?Hload..].
Qed.

Lemma view_Ok_inv df w v :
  view df w = Ok v →
  ∃ fs side fdf body,
    filters df w = Ok fs ∧ sidebar_view df fs = Ok side
    ∧ filtered_df df (department fs) (status fs) (rating_range fs) = Ok fdf
    ∧ report_view fdf = Ok body ∧ v = (setup_view ++ side ++ body)%list.
Proof. unfold view. intros H. result_inv. naive_solver. Qed.
Lemma first_missing_None df : first_missing df = None ↔ complete df.
Proof.
  unfold first_missing, complete, use_order, schema. split.
  - intros H. case_missing H. set_solver.
  - intros H. rewrite filter_none; [done|].
    apply Forall_forall. intros n Hn ?. set_solver.
Qed.

Lemma first_missing_Some df n :
  first_missing df = Some n → n ∈ schema ∧ n ∉ columns df.
Proof.
  unfold first_missing, use_order, schema. intros H.
  case_missing H; set_solver.
Qed.

Lemma filters_first_missing df w n :
  first_missing df = Some n → n ∈ filter_columns →
  filters df w = Err (KeyError n).
Proof.
  unfold first_missing, use_order, filter_columns. intros H Hn.
  case_missing H; try (by exfalso; set_solver).
  all: unfold filters, department_options, status_options, rating_min,
    rating_max; by getitem_eval.
Qed.

Lemma filters_is_Ok df w : filter_columns ⊆ columns df → is_Ok (filters df w).
Proof.
  intros (? & ? & ?)%filter_columns_in.
  unfold filters, department_options, status_options, rating_min, rating_max.
  getitem_eval. by eexists.
Qed.

Lemma report_view_first_missing fdf n :
  first_missing fdf = Some n → n ∉ filter_columns →
  report_view fdf = Err (KeyError n).
Proof.
  unfold first_missing, use_order, filter_columns. intros H Hn.
  case_missing H; try (by exfalso; set_solver).
  all: unfold report_view, active_emp, avg_rating, dept_count, perf_count,
    type_count; by getitem_eval.
Qed.

Lemma report_view_is_Ok fdf : complete fdf → is_Ok (report_view fdf).
Proof.
  intros Hc. assert (Hc' := Hc). unfold complete, schema in Hc'.
  assert ("DepartmentType" ∈ columns fdf ∧ "EmployeeStatus" ∈ columns fdf
    ∧ "EmployeeType" ∈ columns fdf ∧ "Current Employee Rating" ∈ columns fdf
    ∧ "Performance Score" ∈ columns fdf) as (? & ? & ? & ? & ?) by set_solver.
  unfold report_view, active_emp, avg_rating, dept_count, perf_count,
    type_count, dept_perf, details. fold schema.
  getitem_eval. rewrite getitem_columns_Ok by done. by eexists.
Qed.
(** A missing column stops the sidebar before the button is reached,
    clicked or not. *)
Lemma sidebar_raises df env c e :
  filters df (widgets env) = Err e →
  ∃ els, runs (sidebar df) env c els c (Err (Raise e)).
Proof.
  unfold filters, sidebar.
  destruct (department_options df); simpl;
    [destruct (status_options df); simpl;
      [destruct (rating_min df); simpl;
        [destruct (rating_max df); simpl; [done|]|]|]|].
  all: intros [= <-]; eexists; solve_runs.
Qed.

Lemma sidebar_view_is_Ok df w fs :
  filters df w = Ok fs → is_Ok (sidebar_view df fs).
Proof.
  unfold filters, sidebar_view.
  destruct (department_options df), (status_options df), (rating_min df),
    (rating_max df); simpl; try done. by eexists.
Qed.

Lemma first_missing_filter_columns df n :
  first_missing df = Some n → n ∉ filter_columns → filter_columns ⊆ columns df.
Proof.
  unfold first_missing, use_order, filter_columns. intros H Hn.
  case_missing H; set_solver.
Qed.

Lemma view_filter_columns df w :
  filter_columns ⊆ columns df →
  ∃ fs side,
    filters df w = Ok fs ∧ sidebar_view df fs = Ok side
    ∧ view df w
      = (body ← report_view
                  {| columns := columns df;
                     rows := filter (λ r, selected (department fs) (status fs)
                                            (rating_range fs) r = true)
                               (rows df) |};
         mret (setup_view ++ side ++ body)%list).
Proof.
  intros Hcols. destruct (filters_is_Ok df w Hcols) as [fs Hfs]. exists fs.
  destruct (sidebar_view_is_Ok df w fs Hfs) as [side Hside]. exists side.
  split_and!; [done..|]. unfold view. rewrite Hfs. simpl. rewrite Hside.
  simpl. by rewrite filtered_df_Ok.
Qed.

Lemma view_first_missing df w n :
  first_missing df = Some n → view df w = Err (KeyError n).
Proof.
  intros Hn. destruct (decide (n ∈ filter_columns)) as [Hin|Hin].
  { unfold view. by rewrite (filters_first_missing df w n). }
  destruct (view_filter_columns df w) as (fs & side & _ & _ & ->);
    [by eapply first_missing_filter_columns|].
  by rewrite (report_view_first_missing _ n).
Qed.

Lemma view_complete df w : complete df → is_Ok (view df w).
Proof.
  intros Hc.
  destruct (view_filter_columns df w) as (fs & side & _ & _ & ->);
    [by apply complete_filter_columns|].
  destruct (report_view_is_Ok
    {| columns := columns df;
       rows := filter (λ r, selected (department fs) (status fs)
                              (rating_range fs) r = true) (rows df) |})
    as [body ->]; [done|]. by eexists.
Qed.
#[export] Instance main_cache_stable : CacheStable main.
Proof.
  unfold main, dashboard, report, kpi_row, sidebar.
  repeat (first [apply bind_cache_stable; [|intros ?]|apply _]).
  - case_match; apply _.
  - repeat case_match; apply _.
Qed.
Lemma report_view_Ok_inv fdf body :
  report_view fdf = Ok body →
  complete fdf
  ∧ (Main, Dataframe {| columns := schema; rows := rows fdf |} true) ∈ body
  ∧ (Column 0, Metric "Total Employees" (SInt (total_emp fdf))) ∈ body.
Proof.
  unfold report_view. intros H. result_inv.
  match goal with
  | H : details _ = Ok ?t |- _ =>
      apply getitem_columns_Ok_inv in H as (? & Hcols & Hrows);
      destruct t; simpl in Hcols, Hrows; rewrite Hcols, Hrows
  end.
  split; [done|]. split; repeat constructor.
Qed.
Lemma main_raises_runs env c df els e :
  load_result c (disk env) = Ok df →
  runs (dashboard df) env (Some df) els (Some df) (Err (Raise e)) →
  raises env c df e.
Proof.
  intros Hload Hr%(main_runs env c); [|done]. apply runs_run in Hr.
  unfold raises, outcome. by rewrite Hr.
Qed.

Lemma dashboard_runs df env fs :
  widget_clicked (widgets env) reset_label = false →
  filters df (widgets env) = Ok fs →
  match view df (widgets env) with
  | Ok v => ∃ els, v = (setup_view ++ els)%list
                 ∧ runs (dashboard df) env (Some df) els (Some df) (Ok tt)
  | Err e => ∃ els, runs (dashboard df) env (Some df) els (Some df)
                      (Err (Raise e))
  end.
Proof.
  intros Hc Hfs. pose proof (dashboard_shows df env Hc (Some df)) as Hd.
  revert Hd. unfold view. rewrite Hfs. simpl.
  destruct (sidebar_view df fs); simpl; [|done].
  destruct (filtered_df _ _ _ _) as [fdf|]; simpl; [|done].
  destruct (report_view fdf); simpl; [|done]. by eexists.
Qed.

Lemma main_run_cases env c : run_cases env c.
Proof.
  unfold run_cases. destruct (load_result c (disk env)) as [df|sg] eqn:Hload.
  2:{ apply runs_run. unfold main. rewrite <-(app_nil_r setup_view).
      eapply runs_bind_Ok; [apply page_setup_shows|]. apply runs_bind_Err.
      eapply runs_eq; [apply load_data_runs|by rewrite ?Hload..]. }
  destruct (filters df (widgets env)) as [fs|e] eqn:Hfs.
  2:{ destruct (sidebar_raises df env (Some df) e Hfs) as [els Hr].
      by eapply main_raises_runs, runs_bind_Err. }
  destruct (widget_clicked _ _) eqn:Hc.
  - destruct (sidebar_view_is_Ok df _ fs Hfs) as [side Hside].
    exists (setup_view ++ side)%list. unfold view_clicked.
    rewrite Hfs. simpl. rewrite Hside. split; [done|].
    apply runs_run. eapply main_runs; [done|].
    by eapply runs_bind_Err, sidebar_runs_clicked.
  - pose proof (dashboard_runs df env fs Hc Hfs) as Hd.
    destruct (view df (widgets env)).
    + destruct Hd as (els & -> & Hr). by eapply runs_run, main_runs.
    + destruct Hd as [els Hr]. by eapply main_raises_runs.
Qed.

End dashboard_lemmas.

(** ** Theorems *)

Section dashboard_theorems.
Implicit Types (df fdf : DataFrame) (env : Env) (st : RunState)
  (w : gmap string WidgetValue) (c : option DataFrame).

(** C2 (the script refines the view).  In a run that is not a click on the
    reset button, on a table whose page [view] is defined, the script ends
    normally, the page it has written is exactly [view] of the table and of
    the widget values of the session, and the table is in the cache. *)
Theorem main_refines_view env c df v :
  load_result c (disk env) = Ok df →
  widget_clicked (widgets env) reset_label = false →
  view df (widgets env) = Ok v →
  run main env c = ({| page := v; cache := Some df |}, Ok tt).
Proof.
  intros Hload Hc (fs & side & fdf & body & Hfs & Hs & Hf & Hb & ->)%view_Ok_inv.
  apply runs_run. eapply main_runs; [done|].
  pose proof (dashboard_shows df env Hc (Some df)) as Hd.
  rewrite Hfs in Hd. simpl in Hd. rewrite Hs in Hd. simpl in Hd.
  rewrite Hf in Hd. simpl in Hd. by rewrite Hb in Hd.
Qed.

Lemma main_refines_view_witness :
  ∃ v, run main sample_env None
       = ({| page := v; cache := Some sample_df |}, Ok tt)
       ∧ length v = 26.
Proof.
  eexists. split.
  - apply (main_refines_view sample_env None sample_df); vm_compute; reflexivity.
  - reflexivity.
Defined.

(** C27 (exceptions of a run).  When [view] raises, the run of the script
    ends with the same exception; the table stays in the cache. *)
Theorem main_raises env c df e :
  load_result c (disk env) = Ok df →
  widget_clicked (widgets env) reset_label = false →
  view df (widgets env) = Err e →
  outcome main env c = Err (Raise e) ∧ cache (run main env c).1 = Some df.
Proof.
  intros Hload Hc Hv.
  pose proof (dashboard_shows df env Hc (Some df)) as Hd.
  assert (∃ els, runs (dashboard df) env (Some df) els (Some df)
                   (Err (Raise e))) as [els Hr].
  { revert Hd Hv. unfold view.
    destruct (filters df (widgets env)) as [fs|]; simpl; [|naive_solver].
    destruct (sidebar_view df fs); simpl; [|naive_solver].
    destruct (filtered_df _ _ _ _) as [fdf|]; simpl; [|naive_solver].
    destruct (report_view fdf); simpl; naive_solver. }
  apply (main_runs env c) in Hr; [|done]. apply runs_run in Hr.
  unfold outcome. by rewrite Hr.
Qed.

Lemma main_raises_witness :
  outcome main (mkEnv ∅ {[csv_path := CsvTable sample_no_score]}) None
  = Err (Raise (KeyError "Performance Score"))
  ∧ cache (run main (mkEnv ∅ {[csv_path := CsvTable sample_no_score]}) None).1
    = Some sample_no_score.
Proof. apply main_raises; vm_compute; reflexivity. Defined.

(** C21 (a click on the reset button).  The run that the click starts
    writes the page down to the button, asks for another run and shows
    nothing of the report. *)
Theorem main_clicked env c df v :
  load_result c (disk env) = Ok df →
  widget_clicked (widgets env) reset_label = true →
  view_clicked df (widgets env) = Ok v →
  run main env c = ({| page := v; cache := Some df |}, Err RerunException).
Proof.
  intros Hload Hc Hv. unfold view_clicked in Hv. result_inv.
  apply runs_run. eapply main_runs; [done|]. unfold dashboard.
  by eapply runs_bind_Err, sidebar_runs_clicked.
Qed.

Lemma main_clicked_witness :
  ∃ v, run main sample_clicked None
       = ({| page := v; cache := Some sample_df |}, Err RerunException)
       ∧ length v = 7.
Proof.
  eexists. split.
  - apply (main_clicked sample_clicked None sample_df); vm_compute; reflexivity.
  - reflexivity.
Defined.

(** The load fails.  When the loader raises, the run ends with that
    exception after the page setup: nothing of the sidebar or of the report
    is written, and the cache stays empty. *)
Theorem main_load_error env c sg :
  load_result c (disk env) = Err sg →
  run main env c = ({| page := setup_view; cache := None |}, Err sg).
Proof.
  intros Hload. pose proof (main_run_cases env c) as H.
  unfold run_cases in H. by rewrite Hload in H.
Qed.
Lemma main_load_error_witness :
  run main (mkEnv ∅ ∅) None
  = ({| page := setup_view; cache := None |},
     Err (Raise (FileNotFoundError csv_path))).
Proof. by apply main_load_error. Defined.

(** C12 (which runs succeed).  A run on a loaded table succeeds exactly when
    the table has the five columns of the schema.  Otherwise it raises
    [KeyError] for the first missing column in the order in which the
    script reads them: DepartmentType, EmployeeStatus, Current Employee
    Rating, Performance Score, EmployeeType.  No other exception is
    possible: the figures and the unpacking of the columns never raise
    (the slider is taken to accept its bounds, see [slider]). *)
Theorem view_outcome df w :
  match first_missing df with
  | Some n =>
      n ∈ schema ∧ (n ∉ columns df) ∧ view df w = Err (KeyError n)
  | None => complete df ∧ is_Ok (view df w)
  end.
Proof.
  destruct (first_missing df) as [n|] eqn:E.
  - destruct (first_missing_Some df n E). by rewrite (view_first_missing df w n).
  - apply first_missing_None in E. by split; [|apply view_complete].
Qed.
(** C20 (a missing column is found by the sidebar).  The loader accepts a
    table without the column DepartmentType and caches it; the run raises
    [KeyError] where the options of the first control are computed, after
    the page setup and the header of the sidebar have been written. *)
Theorem main_missing_department env c df :
  load_result c (disk env) = Ok df → "DepartmentType" ∉ columns df →
  run main env c
  = ({| page := setup_view ++ [(Sidebar, Header "🔍 Filters")]%list;
        cache := Some df |},
     Err (Raise (KeyError "DepartmentType"))).
Proof.
  intros Hload Hd. apply runs_run. eapply main_runs; [done|].
  unfold dashboard, sidebar, department_options. getitem_eval.
  cbn [mbind result_bind]. solve_runs.
Qed.

Lemma main_missing_department_witness :
  run main (mkEnv ∅ {[csv_path := CsvTable (mkFrame [] sample_rows)]}) None
  = ({| page := setup_view ++ [(Sidebar, Header "🔍 Filters")]%list;
        cache := Some (mkFrame [] sample_rows) |},
     Err (Raise (KeyError "DepartmentType"))).
Proof. apply main_missing_department; [reflexivity|]. by apply not_elem_of_nil. Defined.

(** The page shows the selected records.  On a page that a run has
    written, the drill-down table holds the five columns of the schema and
    exactly the records of the table that satisfy the three controls, in
    the order of the table, and the first metric is their number. *)
Theorem view_shows_selected df w v :
  view df w = Ok v →
  ∃ fs, filters df w = Ok fs
    ∧ (Main, Dataframe
         {| columns := schema;
            rows := filter (λ r, selected (department fs) (status fs)
                                   (rating_range fs) r = true) (rows df) |}
         true) ∈ v
    ∧ (Column 0, Metric "Total Employees"
         (SInt (length (filter (λ r, selected (department fs) (status fs)
                                       (rating_range fs) r = true)
                          (rows df))))) ∈ v.
Proof.
  intros (fs & side & fdf & body & Hfs & _ & Hf & Hb & ->)%view_Ok_inv.
  exists fs. split; [done|].
  rewrite filtered_df_Ok in Hf by by eapply filtered_df_Ok_inv.
  injection Hf as <-. apply report_view_Ok_inv in Hb as (_ & Ht & Hm).
  rewrite !elem_of_app. by split; right; right.
Qed.

Lemma view_shows_selected_witness :
  ∃ fs, filters sample_df (widgets sample_env) = Ok fs
    ∧ (Main, Dataframe
         {| columns := schema;
            rows := filter (λ r, selected (department fs) (status fs)
                                   (rating_range fs) r = true)
                      (rows sample_df) |}
         true) ∈ from_Ok [] (view sample_df (widgets sample_env))
    ∧ (Column 0, Metric "Total Employees"
         (SInt (length (filter (λ r, selected (department fs) (status fs)
                                       (rating_range fs) r = true)
                          (rows sample_df)))))
      ∈ from_Ok [] (view sample_df (widgets sample_env)).
Proof. apply view_shows_selected. vm_compute. reflexivity. Defined.

(** The table of a process never changes.  A run of the script, however
    it ends, leaves a loaded table in the cache as it is: every session of
    the process reads the same table. *)
Theorem main_keeps_table env st df :
  cache st = Some df → cache (main env st).1 = Some df.
Proof. apply cache_stable. Qed.

Lemma main_keeps_table_witness :
  cache (main sample_clicked (mkRunState [] (Some sample_na))).1
  = Some sample_na.
Proof. by apply main_keeps_table. Defined.
(** A click on a table the sidebar rejects.  When the options of the
    controls cannot be computed, the run raises before it reaches the
    button: a click on the reset button then ends with the exception and
    with no other run. *)
Theorem main_clicked_raises env c df e :
  load_result c (disk env) = Ok df →
  filters df (widgets env) = Err e →
  outcome main env c = Err (Raise e) ∧ cache (run main env c).1 = Some df.
Proof.
  intros Hload [els Hr]%(sidebar_raises df env (Some df)).
  eapply runs_bind_Err, (main_runs env c) in Hr; [|done].
  apply runs_run in Hr. unfold outcome. by rewrite Hr.
Qed.

Lemma main_clicked_raises_witness :
  outcome main (mkEnv {[reset_label := WClicked]}
                  {[csv_path := CsvTable (mkFrame [] sample_rows)]}) None
  = Err (Raise (KeyError "DepartmentType"))
  ∧ cache (run main (mkEnv {[reset_label := WClicked]}
                       {[csv_path := CsvTable (mkFrame [] sample_rows)]})
                None).1
    = Some (mkFrame [] sample_rows).
Proof. apply main_clicked_raises; vm_compute; reflexivity. Defined.
End dashboard_theorems.
