(* ===== verification/Session.v ===== *)
(** * Session: the script under the events of a browser session

    Streamlit runs the script once when a session starts and once more
    after every interaction.  An interaction stores the new value of the
    widget under its label; a click on a button holds only for the run it
    starts.  A run that calls [st.experimental_rerun] is followed by
    another run with the same widget values.  The runtime is not part of
    [src/main.py]: [apply_event], [release], [run_loop] and [handle] follow
    the documented behaviour of Streamlit.

    The theorems show that an interaction costs at most two runs, that the
    page on the screen is always [view] of the table and of the stored
    widget values, that every interaction is answered by the page of the
    value chosen, what the first visit shows, what a click on the reset
    button does, and how the first page is reached again by hand. *)

From S2P Require Import Prelude Series Frame Plotly Streamlit.
From S2P Require Import Filter Aggregate Loader Dashboard.

Local Open Scope string_scope.

(** ** Data *)

(** What the user can do. *)
Inductive Event : Type :=
| SetDepartment (v : list string)
| SetStatus (v : list string)
| SetRating (v : float * float)
| ClickReset.

#[export] Instance Event_eq_dec : EqDecision Event.
Proof. solve_decision. Defined.

(** A session between two interactions: the stored widget values, the
    table of the process, what is on the screen, and the exception of the
    last run if it raised. *)
Record AppState : Type := mkApp {
  session : gmap string WidgetValue;
  table : option DataFrame;
  screen : list (Container * Element);
  failure : option Exn;
}.

(** ** Operations *)

(** The interaction is stored under the label of its widget. *)
Definition apply_event (ev : Event) (w : gmap string WidgetValue)
    : gmap string WidgetValue :=
  match ev with
  | SetDepartment v => <[department_label := WList v]> w
  | SetStatus v => <[status_label := WList v]> w
  | SetRating v => <[rating_label := WRange v]> w
  | ClickReset => <[reset_label := WClicked]> w
  end.

(** After a run the button is no longer clicked. *)
Definition release (w : gmap string WidgetValue) : gmap string WidgetValue :=
  delete reset_label w.

(** The state a run leaves, unless it asks for another run. *)
Definition finish (w : gmap string WidgetValue)
    (r : RunState * result Signal unit) : option AppState :=
  match r with
  | (st, Err RerunException) => None
  | (st, Err (Raise e)) => Some (mkApp (release w) (cache st) (page st) (Some e))
  | (st, Ok _) => Some (mkApp (release w) (cache st) (page st) None)
  end.

(** Runs of the script until one ends without asking for another. *)
Fixpoint run_loop (fuel : nat) (d : gmap string FileContent)
    (w : gmap string WidgetValue) (c : option DataFrame) : option AppState :=
  match fuel with
  | 0 => None
  | S n =>
      let r := run main (mkEnv w d) c in
      match finish w r with
      | Some s => Some s
      | None => run_loop n d (release w) (cache r.1)
      end
  end.

(** Two runs are enough for every interaction. *)
Definition rerun_bound : nat := 2.

(** The first visit of a session. *)
Definition first_visit (d : gmap string FileContent) (c : option DataFrame)
    : option AppState :=
  run_loop rerun_bound d ∅ c.

(** One interaction. *)
Definition handle (d : gmap string FileContent) (ev : Event) (s : AppState)
    : option AppState :=
  run_loop rerun_bound d (apply_event ev (session s)) (table s).

(** What an interaction means for the values of the controls. *)
Definition update (ev : Event) (fs : FilterState) : FilterState :=
  match ev with
  | SetDepartment v => mkFilterState v (status fs) (rating_range fs)
  | SetStatus v => mkFilterState (department fs) v (rating_range fs)
  | SetRating v => mkFilterState (department fs) (status fs) v
  | ClickReset => fs
  end.

(** The page of a table for given values of the three controls: what
    [view] writes once the controls have returned. *)
Definition page_of (df : DataFrame) (fs : FilterState)
    : result Exn (list (Container * Element)) :=
  side ← sidebar_view df fs;
  fdf ← filtered_df df (department fs) (status fs) (rating_range fs);
  body ← report_view fdf;
  mret (setup_view ++ side ++ body)%list.

(** A sequence of interactions, each answered before the next. *)
Fixpoint handle_all (d : gmap string FileContent) (evs : list Event)
    (s : AppState) : option AppState :=
  match evs with
  | [] => Some s
  | ev :: evs => handle d ev s ≫= handle_all d evs
  end.

(** The interactions that set the controls to the values [fs] by hand. *)
Definition restore_events (fs : FilterState) : list Event :=
  [SetDepartment (department fs); SetStatus (status fs);
   SetRating (rating_range fs)].

(** What the controls of a table let the user choose: a selection among
    the options, a range within the bounds with its ends in order. *)
Definition offered_range (lo hi : float) (v : float * float) : Prop :=
  ∃ a b lo' hi', v = (Some a, Some b) ∧ lo = Some lo' ∧ hi = Some hi'
    ∧ (lo' <= a)%Q ∧ (a <= b)%Q ∧ (b <= hi')%Q.

Definition offered (df : DataFrame) (ev : Event) : Prop :=
  match ev with
  | SetDepartment v => ∃ o, department_options df = Ok o ∧ v ⊆ o
  | SetStatus v => ∃ o, status_options df = Ok o ∧ v ⊆ o
  | SetRating v =>
      ∃ lo hi, rating_min df = Ok lo ∧ rating_max df = Ok hi
        ∧ offered_range lo hi v
  | ClickReset => True
  end.

(** The sessions of a process: an interaction that the controls offer,
    handled by the runtime. *)
Inductive step (d : gmap string FileContent) : AppState → Event → AppState → Prop :=
| step_handle s ev df s' :
    table s = Some df → offered df ev → handle d ev s = Some s' →
    step d s ev s'.

Inductive reachable (d : gmap string FileContent) (c : option DataFrame)
    : AppState → Prop :=
| reachable_first s : first_visit d c = Some s → reachable d c s
| reachable_step s ev s' : reachable d c s → step d s ev s' → reachable d c s'.

(** A state between two interactions, in a process that started with the
    cache [c]: the button is released; the table is the one the loader
    returns; the screen is the page of the table and of the stored values,
    or the last run raised what the page raises. *)
Definition settled (d : gmap string FileContent) (c : option DataFrame)
    (s : AppState) : Prop :=
  session s !! reset_label = None
  ∧ match load_result c d with
    | Ok df =>
        table s = Some df
        ∧ match view df (session s) with
          | Ok v => screen s = v ∧ failure s = None
          | Err e => failure s = Some e
          end
    | Err sg =>
        table s = None ∧ screen s = setup_view
        ∧ Raise <$> failure s = Some sg
    end.

(** The session of the sample process at its first visit, and after the
    user has chosen the department Sales. *)
Definition sample_first : AppState :=
  from_option id (mkApp ∅ None [] None) (first_visit (disk sample_env) None).

Definition sample_state : AppState :=
  from_option id (mkApp ∅ None [] None)
    (handle (disk sample_env) (SetDepartment ["Sales"]) sample_first).

(** ** Lemmas *)

Section session_lemmas.
Context (d : gmap string FileContent).
Implicit Types (w : gmap string WidgetValue) (c : option DataFrame)
  (df : DataFrame) (s : AppState) (ev : Event) (fs : FilterState).

Lemma release_lookup w : release w !! reset_label = None.
Proof. apply lookup_delete_eq. Qed.

Lemma release_released w : w !! reset_label = None → release w = w.
Proof. apply delete_id. Qed.

Lemma release_click w :
  w !! reset_label = None → release (apply_event ClickReset w) = w.
Proof. intros ?. unfold release. simpl. by rewrite delete_insert_id. Qed.

Lemma release_idemp w : release (release w) = release w.
Proof. apply release_released, release_lookup. Qed.

(** The controls do not read the button. *)
Lemma filters_release df w : filters df (release w) = filters df w.
Proof.
  unfold filters, release.
  destruct (department_options df), (status_options df), (rating_min df),
    (rating_max df); simpl; try done.
  by rewrite !widget_list_delete_ne, widget_range_delete_ne.
Qed.

Lemma view_release df w : view df (release w) = view df w.
Proof. unfold view. by rewrite filters_release. Qed.

Lemma view_filters_Err df w e : filters df w = Err e → view df w = Err e.
Proof. unfold view. by intros ->. Qed.

Lemma load_result_Some df : load_result (Some df) d = Ok df.
Proof. done. Qed.

(** A run without a click settles. *)
Lemma finish_settled w c df :
  widget_clicked w reset_label = false → load_result c d = Ok df →
  ∃ s, finish w (run main (mkEnv w d) c) = Some s
    ∧ session s = release w ∧ table s = Some df
    ∧ match view df w with
      | Ok v => screen s = v ∧ failure s = None
      | Err e => failure s = Some e
      end.
Proof.
  intros Hc Hl. pose proof (main_run_cases (mkEnv w d) c) as H.
  unfold run_cases, raises, outcome in H. simpl in H. rewrite Hl, Hc in H.
  destruct (filters df w) as [fs|e] eqn:Hfs.
  2: rewrite (view_filters_Err df w e Hfs).
  2: destruct (run main _ c) as [st r], H; simplify_eq/=; by eexists.
  destruct (view df w).
  - rewrite H. by eexists.
  - destruct (run main _ c) as [st r], H; simplify_eq/=; by eexists.
Qed.

(** Every interaction settles within two runs. *)
Lemma run_loop_settled w c :
  ∃ s, run_loop rerun_bound d w c = Some s
    ∧ session s = release w ∧ settled d c s.
Proof.
  unfold settled. simpl.
  pose proof (main_run_cases (mkEnv w d) c) as H.
  unfold run_cases, raises, outcome in H. simpl in H.
  destruct (load_result c d) as [df|sg] eqn:Hl.
  2:{ rewrite H. apply load_result_Err_inv in Hl as (_ & [[_ ->]|[_ ->]]);
        (eexists; split; [reflexivity|]; simpl; by rewrite release_lookup). }
  destruct (widget_clicked w reset_label) eqn:Hc.
  2:{ destruct (finish_settled w c df Hc Hl) as (s & -> & Hs & ? & ?).
      exists s. by rewrite Hs, release_lookup, view_release. }
  destruct (filters df w) as [fs|e] eqn:Hfs.
  - destruct H as (v & _ & ->). simpl.
    destruct (finish_settled (release w) (Some df) df) as (s & -> & Hs & ? & ?);
      [by apply widget_clicked_None, release_lookup|done|].
    exists s. by rewrite Hs, release_idemp, release_lookup.
  - destruct (run main _ c) as [st r], H; simplify_eq/=.
    eexists; split; [reflexivity|]; simpl.
    by rewrite release_lookup, view_release, (view_filters_Err df w e).
Qed.

Lemma settled_load c s :
  settled d c s → load_result (table s) d = load_result c d.
Proof.
  intros [_ H]. destruct (load_result c d) as [df|sg] eqn:Hl.
  - by destruct H as [-> _].
  - destruct H as (-> & _).
    by destruct (load_result_Err_inv _ _ _ Hl) as [-> _].
Qed.

Lemma settled_table c s : settled d c s → settled d (table s) s.
Proof. intros H. unfold settled. rewrite (settled_load c s H). apply H. Qed.

(** Two settled states that have the same page differ at most in what
    is on the screen beside the exception. *)
Lemma settled_agree_view c s s' :
  settled d c s → settled d c s' →
  (∀ df, load_result c d = Ok df →
     view df (session s') = view df (session s)) →
  table s' = table s ∧ failure s' = failure s
  ∧ (failure s = None → screen s' = screen s).
Proof.
  intros [_ H] [_ H'] Hs.
  destruct (load_result c d) as [df|sg].
  - destruct H as [-> H], H' as [-> H']. rewrite Hs in H' by done.
    destruct (view df (session s)).
    + destruct H as [-> ->], H' as [-> ->]. done.
    + rewrite H, H'. done.
  - destruct H as (-> & -> & H), H' as (-> & -> & H').
    destruct (failure s), (failure s'); naive_solver.
Qed.

Lemma settled_agree c s s' :
  settled d c s → settled d c s' → session s' = session s →
  table s' = table s ∧ failure s' = failure s
  ∧ (failure s = None → screen s' = screen s).
Proof.
  intros ?? Hs. apply (settled_agree_view c); [done..|]. by rewrite Hs.
Qed.

Lemma run_loop_fuel n k w c s :
  run_loop n d w c = Some s → run_loop (n + k) d w c = Some s.
Proof.
  revert w c. induction n as [|n IH]; intros w c; simpl; [done|].
  destruct (finish w _); [done|]. apply IH.
Qed.

(** The controls read back what the interaction has stored. *)
Lemma filters_apply_event df w ev fs :
  filters df w = Ok fs → filters df (apply_event ev w) = Ok (update ev fs).
Proof.
  unfold filters.
  destruct (department_options df), (status_options df), (rating_min df),
    (rating_max df); simpl; try done. intros [= <-].
  destruct ev; simpl;
    by rewrite ?widget_list_insert, ?widget_range_insert,
      ?widget_list_insert_ne, ?widget_range_insert_ne by done.
Qed.

(** The page depends on the widget values through the controls only. *)
Lemma view_filters df w w' :
  filters df w = filters df w' → view df w = view df w'.
Proof. unfold view. by intros ->. Qed.

Lemma settled_loaded c c' s :
  load_result c d = load_result c' d → settled d c s → settled d c' s.
Proof. unfold settled. by intros ->. Qed.

(** Whether the controls can be built depends on the table alone. *)
Lemma filters_is_Ok_widgets df w w' :
  is_Ok (filters df w) → is_Ok (filters df w').
Proof.
  unfold filters, is_Ok.
  destruct (department_options df), (status_options df), (rating_min df),
    (rating_max df); simpl; naive_solver.
Qed.
Lemma run_loop_Some w c s :
  run_loop rerun_bound d w c = Some s → session s = release w ∧ settled d c s.
Proof.
  destruct (run_loop_settled w c) as (s' & -> & ? & ?). by intros [= <-].
Qed.

Lemma handle_Some ev s s' df :
  table s = Some df → handle d ev s = Some s' →
  session s' = release (apply_event ev (session s)) ∧ table s' = Some df
  ∧ settled d (Some df) s'.
Proof.
  unfold handle. intros -> [Hs Hset]%run_loop_Some. split_and!; [done| |done].
  destruct Hset as [_ Hset]. rewrite load_result_Some in Hset. apply Hset.
Qed.

Lemma reachable_inv c s : reachable d c s → settled d c s.
Proof.
  induction 1 as [s Hs|s ev s' _ IHs Hstep].
  - by apply run_loop_Some in Hs as [_ ?].
  - destruct Hstep as [s ev df s' Ht Hev Hs'].
    destruct (handle_Some ev s s' df Ht Hs') as (_ & _ & Hset).
    unfold settled. rewrite <-(settled_load c s IHs), Ht. apply Hset.
Qed.

(** [view] reads the controls and writes their page. *)
Lemma view_page_of df w : view df w = filters df w ≫= page_of df.
Proof. done. Qed.

(** On a table with the five columns the page of the values of the
    controls is written, and its drill-down table holds the records they
    select. *)
Lemma page_of_complete df w fs :
  complete df → filters df w = Ok fs →
  ∃ v, page_of df fs = Ok v
    ∧ (Main, Dataframe
         {| columns := schema;
            rows := filter (λ r, selected (department fs) (status fs)
                                   (rating_range fs) r = true) (rows df) |}
         true) ∈ v.
Proof.
  intros Hc Hfs. destruct (view_complete df w Hc) as [v Hv]. exists v.
  destruct (view_shows_selected df w v Hv) as (fs' & Hfs' & ? & _).
  rewrite view_page_of, Hfs in Hv. rewrite Hfs in Hfs'. by simplify_eq.
Qed.

Lemma filters_empty_inv df fs :
  filters df ∅ = Ok fs →
  ∃ o1 o2 lo hi,
    department_options df = Ok o1 ∧ status_options df = Ok o2
    ∧ rating_min df = Ok lo ∧ rating_max df = Ok hi
    ∧ fs = mkFilterState o1 o2 (lo, hi).
Proof.
  unfold filters.
  destruct (department_options df), (status_options df), (rating_min df),
    (rating_max df); simpl; try done. intros [= <-].
  unfold widget_list, widget_range. rewrite !lookup_empty. naive_solver.
Qed.

Lemma rating_bounds_ordered df lo hi :
  rating_min df = Ok (Some lo) → rating_max df = Ok (Some hi) → (lo <= hi)%Q.
Proof.
  unfold rating_min, rating_max. intros Hlo Hhi. result_inv. getitem_inv.
  by eapply series_min_le_max.
Qed.

(** Every interaction is answered, in a state that is settled again. *)
Lemma handle_settled ev s df :
  table s = Some df →
  ∃ s', handle d ev s = Some s'
    ∧ session s' = release (apply_event ev (session s))
    ∧ table s' = Some df ∧ settled d (Some df) s'.
Proof.
  intros Ht. unfold handle.
  destruct (run_loop_settled (apply_event ev (session s)) (table s))
    as (s' & Hs' & _). exists s'. split; [done|].
  by apply (handle_Some ev s).
Qed.

(** The controls after a sequence of interactions. *)
Lemma handle_all_filters evs s df fs :
  table s = Some df → filters df (session s) = Ok fs →
  ∃ s', handle_all d evs s = Some s'
    ∧ filters df (session s') = Ok (foldl (flip update) fs evs)
    ∧ table s' = Some df ∧ (evs ≠ [] → settled d (Some df) s').
Proof.
  revert s fs. induction evs as [|ev evs IH]; intros s fs Ht Hfs; simpl.
  { by exists s. }
  destruct (handle_settled ev s df Ht) as (s1 & -> & Hs1 & Ht1 & Hset1). simpl.
  destruct (IH s1 (update ev fs)) as (s' & Hs' & Hfs' & Ht' & Hset');
    [done|by rewrite Hs1, filters_release, (filters_apply_event df _ ev fs)|].
  exists s'. split_and!; [done..|]. intros _.
  destruct evs; [by simplify_eq/=|by apply Hset'].
Qed.

(** The defaults of the controls are offered, when the table has a
    rating. *)
Lemma restore_events_offered df fs lo hi :
  filters df ∅ = Ok fs → rating_range fs = (Some lo, Some hi) →
  Forall (offered df) (restore_events fs).
Proof.
  intros (o1 & o2 & lo' & hi' & ? & ? & Hlo & Hhi & ->)%filters_empty_inv.
  simpl. intros [= -> ->]. repeat constructor; simpl; [by eauto..|].
  exists (Some lo), (Some hi). split_and!; [done..|].
  exists lo, hi, lo, hi. split_and!; try done.
  by eapply rating_bounds_ordered.
Qed.

Lemma sample_reachable : reachable (disk sample_env) None sample_state.
Proof.
  apply (reachable_step _ _ sample_first (SetDepartment ["Sales"]));
    [apply reachable_first; vm_compute; reflexivity|].
  apply (step_handle _ _ _ sample_df); [vm_compute; reflexivity| |].
  - exists ["Sales"; "Eng"]. split; [reflexivity|set_solver].
  - vm_compute; reflexivity.
Qed.
End session_lemmas.

(** ** Theorems *)

Section session_theorems.
Context (d : gmap string FileContent).
Implicit Types (w : gmap string WidgetValue) (c : option DataFrame)
  (df : DataFrame) (s : AppState) (ev : Event) (fs : FilterState).

(** C7 (an interaction costs at most two runs).  Whatever the table, the
    stored values and the disk, the runs that an interaction starts end:
    the second run at the latest does not ask for another, and more fuel
    changes nothing. *)
Theorem run_loop_terminates w c n :
  is_Some (run_loop rerun_bound d w c)
  ∧ run_loop (rerun_bound + n) d w c = run_loop rerun_bound d w c.
Proof.
  destruct (run_loop_settled d w c) as (s & Hs & _).
  split; [by eexists|]. rewrite Hs. by apply run_loop_fuel.
Qed.

(** C13 (the screen is the page of the stored values).  In every state that
    a session reaches, the button is released, the table is the one the
    loader returned, and the screen shows [view] of the table and of the
    stored widget values; when [view] raises, the last run raised the same
    exception. *)
Theorem reachable_settled c s : reachable d c s → settled d c s.
Proof. apply reachable_inv. Qed.

(** C3 (the reset button resets nothing).  A click on the reset button
    leaves the stored values of the three controls, the table and the
    outcome as they were; when the page was shown without exception, the
    state after the click is the state before it. *)
Theorem reset_is_identity c s :
  settled d c s →
  ∃ s', handle d ClickReset s = Some s'
    ∧ session s' = session s ∧ table s' = table s ∧ failure s' = failure s
    ∧ (failure s = None → s' = s).
Proof.
  intros Hs. unfold handle.
  destruct (run_loop_settled d (apply_event ClickReset (session s)) (table s))
    as (s' & -> & Hw & Hs').
  rewrite release_click in Hw by apply Hs.
  destruct (settled_agree d _ s s' (settled_table d c s Hs) Hs' Hw)
    as (Ht & Hf & Hscr).
  exists s'. split_and!; [done..|]. intros Hnone. specialize (Hscr Hnone).
  destruct s, s'; simplify_eq/=. done.
Qed.

(** The table of a session never changes.  Once a session has a
    table, every interaction leaves it the same table. *)
Theorem handle_keeps_table ev s s' df :
  table s = Some df → handle d ev s = Some s' → table s' = Some df.
Proof. intros Ht Hs. by destruct (handle_Some d ev s s' df Ht Hs) as (_ & ? & _). Qed.

(** C19 (what is chosen is what is shown).  Every interaction is answered,
    and the answer is the page of the value chosen: the runs that answer it
    end in a state with the same table, in which the control of the
    interaction returns the value chosen and the other two what they
    returned before ([update]), and in which the browser shows the page
    that the script writes for these three values ([page_of]), or the
    last run raised what writing that page raises.  On a table with the
    five columns no run raises, and the drill-down table on the screen
    holds exactly the records that the three values select.  A click
    changes none of the three values. *)
Theorem event_round_trip ev s df fs :
  table s = Some df → filters df (session s) = Ok fs →
  ∃ s', handle d ev s = Some s'
    ∧ table s' = Some df
    ∧ filters df (session s') = Ok (update ev fs)
    ∧ match page_of df (update ev fs) with
      | Ok v => screen s' = v ∧ failure s' = None
      | Err e => failure s' = Some e
      end
    ∧ (complete df →
       failure s' = None
       ∧ (Main, Dataframe
            {| columns := schema;
               rows := filter (λ r, selected (department (update ev fs))
                                      (status (update ev fs))
                                      (rating_range (update ev fs)) r = true)
                         (rows df) |} true) ∈ screen s').
Proof.
  intros Ht Hfs.
  destruct (handle_settled d ev s df Ht) as (s' & Hs' & Hw & Ht' & _ & Hset).
  assert (filters df (session s') = Ok (update ev fs)) as Hfs'
    by (by rewrite Hw, filters_release, (filters_apply_event df _ ev fs)).
  exists s'. split_and!; [done..| |]; rewrite load_result_Some in Hset;
    destruct Hset as [_ Hset]; rewrite view_page_of, Hfs' in Hset; [done|].
  intros Hc. destruct (page_of_complete df _ _ Hc Hfs') as (v & Hv & ?).
  simpl in Hset. rewrite Hv in Hset. by destruct Hset as [-> ->].
Qed.

(** C22 (the first page can be restored by hand).  From every settled
    state of a session on a table with a rating, three interactions that
    the controls offer (all departments, all statuses, the full range)
    lead to a state whose controls hold their defaults and in which the
    browser shows what the first visit shows: what the reset button is
    meant to do can be done by hand. *)
Theorem restore_by_hand c s df fs lo hi :
  settled d c s → table s = Some df →
  filters df ∅ = Ok fs → rating_range fs = (Some lo, Some hi) →
  Forall (offered df) (restore_events fs)
  ∧ ∃ s', handle_all d (restore_events fs) s = Some s'
      ∧ filters df (session s') = Ok fs
      ∧ ∀ s0, first_visit d c = Some s0 →
          failure s' = failure s0
          ∧ (failure s0 = None → screen s' = screen s0).
Proof.
  intros Hs Ht Hfs Hr. split; [by eapply restore_events_offered|].
  destruct (filters_is_Ok_widgets df ∅ (session s)) as [fs1 Hfs1]; [by eexists|].
  destruct (handle_all_filters d (restore_events fs) s df fs1 Ht Hfs1)
    as (s' & Hs' & Hfs' & Ht' & Hset'). exists s'.
  assert (foldl (flip update) fs1 (restore_events fs) = fs) as Hfs0.
  { by destruct fs. }
  rewrite Hfs0 in Hfs'. split_and!; [done..|].
  intros s0 [Hs0 Hset0]%run_loop_Some.
  pose proof (settled_load d c s Hs) as Hl. rewrite Ht in Hl.
  destruct (settled_agree_view d c s0 s' Hset0) as (_ & ? & ?); [| |done].
  - apply (settled_loaded d (Some df)); [done|]. by apply Hset'.
  - intros df' Hl'. rewrite <-Hl in Hl'. injection Hl' as <-.
    apply view_filters. by rewrite Hs0, filters_release, Hfs.
Qed.

(** C23 (the first visit).  The first visit of a session to a process whose
    table has the five columns is answered and shows the page without
    exception; its drill-down table holds the records that have a
    department, a status and a rating, and no other: records with a
    missing value in one of the three filtered columns are not shown,
    although no filter is set. *)
Theorem first_visit_shows_filterable c df :
  load_result c d = Ok df → complete df →
  ∃ s, first_visit d c = Some s
    ∧ table s = Some df ∧ failure s = None
    ∧ (Main, Dataframe {| columns := schema;
                          rows := filter filterable (rows df) |} true)
      ∈ screen s.
Proof.
  intros Hl Hc. unfold first_visit.
  destruct (run_loop_settled d ∅ c) as (s & -> & Hs & _ & Hset).
  exists s. rewrite Hl in Hset. destruct Hset as [Ht Hv].
  rewrite Hs, view_release in Hv.
  destruct (view_complete df ∅ Hc) as [v Hview]. rewrite Hview in Hv.
  destruct Hv as [-> ->]. split_and!; [done..|].
  apply view_Ok_inv in Hview
    as (fs & side & fdf & body & Hfs & _ & Hf & Hb & ->).
  apply filters_empty_inv in Hfs
    as (o1 & o2 & lo & hi & Ho1 & Ho2 & Hlo & Hhi & ->).
  simpl in Hf. rewrite (filtered_df_default_rows df) in Hf by done.
  injection Hf as <-. apply report_view_Ok_inv in Hb as (_ & Ht' & _).
  rewrite !elem_of_app. by right; right.
Qed.
End session_theorems.

(** ** The theorems on the sample session *)

Lemma reachable_settled_witness : settled (disk sample_env) None sample_state.
Proof. apply reachable_settled, sample_reachable. Defined.

Lemma reset_is_identity_witness :
  ∃ s', handle (disk sample_env) ClickReset sample_state = Some s'
    ∧ session s' = session sample_state ∧ table s' = table sample_state
    ∧ failure s' = failure sample_state
    ∧ (failure sample_state = None → s' = sample_state).
Proof.
  apply (reset_is_identity (disk sample_env) None).
  apply (reachable_inv _ _ _ sample_reachable).
Defined.

Lemma handle_keeps_table_witness : table sample_state = Some sample_df.
Proof.
  apply (handle_keeps_table (disk sample_env) (SetDepartment ["Sales"])
    sample_first); vm_compute; reflexivity.
Defined.

Lemma event_round_trip_witness :
  ∃ s', handle (disk sample_env) (SetStatus ["Active"]) sample_state = Some s'
    ∧ filters sample_df (session s')
      = Ok (mkFilterState ["Sales"] ["Active"] (Some 1%Q, Some 5%Q))
    ∧ (Column 0, Metric "Total Employees" (SInt 3)) ∈ screen s'
    ∧ failure s' = None.
Proof.
  destruct (event_round_trip (disk sample_env) (SetStatus ["Active"])
    sample_state sample_df
    (mkFilterState ["Sales"] ["Active"; "Terminated"] (Some 1%Q, Some 5%Q)))
    as (s' & Hs' & _ & Hfs' & Hpage & _); [vm_compute; reflexivity..|].
  exists s'. destruct s' as [w t scr f]. vm_compute in Hpage.
  destruct Hpage as [-> ->]. split_and!; [done..|repeat constructor|done].
Defined.

Lemma restore_by_hand_witness :
  let fs := mkFilterState ["Sales"; "Eng"] ["Active"; "Terminated"]
              (Some 1%Q, Some 5%Q) in
  Forall (offered sample_df) (restore_events fs)
  ∧ ∃ s', handle_all (disk sample_env) (restore_events fs) sample_state = Some s'
      ∧ filters sample_df (session s') = Ok fs
      ∧ ∀ s0, first_visit (disk sample_env) None = Some s0 →
          failure s' = failure s0
          ∧ (failure s0 = None → screen s' = screen s0).
Proof.
  apply (restore_by_hand (disk sample_env) None sample_state sample_df _ 1 5);
    [apply (reachable_inv _ _ _ sample_reachable)|vm_compute; reflexivity..].
Defined.

Lemma first_visit_shows_filterable_witness :
  ∃ s, first_visit {[csv_path := CsvTable sample_na]} None = Some s
    ∧ table s = Some sample_na ∧ failure s = None
    ∧ (Main, Dataframe {| columns := schema;
                          rows := filter filterable (rows sample_na) |} true)
      ∈ screen s.
Proof.
  apply (first_visit_shows_filterable {[csv_path := CsvTable sample_na]} None
    sample_na); [vm_compute; reflexivity|by intros x].
Defined.

(** Scenario: reset after a filter.  The user opens the dashboard of
    the sample table, selects the department Sales and clicks the reset
    button.  The first visit shows 5 employees; after the selection the
    page shows 3; after the click the state is what it was before the
    click: the selection is still Sales and the page still shows 3. *)
Example reset_does_not_restore :
  ∃ s0 s1,
    first_visit (disk sample_env) None = Some s0
    ∧ handle (disk sample_env) (SetDepartment ["Sales"]) s0 = Some s1
    ∧ handle (disk sample_env) ClickReset s1 = Some s1
    ∧ (Column 0, Metric "Total Employees" (SInt 5)) ∈ screen s0
    ∧ (Column 0, Metric "Total Employees" (SInt 3)) ∈ screen s1
    ∧ department <$> filters sample_df (session s1) = Ok ["Sales"]
    ∧ department <$> filters sample_df ∅ = Ok ["Sales"; "Eng"].
Proof.
  exists sample_first, sample_state.
  split_and!; [vm_compute; reflexivity..| | |reflexivity|reflexivity];
    vm_compute; repeat constructor.
Qed.
