(* ===== verification/Runner.v ===== *)
(** * Runner: the runs of a session as a transition system

    [Session.run_loop] answers an interaction in one go, with fuel.  Here
    the same runtime is a transition system whose step is one run of the
    script: a client holds the stored widget values, what its browser
    shows, and whether a run is requested ([pending]).  An interaction
    requests a run ([request]); a run that calls [st.experimental_rerun]
    requests the next one ([run_client]).  Like [Session], the file follows
    the documented behaviour of Streamlit.

    The runtime runs any script.  What it needs of a script to keep its
    promises is the interface [Rerunnable]: the script reads the cache
    through the loader only, leaves the loaded table in the cache, and
    asks for another run only when the reset button is clicked.  The
    lemmas on the runs are proved for every script of the interface;
    [main] of [src/main.py] is an instance ([main_rerunnable]).

    The theorems show that the runs of a session cannot go on for ever
    (every sequence of runs is finite and has at most two steps), that a
    run has one result, and that [run_loop] computes exactly the state in
    which the runs of [main] come to rest. *)

From S2P Require Import Prelude Series Frame Plotly Streamlit.
From S2P Require Import Filter Aggregate Loader Dashboard Session.

Local Open Scope string_scope.

(** ** Data *)

(** A browser session as the server holds it. *)
Record Client : Type := mkClient {
  values : gmap string WidgetValue;
  pending : bool;
  shown : list (Container * Element);
  raised : option Exn;
}.

(** ** Operations *)

(** A new session: no widget has a value, the first run is requested. *)
Definition connect : Client := mkClient ∅ true [] None.

(** An interaction stores its value and requests a run. *)
Definition request (ev : Event) (cl : Client) : Client :=
  mkClient (apply_event ev (values cl)) true (shown cl) (raised cl).

(** How a run ended: with a request for the next run, with an exception. *)
Definition asks_rerun (r : result Signal unit) : bool :=
  match r with Err RerunException => true | _ => false end.

Definition exception_of (r : result Signal unit) : option Exn :=
  match r with Err (Raise e) => Some e | _ => None end.

(** The table in the cache after a run from the cache [c]. *)
Definition cache_after (d : gmap string FileContent) (c : option DataFrame)
    : option DataFrame :=
  match load_result c d with Ok df => Some df | Err _ => None end.

(** One run of the script [app] for a client, from the cache [c]. *)
Definition run_client (app : Script unit) (d : gmap string FileContent)
    (c : option DataFrame) (cl : Client) : option DataFrame * Client :=
  let r := run app (mkEnv (values cl) d) c in
  (cache r.1,
   mkClient (release (values cl)) (asks_rerun r.2) (page r.1)
     (exception_of r.2)).

(** The runs of one session: a requested run is made. *)
Inductive run_step (app : Script unit) (d : gmap string FileContent)
    : relation (option DataFrame * Client) :=
| run_step_run c cl :
    pending cl = true → run_step app d (c, cl) (run_client app d c cl).

(** The runs a client still needs: two when the button is clicked, one
    when a run is requested, none at rest. *)
Definition runs_left (cl : Client) : nat :=
  if pending cl
  then if widget_clicked (values cl) reset_label then 2 else 1
  else 0.

(** A state of [Session] as a client at rest, and back. *)
Definition at_rest (s : AppState) : option DataFrame * Client :=
  (table s, mkClient (session s) false (screen s) (failure s)).

Definition app_state (x : option DataFrame * Client) : AppState :=
  mkApp (values x.2) x.1 (shown x.2) (raised x.2).

(** The sample session after a click on the reset button, before the
    runs. *)
Definition sample_client : option DataFrame * Client :=
  (Some sample_df, request ClickReset (at_rest sample_state).2).

(** ** The interface of a script

    What the runtime needs of the script it runs: the script reads the
    cache through [load_data] only, so that a run from an empty cache and
    a run from the loaded table are the same run; it leaves in the cache
    the table the loader returns; it asks for another run only when the
    reset button is clicked. *)
Class Rerunnable (app : Script unit) : Prop := {
  rerun_loaded env c df :
    load_result c (disk env) = Ok df → run app env c = run app env (Some df);
  rerun_cache env c : cache (run app env c).1 = cache_after (disk env) c;
  rerun_clicked env c :
    asks_rerun (run app env c).2 = true →
    widget_clicked (widgets env) reset_label = true;
}.

(** ** Lemmas: the runs of a script of the interface *)

Section rerunnable.
Context (app : Script unit) `{!Rerunnable app} (d : gmap string FileContent).
Implicit Types (w : gmap string WidgetValue) (c : option DataFrame)
  (df : DataFrame) (cl : Client) (x y : option DataFrame * Client).

Lemma cache_after_load c : load_result (cache_after d c) d = load_result c d.
Proof.
  unfold cache_after. destruct (load_result c d) eqn:Hl; [done|].
  by apply load_result_Err_inv in Hl as Hl'; destruct Hl' as [-> _].
Qed.

Lemma cache_after_idemp c : cache_after d (cache_after d c) = cache_after d c.
Proof. unfold cache_after at 1 3. by rewrite cache_after_load. Qed.

Lemma run_client_cache c cl : (run_client app d c cl).1 = cache_after d c.
Proof. apply (rerun_cache (mkEnv _ d)). Qed.

(** A run answers from the table, wherever it comes from. *)
Lemma run_client_loaded c c' cl :
  load_result c d = load_result c' d →
  (run_client app d c cl).2 = (run_client app d c' cl).2.
Proof.
  intros Hl. unfold run_client. simpl.
  destruct (load_result c' d) as [df|sg] eqn:Hl'.
  - by rewrite (rerun_loaded (mkEnv _ d) c df),
      (rerun_loaded (mkEnv _ d) c' df).
  - apply load_result_Err_inv in Hl as [-> _].
    by apply load_result_Err_inv in Hl' as [-> _].
Qed.

(** Every run brings the client nearer to rest. *)
Lemma run_client_runs_left c cl :
  pending cl = true → runs_left (run_client app d c cl).2 < runs_left cl.
Proof.
  unfold runs_left. intros ->. simpl.
  destruct (asks_rerun _) eqn:Hr.
  - apply (rerun_clicked (mkEnv _ d)) in Hr. simpl in Hr. rewrite Hr.
    rewrite widget_clicked_None by apply release_lookup. lia.
  - destruct (widget_clicked _ _); lia.
Qed.

Lemma run_step_inv x y :
  run_step app d x y ↔ pending x.2 = true ∧ y = run_client app d x.1 x.2.
Proof.
  split; [by destruct 1|]. destruct x as [c cl]. intros [? ->]. by constructor.
Qed.

Lemma run_step_runs_left x y :
  run_step app d x y → runs_left y.2 < runs_left x.2.
Proof. destruct 1. by apply run_client_runs_left. Qed.

Lemma run_step_det : deterministic (run_step app d).
Proof. intros x y1 y2 [_ ->]%run_step_inv [_ ->]%run_step_inv. done. Qed.

Lemma run_step_red x : red (run_step app d) x ↔ pending x.2 = true.
Proof.
  split; [by intros [y [? _]%run_step_inv]|].
  intros ?. exists (run_client app d x.1 x.2). by apply run_step_inv.
Qed.

Lemma run_step_nf x : nf (run_step app d) x ↔ pending x.2 = false.
Proof. unfold nf. rewrite run_step_red. by destruct (pending x.2). Qed.

Lemma run_step_sn x : sn (run_step app d) x.
Proof.
  apply (wf_projected (R1:=flip (run_step app d)) lt (λ x, runs_left x.2));
    [intros ??; apply run_step_runs_left|apply lt_wf].
Qed.

Lemma nsteps_runs_left n x y :
  nsteps (run_step app d) n x y → (n + runs_left y.2 ≤ runs_left x.2)%nat.
Proof.
  induction 1 as [|n x y z Hxy%run_step_runs_left _ IH]; simpl; lia.
Qed.

(** The runs of a client are the same from every cache that gives the
    same table. *)
Lemma run_step_loaded x y c :
  rtc (run_step app d) x y → load_result x.1 d = load_result c d →
  ∃ c', rtc (run_step app d) (c, x.2) (c', y.2).
Proof.
  intros H. revert c. induction H as [x|x y z [Hp ->]%run_step_inv _ IH];
    intros c Hl; [by exists c|].
  destruct (IH (cache_after d c)) as [c' Hc'].
  { by rewrite run_client_cache, !cache_after_load. }
  exists c'. eapply rtc_l; [by apply run_step_inv|]. simpl.
  replace (run_client app d c x.2)
    with (cache_after d c, (run_client app d x.1 x.2).2); [done|].
  apply injective_projections;
    [symmetry; apply run_client_cache|by apply run_client_loaded].
Qed.

End rerunnable.

(** ** Lemmas: the script of the dashboard *)

Section runner_lemmas.
Context (d : gmap string FileContent).
Implicit Types (w : gmap string WidgetValue) (c : option DataFrame)
  (df : DataFrame) (s : AppState) (cl : Client)
  (x y : option DataFrame * Client).

(** [main] reads the cache through the loader only. *)
Lemma main_run_loaded env c df :
  load_result c (disk env) = Ok df → run main env c = run main env (Some df).
Proof.
  intros Hl. unfold run, main.
  rewrite !script_bind_run, !(page_setup_shows env _ []). simpl.
  rewrite !script_bind_run, !load_data_run. simpl. by rewrite Hl.
Qed.

Lemma main_cache_after env c :
  cache (run main env c).1 = cache_after (disk env) c.
Proof.
  pose proof (main_run_cases env c) as H. unfold run_cases, raises in H.
  unfold cache_after. destruct (load_result c (disk env)); [|by rewrite H].
  destruct (filters _ _); [|by destruct H].
  destruct (widget_clicked _ _); [by destruct H as (v & _ & ->)|].
  destruct (view _ _); [by rewrite H|by destruct H].
Qed.

(** Only a click on the button makes a run ask for another. *)
Lemma main_rerun_clicked env c :
  asks_rerun (run main env c).2 = true →
  widget_clicked (widgets env) reset_label = true.
Proof.
  pose proof (main_run_cases env c) as H.
  unfold run_cases, raises, outcome in H.
  destruct (load_result c (disk env)) as [df|sg] eqn:Hl.
  2:{ rewrite H. by apply load_result_Err_inv in Hl as (_ & [[_ ->]|[_ ->]]). }
  destruct (widget_clicked _ _); [done|].
  destruct (filters _ _); [|destruct H as [-> _]; done].
  destruct (view _ _); [by rewrite H|destruct H as [-> _]; done].
Qed.

#[export] Instance main_rerunnable : Rerunnable main.
Proof.
  split;
    [apply main_run_loaded|apply main_cache_after|apply main_rerun_clicked].
Qed.

Lemma app_state_at_rest s : app_state (at_rest s) = s.
Proof. by destruct s. Qed.

(** What [Session.finish] makes of a run is the client at rest. *)
Lemma finish_run_client w c p e :
  finish w (run main (mkEnv w d) c)
  = if pending (run_client main d c (mkClient w true p e)).2 then None
    else Some (app_state (run_client main d c (mkClient w true p e))).
Proof.
  unfold run_client, app_state. simpl.
  by destruct (run main _ c) as [st [[]|[]]].
Qed.

(** The runs of [run_loop], one step each. *)
Lemma run_loop_steps n w c p e s :
  run_loop n d w c = Some s →
  rtc (run_step main d) (c, mkClient w true p e) (at_rest s).
Proof.
  revert w c p e. induction n as [|n IH]; intros w c p e; simpl; [done|].
  rewrite (finish_run_client w c p e).
  pose proof (run_step_run main d c (mkClient w true p e) eq_refl) as Hstep.
  destruct (run_client main d c _) as [c' [w' [] p' e']] eqn:Hx; simpl.
  - injection Hx as <- <- _ _ _. intros Hs%(IH _ _ p' e'). by econstructor.
  - intros [= <-]. by apply rtc_once.
Qed.

(** Where the runs of a request come to rest is the state [run_loop]
    returns. *)
Lemma run_step_rest c cl y :
  pending cl = true → rtc (run_step main d) (c, cl) y →
  nf (run_step main d) y →
  ∃ s, run_loop rerun_bound d (values cl) c = Some s ∧ y = at_rest s.
Proof.
  destruct cl as [w b p e]. simpl. intros -> Hy Hnf.
  destruct (run_loop_settled d w c) as (s & Hs & _). exists s. split; [done|].
  apply (confluent_rtc_nf (R:=run_step main d) (c, mkClient w true p e));
    [apply deterministic_confluent, run_step_det|done..| |].
  - by eapply run_loop_steps.
  - by apply run_step_nf.
Qed.

(** A run that leaves its client at rest leaves it settled. *)
Lemma run_client_settled c cl :
  pending cl = true → pending (run_client main d c cl).2 = false →
  settled d c (app_state (run_client main d c cl)).
Proof.
  intros Hp Hq.
  destruct (run_step_rest c cl (run_client main d c cl) Hp) as (s & Hs & ->);
    [by apply rtc_once|by apply run_step_nf|].
  rewrite app_state_at_rest. by apply run_loop_Some in Hs as [_ ?].
Qed.

(** The table of a settled state is the table the loader leaves. *)
Lemma settled_cache c s : settled d c s → table s = cache_after d c.
Proof.
  unfold settled, cache_after. intros [_ H].
  destruct (load_result c d); by destruct H as [-> _].
Qed.

End runner_lemmas.

(** ** Theorems *)

Section runner_theorems.
Context (d : gmap string FileContent).
Implicit Types (w : gmap string WidgetValue) (c : option DataFrame)
  (s : AppState) (cl : Client) (x y : option DataFrame * Client).

(** C14 (every request is answered).  When a run of the dashboard is
    requested for a client, the runs that follow cannot go on for ever:
    every sequence of runs from there is finite.  Where the runs stop, the
    client is at rest with the button released, and its browser shows the
    page of the table and of the stored values, or the last run raised
    what that page raises. *)
Theorem request_answered c cl :
  pending cl = true →
  sn (run_step main d) (c, cl)
  ∧ ∀ y, rtc (run_step main d) (c, cl) y → nf (run_step main d) y →
      pending y.2 = false ∧ values y.2 = release (values cl)
      ∧ settled d c (app_state y).
Proof.
  intros Hp. split; [apply (run_step_sn main)|].
  intros y Hy Hnf. destruct (run_step_rest d c cl y Hp Hy Hnf) as (s & Hs & ->).
  rewrite app_state_at_rest. by apply run_loop_Some in Hs as [? ?].
Qed.

(** C25 (the loop and the steps agree).  [run_loop] with its two runs of
    fuel returns a state exactly when the runs of the request, taken one
    at a time, lead to that state at rest. *)
Theorem run_loop_run_step w c p e s :
  run_loop rerun_bound d w c = Some s
  ↔ rtc (run_step main d) (c, mkClient w true p e) (at_rest s).
Proof.
  split; [apply run_loop_steps|]. intros Hs.
  destruct (run_step_rest d c (mkClient w true p e) (at_rest s))
    as (s' & Hs' & Heq); [done..|by apply (run_step_nf main)|].
  change (run_loop rerun_bound d w c = Some s') in Hs'.
  by rewrite Hs', <-(app_state_at_rest s'), <-Heq, app_state_at_rest.
Qed.

(** Two runs at most.  Whatever script of the interface runs, no
    sequence of runs of a session has more than [rerun_bound] steps, and
    it has fewer when no button is clicked. *)
Theorem run_step_bound app `{!Rerunnable app} n x y :
  nsteps (run_step app d) n x y →
  (n ≤ rerun_bound)%nat
  ∧ (widget_clicked (values x.2) reset_label = false → (n ≤ 1)%nat).
Proof.
  intros H%nsteps_runs_left; [|done]. revert H.
  unfold runs_left at 2, rerun_bound.
  destruct (pending x.2), (widget_clicked (values x.2) _); intros ?;
    (split; [lia|intros ?; (done || lia)]).
Qed.

End runner_theorems.

Lemma request_answered_witness :
  sn (run_step main (disk sample_env)) sample_client
  ∧ ∀ y, rtc (run_step main (disk sample_env)) sample_client y →
      nf (run_step main (disk sample_env)) y →
      pending y.2 = false
      ∧ values y.2 = release (values sample_client.2)
      ∧ settled (disk sample_env) (Some sample_df) (app_state y).
Proof. by apply (request_answered (disk sample_env)). Defined.

Lemma run_step_bound_witness :
  (2 ≤ rerun_bound)%nat
  ∧ (widget_clicked (values sample_client.2) reset_label = false → (2 ≤ 1)%nat).
Proof.
  apply (run_step_bound (disk sample_env) main 2 sample_client
    (run_client main (disk sample_env) (Some sample_df)
       (run_client main (disk sample_env) (Some sample_df) sample_client.2).2)).
  eapply nsteps_l; [by apply run_step_inv|].
  eapply nsteps_l; [apply run_step_inv; split; [|reflexivity]|apply nsteps_O].
  vm_compute. reflexivity.
Defined.
