(* ===== verification/Server.v ===== *)
(** * Server: the sessions of one process

    A Streamlit process serves many browser sessions.  Each session has
    its own widget values and its own runs of the script; the table that
    [load_data] caches belongs to the process and is shared by all of
    them.  A process is the shared cache and the clients by session
    number; its actions are the actions of one client each ([Connect],
    [Interact], [Run], [Disconnect]), lifted to the process by [act].
    The runs of different sessions may come in any order ([schedule]).
    The file follows the documented behaviour of Streamlit.  The script
    that runs is a parameter: the lemmas and theorems on independence and
    termination hold for every script of the interface
    [Runner.Rerunnable]; those on what the sessions show are about [main]
    of [src/main.py].

    The theorems show that the sessions are independent of each other (a
    session is where its own actions alone put it, actions of different
    sessions commute, every order of the runs ends in the same state),
    that the runs always come to an end, and that each session of the
    process behaves as the single session of [Session]; that the table is
    shared and never changes is the lemma [exec_shared]. *)

From S2P Require Import Prelude Series Frame Plotly Streamlit.
From S2P Require Import Filter Aggregate Loader Dashboard Session Runner.

Local Open Scope string_scope.

(** ** Data *)

Record Process : Type := mkProcess {
  shared : option DataFrame;
  clients : gmap nat Client;
}.

Inductive Action : Type :=
| Connect (i : nat)
| Interact (i : nat) (ev : Event)
| Run (i : nat)
| Disconnect (i : nat).

#[export] Instance Action_eq_dec : EqDecision Action.
Proof. solve_decision. Defined.

(** ** Operations *)

(** The session an action belongs to. *)
Definition client_of (a : Action) : nat :=
  match a with Connect i | Interact i _ | Run i | Disconnect i => i end.

(** An action as its client sees it: from the cache and the client, if
    there is one under the number, to the cache and the client after it.
    A session connects under a free number; only a requested run is
    made. *)
Definition client_act (app : Script unit) (d : gmap string FileContent)
    (a : Action) (c : option DataFrame) (o : option Client)
    : option (option DataFrame * option Client) :=
  match a, o with
  | Connect _, None => Some (c, Some connect)
  | Interact _ ev, Some cl => Some (c, Some (request ev cl))
  | Run _, Some cl =>
      if pending cl
      then let x := run_client app d c cl in Some (x.1, Some x.2)
      else None
  | Disconnect _, Some _ => Some (c, None)
  | _, _ => None
  end.

(** The action in the process: the other clients stay as they are. *)
Definition act (app : Script unit) (d : gmap string FileContent)
    (a : Action) (p : Process) : option Process :=
  x ← client_act app d a (shared p) (clients p !! client_of a);
  Some (mkProcess x.1 (partial_alter (λ _, x.2) (client_of a) (clients p))).

(** A sequence of actions. *)
Fixpoint exec (app : Script unit) (d : gmap string FileContent)
    (l : list Action) (p : Process) : option Process :=
  match l with
  | [] => Some p
  | a :: l => act app d a p ≫= exec app d l
  end.

(** The runs of the process, in whatever order the server makes them. *)
Definition schedule (app : Script unit) (d : gmap string FileContent)
    : relation Process :=
  λ p q, ∃ i, act app d (Run i) p = Some q.

(** A process that has just started, with the cache [c]. *)
Definition boot (c : option DataFrame) : Process := mkProcess c ∅.

(** No run is requested. *)
Definition quiet (p : Process) : Prop :=
  map_Forall (λ _ cl, pending cl = false) (clients p).

(** The runs the clients of a process still need. *)
Definition work (p : Process) : nat :=
  map_fold (λ _ cl n, runs_left cl + n)%nat 0%nat (clients p).

(** What an action does to the cache: a run fills it. *)
Definition touch (d : gmap string FileContent) (a : Action)
    (c : option DataFrame) : option DataFrame :=
  match a with Run _ => cache_after d c | _ => c end.

(** A session of the process as a state of [Session]. *)
Definition session_of (p : Process) (i : nat) : option AppState :=
  cl ← clients p !! i; Some (app_state (shared p, cl)).

(** The invariant of a process of the dashboard that started with the
    cache [c]: the table is the one the loader returns, and every
    session at rest is settled on it. *)
Definition settled_process (d : gmap string FileContent)
    (c : option DataFrame) (p : Process) : Prop :=
  load_result (shared p) d = load_result c d
  ∧ ∀ i cl, clients p !! i = Some cl → pending cl = false →
      settled d c (app_state (shared p, cl)).

#[export] Instance quiet_dec p : Decision (quiet p).
Proof. unfold quiet. apply _. Defined.

(** Two sessions on the sample file.  The second connects and is served
    while the first waits for its first run ([sample_process]); then the
    second chooses the department Sales and both wait ([sample_busy]);
    then both are served ([sample_quiet]). *)
Definition sample_process : Process :=
  from_option id (boot None)
    (exec main (disk sample_env) [Connect 0; Connect 1; Run 1] (boot None)).

Definition sample_busy : Process :=
  from_option id sample_process
    (act main (disk sample_env) (Interact 1 (SetDepartment ["Sales"]))
       sample_process).

Definition sample_quiet : Process :=
  from_option id sample_busy
    (exec main (disk sample_env) [Run 0; Run 1] sample_busy).

(** ** Lemmas *)

Section server_lemmas.
Context (app : Script unit) `{!Rerunnable app} (d : gmap string FileContent).
Implicit Types (a b : Action) (c : option DataFrame) (o : option Client)
  (cl : Client) (p q : Process) (i j : nat) (l : list Action)
  (m : gmap nat Client).

Lemma client_act_touch a c o x :
  client_act app d a c o = Some x → x.1 = touch d a c.
Proof.
  destruct a, o as [cl|]; simpl; try done; try by intros [= <-].
  destruct (pending cl); [|done]. intros [= <-]. apply (run_client_cache app).
Qed.

(** What an action makes of its client depends on the table alone. *)
Lemma client_act_loaded a c c' o :
  load_result c d = load_result c' d →
  snd <$> client_act app d a c o = snd <$> client_act app d a c' o.
Proof.
  intros Hl. destruct a, o as [cl|]; simpl; try done.
  destruct (pending cl); [|done].
  change (Some (Some (run_client app d c cl).2)
          = Some (Some (run_client app d c' cl).2)).
  by rewrite (run_client_loaded app d c c').
Qed.

Lemma touch_load a c : load_result (touch d a c) d = load_result c d.
Proof. destruct a; simpl; [done..|apply cache_after_load|done]. Qed.

Lemma touch_commute a b c : touch d a (touch d b c) = touch d b (touch d a c).
Proof. destruct a, b; simpl; by rewrite ?cache_after_idemp. Qed.

Lemma touch_Some a df : touch d a (Some df) = Some df.
Proof. by destruct a. Qed.

Lemma touch_cache_after a c : touch d a (cache_after d c) = cache_after d c.
Proof. destruct a; simpl; by rewrite ?cache_after_idemp. Qed.

Lemma act_Some a p q :
  act app d a p = Some q ↔
  ∃ o, client_act app d a (shared p) (clients p !! client_of a)
       = Some (touch d a (shared p), o)
     ∧ q = mkProcess (touch d a (shared p))
             (partial_alter (λ _, o) (client_of a) (clients p)).
Proof.
  unfold act. destruct (client_act _ _ _ _) as [[c o]|] eqn:Hx; simpl.
  - apply client_act_touch in Hx as Hc. simpl in Hc. subst c. naive_solver.
  - naive_solver.
Qed.

Lemma act_shared a p q :
  act app d a p = Some q → shared q = touch d a (shared p).
Proof. by intros (o & _ & ->)%act_Some. Qed.

Lemma act_lookup_ne a p q i :
  act app d a p = Some q → i ≠ client_of a → clients q !! i = clients p !! i.
Proof.
  intros (o & _ & ->)%act_Some ?. simpl. by apply lookup_partial_alter_ne.
Qed.

Lemma act_lookup a p q :
  act app d a p = Some q →
  client_act app d a (shared p) (clients p !! client_of a)
  = Some (shared q, clients q !! client_of a).
Proof.
  intros (o & -> & ->)%act_Some. simpl. by rewrite lookup_partial_alter_eq.
Qed.

(** A run in the process is a run of its client. *)
Lemma act_Run i p q :
  act app d (Run i) p = Some q ↔
  ∃ cl, clients p !! i = Some cl ∧ pending cl = true
    ∧ q = mkProcess (cache_after d (shared p))
            (<[i := (run_client app d (shared p) cl).2]> (clients p)).
Proof.
  unfold act. cbn -[run_client].
  destruct (clients p !! i) as [cl|]; cbn -[run_client].
  2: split; [done|by intros (? & ? & _)].
  destruct (pending cl) eqn:Hp; cbn -[run_client].
  2: split; [done|intros (? & [= <-] & ? & _); congruence].
  rewrite (run_client_cache app). split; [intros [= <-]; by exists cl|].
  by intros (? & [= <-] & _ & ->).
Qed.

Lemma work_insert m i cl cl' c c' :
  m !! i = Some cl → runs_left cl' < runs_left cl →
  work (mkProcess c' (<[i := cl']> m)) < work (mkProcess c m).
Proof.
  intros Hi Hlt. unfold work. simpl.
  rewrite <-insert_delete_eq, map_fold_insert_L, (map_fold_delete_L _ _ i cl m);
    [lia|intros; lia|done|intros; lia|apply lookup_delete_eq].
Qed.

(** Every run of the process takes from the work that is left. *)
Lemma schedule_work p q : schedule app d p q → work q < work p.
Proof.
  intros [i (cl & Hi & Hp & ->)%act_Run]. destruct p as [c m].
  by apply work_insert with cl, (run_client_runs_left app).
Qed.

Lemma schedule_sn p : sn (schedule app d) p.
Proof.
  apply (wf_projected (R1:=flip (schedule app d)) lt work);
    [intros ??; apply schedule_work|apply lt_wf].
Qed.

(** The process can make a run exactly when a client waits for one. *)
Lemma schedule_red p :
  red (schedule app d) p ↔ ∃ i cl, clients p !! i = Some cl ∧ pending cl = true.
Proof.
  unfold red, schedule. setoid_rewrite act_Run. naive_solver.
Qed.

Lemma schedule_nf p : nf (schedule app d) p ↔ quiet p.
Proof.
  unfold nf, quiet, map_Forall. rewrite schedule_red. split.
  - intros H i cl Hi. destruct (pending cl) eqn:Hp; [|done].
    destruct H. eauto.
  - intros H (i & cl & Hi & Hp). specialize (H i cl Hi). congruence.
Qed.

(** [act], with the cache and the client apart. *)
Lemma act_eq a p :
  act app d a p
  = o ← snd <$> client_act app d a (shared p) (clients p !! client_of a);
    Some (mkProcess (touch d a (shared p))
            (partial_alter (λ _, o) (client_of a) (clients p))).
Proof.
  unfold act. destruct (client_act _ _ _ _) as [x|] eqn:Hx; [|done].
  simpl. by rewrite (client_act_touch a _ _ x Hx).
Qed.

(** Actions of different sessions can be made in either order. *)
Lemma act_commute a b p :
  client_of a ≠ client_of b →
  act app d a p ≫= act app d b = act app d b p ≫= act app d a.
Proof.
  intros Hab. rewrite (act_eq a p), (act_eq b p).
  destruct (snd <$> client_act app d a _ _) as [o1|] eqn:Ha,
    (snd <$> client_act app d b _ _) as [o2|] eqn:Hb; simpl;
    rewrite ?act_eq; simpl;
    rewrite ?lookup_partial_alter_ne by done;
    rewrite ?(client_act_loaded a (touch d b (shared p)) (shared p)),
      ?(client_act_loaded b (touch d a (shared p)) (shared p))
      by apply touch_load;
    rewrite ?Ha, ?Hb; simpl; [|done..].
  by rewrite touch_commute, partial_alter_partial_alter_ne.
Qed.

Lemma exec_app l l' p :
  exec app d (l ++ l') p = exec app d l p ≫= exec app d l'.
Proof.
  revert p. induction l as [|a l IH]; intros p; simpl; [done|].
  destruct (act app d a p); simpl; [apply IH|done].
Qed.

(** A run that is requested stays requested while other sessions act. *)
Lemma act_Run_enabled a i p q :
  act app d a p = Some q → client_of a ≠ i →
  is_Some (act app d (Run i) p) → is_Some (act app d (Run i) q).
Proof.
  intros Ha Hi [p' (cl & Hcl & Hp & _)%act_Run].
  eexists. apply act_Run. exists cl.
  by rewrite (act_lookup_ne a p q i Ha).
Qed.

(** Two runs from the same state can be joined. *)
Lemma schedule_locally_confluent : locally_confluent (schedule app d).
Proof.
  intros p q1 q2 [i Hi] [j Hj]. destruct (decide (i = j)) as [->|Hij].
  { exists q1. by simplify_eq. }
  pose proof (act_commute (Run i) (Run j) p Hij) as H.
  rewrite Hi, Hj in H. simpl in H.
  destruct (act_Run_enabled (Run i) j p q1) as [q Hq];
    [done..|by eexists|].
  exists q. split; apply rtc_once; [by exists j|exists i; congruence].
Qed.

Lemma schedule_confluent : confluent (schedule app d).
Proof.
  apply locally_confluent_confluent;
    [apply schedule_sn|apply schedule_locally_confluent].
Qed.

(** A session through the runs of the process: its own runs, whatever
    the other sessions do in between. *)
Lemma schedule_project p q i cl :
  rtc (schedule app d) p q → clients p !! i = Some cl →
  ∃ c' cl', clients q !! i = Some cl'
    ∧ rtc (run_step app d) (shared p, cl) (c', cl').
Proof.
  intros H. revert cl.
  induction H as [p|p p1 q [j (cl0 & Hj & Hp & ->)%act_Run] _ IH];
    intros cl Hi; [by exists (shared p), cl|].
  destruct (decide (j = i)) as [->|Hji].
  - destruct (IH (run_client app d (shared p) cl).2) as (c' & cl' & ? & Hrun);
      [simplify_eq/=; apply lookup_insert_eq|].
    exists c', cl'. split; [done|].
    eapply rtc_l; [by constructor; simplify_eq|].
    by rewrite (surjective_pairing (run_client _ _ _ _)),
      (run_client_cache app).
  - destruct (IH cl) as (c' & cl' & ? & Hrun);
      [simpl; by rewrite lookup_insert_ne|].
    destruct (run_step_loaded app d _ _ (shared p) Hrun) as [c'' ?];
      [apply cache_after_load|by exists c'', cl'].
Qed.

(** The cache through the runs of the process. *)
Lemma schedule_shared p q :
  rtc (schedule app d) p q → q = p ∨ shared q = cache_after d (shared p).
Proof.
  induction 1 as [p|p p1 q [j (cl0 & Hj & Hp & ->)%act_Run] _ IH]; [by left|].
  right. destruct IH as [-> | ->]; simpl; by rewrite ?cache_after_idemp.
Qed.

Lemma client_act_pending a c o x cl :
  client_act app d a c o = Some x → x.2 = Some cl → pending cl = false →
  ∃ cl0, o = Some cl0 ∧ pending cl0 = true
    ∧ (x.1, cl) = run_client app d c cl0.
Proof.
  destruct a, o as [cl0|]; cbn -[run_client]; try done;
    try by intros [= <-] [= <-].
  destruct (pending cl0) eqn:Hp; [|done]. intros [= <-].
  cbn -[run_client]. intros [= <-] _.
  by exists cl0.
Qed.

(** An action moves behind the actions of other sessions. *)
Lemma exec_commute a l p :
  Forall (λ b, client_of a ≠ client_of b) l →
  act app d a p ≫= exec app d l = exec app d l p ≫= act app d a.
Proof.
  intros H. revert p. induction H as [|b l Hab _ IH]; intros p; simpl.
  { by destruct (act app d a p). }
  pose proof (act_commute a b p Hab) as H.
  destruct (act app d a p) as [pa|], (act app d b p) as [pb|]; simpl in *;
    [by rewrite H, IH|by rewrite H|by rewrite <-IH, <-H|done].
Qed.

Lemma exec_lookup_ne l p q i :
  Forall (λ a, client_of a ≠ i) l → exec app d l p = Some q →
  clients q !! i = clients p !! i.
Proof.
  intros H. revert p. induction H as [|a l Ha _ IH]; intros p; simpl.
  { by intros [= <-]. }
  destruct (act app d a p) as [p1|] eqn:Hp1; [|done]. simpl. intros ->%IH.
  by apply (act_lookup_ne a p p1).
Qed.

Lemma exec_shared l p q :
  exec app d l p = Some q →
  load_result (shared q) d = load_result (shared p) d
  ∧ ∀ df, shared p = Some df → shared q = Some df.
Proof.
  revert p. induction l as [|a l IH]; intros p; simpl; [by intros [= <-]|].
  destruct (act app d a p) as [p1|] eqn:Hp1; [|done]. simpl.
  intros [-> Hq]%IH. rewrite (act_shared a p p1 Hp1), touch_load.
  split; [done|]. intros df Hdf. apply Hq.
  by rewrite (act_shared a p p1 Hp1), Hdf, touch_Some.
Qed.

(** The actions of one session can be made first. *)
Lemma exec_partition i l p :
  exec app d l p
  = exec app d (filter (λ a, client_of a = i) l
                ++ filter (λ a, client_of a ≠ i) l) p.
Proof.
  revert p. induction l as [|a l IH]; intros p; [done|].
  rewrite !filter_cons. destruct (decide (client_of a = i)) as [Ha|Ha].
  { rewrite decide_False by naive_solver. simpl.
    destruct (act app d a p); simpl; [apply IH|done]. }
  rewrite decide_True, exec_app by done. simpl.
  assert (Forall (λ b, client_of a ≠ client_of b)
            (filter (λ a, client_of a = i) l)) as Hl.
  { apply Forall_forall. intros b [Hb _]%list_elem_of_filter. congruence. }
  pose proof (exec_commute a _ p Hl) as H.
  destruct (act app d a p) as [p1|], (exec app d (filter _ l) p) as [p2|];
    simpl in *;
    [by rewrite IH, exec_app, H|by rewrite IH, exec_app, H|by rewrite <-H|done].
Qed.

(** A sequence of runs is a schedule. *)
Lemma exec_schedule (ns : list nat) p q :
  exec app d (Run <$> ns) p = Some q → rtc (schedule app d) p q.
Proof.
  revert p. induction ns as [|i ns IH]; intros p; simpl; [by intros [= <-]|].
  destruct (act app d (Run i) p) as [p1|] eqn:Hp1; [|done]. simpl. intros ?%IH.
  eapply rtc_l; [by exists i|done].
Qed.

End server_lemmas.

(** ** Lemmas: the sessions of the dashboard *)

Section server_main.
Context (d : gmap string FileContent).
Implicit Types (a : Action) (c : option DataFrame) (cl : Client)
  (p q : Process) (i : nat) (l : list Action).

Lemma boot_settled c : settled_process d c (boot c).
Proof. split; [done|]. intros i cl. simpl. by rewrite lookup_empty. Qed.

Lemma act_settled c a p q :
  settled_process d c p → act main d a p = Some q → settled_process d c q.
Proof.
  intros [Hl Hp] Ha. split; [by rewrite (act_shared main d a p q), touch_load|].
  intros i cl Hi Hr. destruct (decide (i = client_of a)) as [->|Hia].
  - apply (act_lookup main) in Ha.
    destruct (client_act_pending main d _ _ _ _ cl Ha) as (cl0 & _ & ? & Hx);
      [done..|].
    eapply settled_loaded; [done|]. simpl in Hx. rewrite Hx.
    apply run_client_settled; [done|]. by rewrite <-Hx.
  - rewrite (act_lookup_ne main d a p q) in Hi by done.
    specialize (Hp i cl Hi Hr). apply settled_cache in Hp as Hc. simpl in Hc.
    by rewrite (act_shared main d a p q Ha), Hc, touch_cache_after, <-Hc.
Qed.

Lemma exec_settled c l p q :
  settled_process d c p → exec main d l p = Some q → settled_process d c q.
Proof.
  revert p. induction l as [|a l IH]; intros p Hp; simpl; [by intros [= <-]|].
  destruct (act main d a p) as [p1|] eqn:Ha; [|done]. simpl.
  eauto using act_settled.
Qed.

(** A waiting session is served as if it were alone: where the runs of
    the process stop, it is in the state [run_loop] returns for its
    widget values. *)
Lemma schedule_serves p q i cl :
  clients p !! i = Some cl → pending cl = true →
  rtc (schedule main d) p q → quiet q →
  ∃ s, run_loop rerun_bound d (values cl) (shared p) = Some s
    ∧ session_of q i = Some s.
Proof.
  intros Hi Hp Hq Hquiet.
  destruct (schedule_project main d p q i cl Hq Hi) as (c' & cl' & Hi' & Hrun).
  pose proof (Hquiet i cl' Hi') as Hrest. simpl in Hrest.
  destruct (run_step_rest d (shared p) cl (c', cl')) as (s & Hs & Heq);
    [done..|by apply (run_step_nf main)|].
  exists s. split; [done|]. unfold session_of. rewrite Hi'. simpl.
  apply run_loop_Some in Hs as [_ Hc%settled_cache].
  destruct (schedule_shared main d p q Hq) as [-> | Hsh]; [congruence|].
  injection Heq as -> ->. rewrite Hsh, <-Hc. by destruct s.
Qed.

End server_main.

(** ** Theorems *)

Section server_theorems.
Context (app : Script unit) `{!Rerunnable app} (d : gmap string FileContent).
Implicit Types (a b : Action) (c : option DataFrame) (cl : Client)
  (p q : Process) (i j : nat) (l : list Action) (s : AppState).

(** C15 (a session does not see the others).  After any sequence of
    actions of any sessions, a session has the widget values and shows
    the page that it has after its own actions alone, made in the same
    order from the same start; and the table is the same. *)
Theorem session_projection l p q i :
  exec app d l p = Some q →
  ∃ p', exec app d (filter (λ a, client_of a = i) l) p = Some p'
    ∧ clients q !! i = clients p' !! i
    ∧ load_result (shared q) d = load_result (shared p') d.
Proof.
  rewrite (exec_partition app d i), exec_app.
  destruct (exec app d (filter _ l) p) as [p'|]; simpl; [|done].
  intros Hq. exists p'. split; [done|].
  split; [|by apply (exec_shared app d) in Hq as [? _]].
  eapply (exec_lookup_ne app d); [|exact Hq].
  apply Forall_forall. by intros a [? _]%list_elem_of_filter.
Qed.

(** C24 (sessions commute).  Actions of different sessions can be made
    in either order: when the sessions of [l] and of [l'] are different,
    [l] before [l'] and [l'] before [l] succeed together and leave the
    same process. *)
Theorem sessions_commute l l' p :
  Forall (λ a, Forall (λ b, client_of a ≠ client_of b) l') l →
  exec app d (l ++ l') p = exec app d (l' ++ l) p.
Proof.
  intros H. revert p. induction H as [|a l Ha _ IH]; intros p; simpl.
  { by rewrite app_nil_r. }
  pose proof (exec_commute app d a l' p Ha) as H. rewrite (exec_app app d l').
  destruct (act app d a p) as [p1|], (exec app d l' p) as [p2|]; simpl in *;
    [by rewrite IH, exec_app, H|by rewrite IH, exec_app, H|by rewrite <-H|done].
Qed.

(** C28 (every session is served).  The runs of a process cannot go on
    for ever: every order of runs is finite.  Where the runs stop, no
    session waits for a run and every session of the process is still
    there, at rest. *)
Theorem every_session_served p :
  sn (schedule app d) p
  ∧ ∀ q, rtc (schedule app d) p q → nf (schedule app d) q →
      quiet q
      ∧ ∀ i, is_Some (clients p !! i) →
          ∃ cl, clients q !! i = Some cl ∧ pending cl = false.
Proof.
  split; [apply (schedule_sn app)|]. intros q Hq Hnf%(schedule_nf app).
  split; [done|]. intros i [cl Hi].
  destruct (schedule_project app d p q i cl Hq Hi) as (_ & cl' & Hi' & _).
  exists cl'. split; [done|]. by apply (Hnf i).
Qed.

(** C29 (the order of the runs does not matter).  In whatever order the
    server makes the runs that the sessions wait for, it ends in the same
    process. *)
Theorem schedule_order_irrelevant p q1 q2 :
  rtc (schedule app d) p q1 → quiet q1 → rtc (schedule app d) p q2 → quiet q2 →
  q1 = q2.
Proof.
  rewrite <-!(schedule_nf app d). intros H1 Hq1 H2 Hq2.
  eapply (confluent_rtc_nf (R:=schedule app d) p);
    eauto using schedule_confluent.
Qed.

End server_theorems.

Section server_main_theorems.
Context (d : gmap string FileContent).
Implicit Types (c : option DataFrame) (cl : Client) (p q : Process)
  (i : nat) (l : list Action) (s : AppState).

(** C11 (a session of the process is the session alone).  When a session
    of a process interacts and the server then makes the runs of all
    waiting sessions in any order, the session ends in the state that
    [Session.handle] computes for it alone. *)
Theorem server_refines_session i ev p p1 q s :
  session_of p i = Some s → act main d (Interact i ev) p = Some p1 →
  rtc (schedule main d) p1 q → quiet q →
  ∃ s', handle d ev s = Some s' ∧ session_of q i = Some s'.
Proof.
  unfold session_of at 1. destruct (clients p !! i) as [cl|] eqn:Hi; [|done].
  intros [= <-] Hp1 Hq Hquiet. apply (act_lookup main) in Hp1. simpl in Hp1.
  rewrite Hi in Hp1. injection Hp1 as Hc Hcl. symmetry in Hcl.
  pose proof (schedule_serves d p1 q i _ Hcl eq_refl Hq Hquiet) as H.
  unfold handle. by rewrite Hc.
Qed.

(** C40 (the first visit of a session of the process).  When a session
    connects and the server then makes the runs of all waiting sessions
    in any order, the session ends in the state of [Session.first_visit]:
    it sees the page a lone visitor sees. *)
Theorem server_first_visit i p p1 q :
  act main d (Connect i) p = Some p1 →
  rtc (schedule main d) p1 q → quiet q →
  ∃ s, first_visit d (shared p) = Some s ∧ session_of q i = Some s.
Proof.
  intros Hp1 Hq Hquiet. apply (act_lookup main) in Hp1. simpl in Hp1.
  destruct (clients p !! i); [done|]. injection Hp1 as Hc Hcl.
  symmetry in Hcl.
  pose proof (schedule_serves d p1 q i _ Hcl eq_refl Hq Hquiet) as H.
  unfold first_visit. by rewrite Hc.
Qed.

(** C30 (sessions at rest are settled).  In a process that has started
    with the cache [c], after any sequence of actions of any sessions,
    every session at rest is settled: its button is released and its
    browser shows the page of the shared table and of its own widget
    values, or its last run raised what that page raises. *)
Theorem process_settled c l p i cl :
  exec main d l (boot c) = Some p → clients p !! i = Some cl →
  pending cl = false → settled d c (app_state (shared p, cl)).
Proof.
  intros Hp. destruct (exec_settled d c l (boot c) p) as [_ H];
    [apply boot_settled|done|]. apply H.
Qed.

End server_main_theorems.

Lemma session_projection_witness :
  ∃ p', exec main (disk sample_env)
          (filter (λ a, client_of a = 1)
             [Connect 0; Connect 1; Run 1;
              Interact 1 (SetDepartment ["Sales"]); Run 0; Run 1])
          (boot None) = Some p'
    ∧ clients sample_quiet !! 1 = clients p' !! 1
    ∧ load_result (shared sample_quiet) (disk sample_env)
      = load_result (shared p') (disk sample_env).
Proof.
  apply (session_projection main). vm_compute; reflexivity.
Defined.

Lemma sessions_commute_witness :
  exec main (disk sample_env) ([Run 0] ++ [Run 1]) sample_busy
  = exec main (disk sample_env) ([Run 1] ++ [Run 0]) sample_busy.
Proof. apply (sessions_commute main). by repeat constructor. Defined.

Lemma every_session_served_witness :
  quiet sample_quiet
  ∧ ∀ i, is_Some (clients sample_busy !! i) →
      ∃ cl, clients sample_quiet !! i = Some cl ∧ pending cl = false.
Proof.
  apply (every_session_served main (disk sample_env) sample_busy).
  - apply (exec_schedule main _ [0; 1]). vm_compute; reflexivity.
  - apply (schedule_nf main), (bool_decide_unpack _). vm_compute; reflexivity.
Defined.

Lemma schedule_order_irrelevant_witness :
  sample_quiet
  = from_option id sample_busy
      (exec main (disk sample_env) [Run 1; Run 0] sample_busy).
Proof.
  apply (schedule_order_irrelevant main (disk sample_env) sample_busy).
  - apply (exec_schedule main _ [0; 1]). vm_compute; reflexivity.
  - apply (bool_decide_unpack _). vm_compute; reflexivity.
  - apply (exec_schedule main _ [1; 0]). vm_compute; reflexivity.
  - apply (bool_decide_unpack _). vm_compute; reflexivity.
Defined.

Lemma server_refines_session_witness :
  ∃ s', handle (disk sample_env) (SetDepartment ["Sales"]) sample_first
        = Some s'
      ∧ session_of sample_quiet 1 = Some s'.
Proof.
  apply (server_refines_session (disk sample_env) 1 _ sample_process
    sample_busy).
  - vm_compute; reflexivity.
  - vm_compute; reflexivity.
  - apply (exec_schedule main _ [0; 1]). vm_compute; reflexivity.
  - apply (bool_decide_unpack _). vm_compute; reflexivity.
Defined.

Lemma process_settled_witness :
  settled (disk sample_env) None
    (app_state (shared sample_process,
                default connect (clients sample_process !! 1))).
Proof.
  apply (process_settled (disk sample_env) None
    [Connect 0; Connect 1; Run 1] sample_process 1);
    vm_compute; reflexivity.
Defined.

Lemma server_first_visit_witness :
  ∃ s, first_visit (disk sample_env) None = Some s
     ∧ session_of
         (from_option id (boot None)
            (exec main (disk sample_env) [Connect 0; Connect 1; Run 0; Run 1]
               (boot None))) 1
       = Some s.
Proof.
  apply (server_first_visit (disk sample_env) 1
    (from_option id (boot None)
       (act main (disk sample_env) (Connect 0) (boot None)))
    (from_option id (boot None)
       (exec main (disk sample_env) [Connect 0; Connect 1] (boot None)))).
  - vm_compute; reflexivity.
  - apply (exec_schedule main _ [0; 1]). vm_compute; reflexivity.
  - apply (bool_decide_unpack _). vm_compute; reflexivity.
Defined.
